(** * Medieval-Game: combat, movement, boss phases, quests and cutscenes

    A shallow embedding of the gameplay logic of the repository:
    - [Character3D]  (the player avatar: stats, damage, experience,
                      per-frame update with box collision),
    - [Enemy]        (generic enemy stats and damage),
    - [Boss]         (health-threshold phases, written against fields
                      that Enemy does not have),
    - [QuestStore] and [QuestSystem] (the two quest ledgers of
                      game/systems/QuestSystem.ts),
    - [CutsceneStore] (the dialogue-graph walker).

    JavaScript [number]s are modelled by rationals ([Q]) where the code
    computes with fractions (stats, coordinates, frame deltas) and by
    [Z] where it counts (quest progress, option indices); rounding is
    outside the model, and NaN and the infinities enter only where the
    code computes with a field that is never assigned ([JS.number]).
    Rendering, DOM and animation calls are left out; [console.log]
    lines that the properties talk about are kept as an explicit log,
    and a pending [setTimeout] is kept as an entry of a timer list. *)

From Stdlib Require Import ZArith QArith Qround Qminmax Lqa Lia Bool List String.
From stdpp Require Import base option list gmap strings.
Import ListNotations.

#[local] Open Scope Z_scope.
#[local] Open Scope Q_scope.

(** ** JavaScript [Math] helpers over rationals *)

Module Math.

Definition lt (a b : Q) : bool := negb (Qle_bool b a).
Definition le (a b : Q) : bool := Qle_bool a b.
Definition gt (a b : Q) : bool := lt b a.
Definition ge (a b : Q) : bool := le b a.

(** [Math.max(a, b)]. *)
Definition max (a b : Q) : Q := if lt a b then b else a.

(** [Math.floor(x)]. *)
Definition floor (x : Q) : Q := inject_Z (Qfloor x).

End Math.

(** ** THREE.Vector3 and THREE.Box3, as far as the game uses them *)

Record Vector3 := mkVector3 { x : Q; y : Q; z : Q }.

Record Box3 := mkBox3 { min : Vector3; max : Vector3 }.

Module THREE.

Definition zero : Vector3 := mkVector3 0 0 0.

Definition add (a b : Vector3) : Vector3 :=
  mkVector3 (x a + x b) (y a + y b) (z a + z b).

Definition multiplyScalar (a : Vector3) (s : Q) : Vector3 :=
  mkVector3 (x a * s) (y a * s) (z a * s).

Definition divideScalar (a : Vector3) (s : Q) : Vector3 :=
  multiplyScalar a (1 / s).

(** [a.addScaledVector(v, s)]. *)
Definition addScaledVector (a v : Vector3) (s : Q) : Vector3 :=
  mkVector3 (x a + x v * s) (y a + y v * s) (z a + z v * s).

(** [a.lerp(v, alpha)]. *)
Definition lerp (a v : Vector3) (alpha : Q) : Vector3 :=
  mkVector3 (x a + (x v - x a) * alpha)
            (y a + (y v - y a) * alpha)
            (z a + (z v - z a) * alpha).

Definition lengthSq (a : Vector3) : Q := x a * x a + y a * y a + z a * z a.

Definition setY (a : Vector3) (v : Q) : Vector3 := mkVector3 (x a) v (z a).

(** [this.intersectsBox(box)] of Box3: the boxes are disjoint exactly
    when they are separated along one axis. *)
Definition intersectsBox (this box : Box3) : bool :=
  if Math.lt (x (max box)) (x (min this)) || Math.gt (x (min box)) (x (max this))
     || Math.lt (y (max box)) (y (min this)) || Math.gt (y (min box)) (y (max this))
     || Math.lt (z (max box)) (z (min this)) || Math.gt (z (min box)) (z (max this))
  then false else true.

(** The square root is the one operation of Vector3 that leaves the
    rationals; [length] and [normalize] are built on a given [sqrt]. *)
Section WithSqrt.
Variable sqrt : Q -> Q.

Definition length (a : Vector3) : Q := sqrt (lengthSq a).

(** [normalize()] is [divideScalar(length() || 1)]. *)
Definition normalize (a : Vector3) : Vector3 :=
  divideScalar a (if Qeq_bool (length a) 0 then 1 else length a).
End WithSqrt.

End THREE.

(** Two boxes overlap when their extents meet on every axis. *)
Definition overlaps (a b : Box3) : Prop :=
  x (min a) <= x (max b) /\ x (min b) <= x (max a) /\
  y (min a) <= y (max b) /\ y (min b) <= y (max a) /\
  z (min a) <= z (max b) /\ z (min b) <= z (max a).

(** ** The player avatar (class Character3D) *)

(** What [console.log] prints from the combat code. *)
Inductive CharacterLog :=
| CharacterDied
| LeveledUpTo (level : Z).

(** The fields [getStats()] reports. *)
Record Stats := mkStats {
  maxHealth : Q;
  currentHealth : Q;
  stamina : Q;
  maxStamina : Q;
  mana : Q;
  maxMana : Q;
  level : Z;
  experience : Q;
  experienceToNextLevel : Q;
  attackPower : Q;
  defense : Q
}.

Record Character3D := mkCharacter3D {
  stats : Stats;
  position : Vector3;              (* mesh.position *)
  currentVelocity : Vector3;
  targetVelocity : Vector3;
  previousMoveVector : Vector3;
  collisionObjects : list Box3;    (* Box3().setFromObject of each collider *)
  isWalking : bool;
  isAttacking : bool;
  isBlocking : bool;
  isDodging : bool;
  attackCooldown : Q;
  dodgeCooldown : Q;
  console : list CharacterLog      (* oldest line first *)
}.

(** The keys held and the camera vectors read during one frame. *)
Record FrameInput := mkFrameInput {
  delta : Q;
  keyW : bool;
  keyS : bool;
  keyA : bool;
  keyD : bool;
  cameraWorldDirection : Vector3;  (* camera.getWorldDirection *)
  cameraRightVector : Vector3      (* (1,0,0).applyQuaternion(camera.quaternion) *)
}.

Module Character3D.

Definition groundY : Q := 0.
Definition moveSpeed : Q := 5.
Definition movementLerpFactor : Q := 1 # 10.
Definition directMoveSpeed : Q := 3 # 100.
Definition boxSize : Q := 3 # 10.
Definition boxHeight : Q := 5 # 2.

(** Field initialisers of the class. *)
Definition initialStats : Stats :=
  {| maxHealth := 100; currentHealth := 100;
     stamina := 100; maxStamina := 100;
     mana := 50; maxMana := 50;
     level := 1%Z; experience := 0; experienceToNextLevel := 100;
     attackPower := 10; defense := 5 |}.

(** The constructor: colliders are given, the avatar stands at
    (0, groundY + 0.1, 25) and all movement vectors are zero. *)
Definition new (colliders : list Box3) : Character3D :=
  {| stats := initialStats;
     position := mkVector3 0 (groundY + (1 # 10)) 25;
     currentVelocity := THREE.zero;
     targetVelocity := THREE.zero;
     previousMoveVector := THREE.zero;
     collisionObjects := colliders;
     isWalking := false; isAttacking := false;
     isBlocking := false; isDodging := false;
     attackCooldown := 0; dodgeCooldown := 0;
     console := [] |}.

(** *** Field updates *)

Definition withStats (c : Character3D) (s : Stats) : Character3D :=
  mkCharacter3D s (position c) (currentVelocity c) (targetVelocity c)
    (previousMoveVector c) (collisionObjects c) (isWalking c) (isAttacking c)
    (isBlocking c) (isDodging c) (attackCooldown c) (dodgeCooldown c) (console c).

Definition withConsole (c : Character3D) (l : list CharacterLog) : Character3D :=
  mkCharacter3D (stats c) (position c) (currentVelocity c) (targetVelocity c)
    (previousMoveVector c) (collisionObjects c) (isWalking c) (isAttacking c)
    (isBlocking c) (isDodging c) (attackCooldown c) (dodgeCooldown c) l.

Definition withBlocking (c : Character3D) (b : bool) : Character3D :=
  mkCharacter3D (stats c) (position c) (currentVelocity c) (targetVelocity c)
    (previousMoveVector c) (collisionObjects c) (isWalking c) (isAttacking c)
    b (isDodging c) (attackCooldown c) (dodgeCooldown c) (console c).

Definition withDodging (c : Character3D) (b : bool) : Character3D :=
  mkCharacter3D (stats c) (position c) (currentVelocity c) (targetVelocity c)
    (previousMoveVector c) (collisionObjects c) (isWalking c) (isAttacking c)
    (isBlocking c) b (attackCooldown c) (dodgeCooldown c) (console c).

Definition withCooldowns (c : Character3D) (a d : Q) : Character3D :=
  mkCharacter3D (stats c) (position c) (currentVelocity c) (targetVelocity c)
    (previousMoveVector c) (collisionObjects c) (isWalking c) (isAttacking c)
    (isBlocking c) (isDodging c) a d (console c).

Definition withPosition (c : Character3D) (p : Vector3) : Character3D :=
  mkCharacter3D (stats c) p (currentVelocity c) (targetVelocity c)
    (previousMoveVector c) (collisionObjects c) (isWalking c) (isAttacking c)
    (isBlocking c) (isDodging c) (attackCooldown c) (dodgeCooldown c) (console c).

Definition withVelocity (c : Character3D) (v : Vector3) : Character3D :=
  mkCharacter3D (stats c) (position c) v (targetVelocity c)
    (previousMoveVector c) (collisionObjects c) (isWalking c) (isAttacking c)
    (isBlocking c) (isDodging c) (attackCooldown c) (dodgeCooldown c) (console c).

Definition withTargetVelocity (c : Character3D) (v : Vector3) : Character3D :=
  mkCharacter3D (stats c) (position c) (currentVelocity c) v
    (previousMoveVector c) (collisionObjects c) (isWalking c) (isAttacking c)
    (isBlocking c) (isDodging c) (attackCooldown c) (dodgeCooldown c) (console c).

Definition withPreviousMoveVector (c : Character3D) (v : Vector3) : Character3D :=
  mkCharacter3D (stats c) (position c) (currentVelocity c) (targetVelocity c)
    v (collisionObjects c) (isWalking c) (isAttacking c)
    (isBlocking c) (isDodging c) (attackCooldown c) (dodgeCooldown c) (console c).

Definition withWalking (c : Character3D) (b : bool) : Character3D :=
  mkCharacter3D (stats c) (position c) (currentVelocity c) (targetVelocity c)
    (previousMoveVector c) (collisionObjects c) b (isAttacking c)
    (isBlocking c) (isDodging c) (attackCooldown c) (dodgeCooldown c) (console c).

Definition withHealth (s : Stats) (h : Q) : Stats :=
  mkStats (maxHealth s) h (stamina s) (maxStamina s) (mana s) (maxMana s)
    (level s) (experience s) (experienceToNextLevel s) (attackPower s) (defense s).

Definition withStamina (s : Stats) (v : Q) : Stats :=
  mkStats (maxHealth s) (currentHealth s) v (maxStamina s) (mana s) (maxMana s)
    (level s) (experience s) (experienceToNextLevel s) (attackPower s) (defense s).

Definition withMana (s : Stats) (v : Q) : Stats :=
  mkStats (maxHealth s) (currentHealth s) (stamina s) (maxStamina s) v (maxMana s)
    (level s) (experience s) (experienceToNextLevel s) (attackPower s) (defense s).

Definition withExperience (s : Stats) (v : Q) : Stats :=
  mkStats (maxHealth s) (currentHealth s) (stamina s) (maxStamina s) (mana s) (maxMana s)
    (level s) v (experienceToNextLevel s) (attackPower s) (defense s).

Definition log (c : Character3D) (line : CharacterLog) : Character3D :=
  withConsole c (console c ++ [line]).

(** *** Combat *)

(** [die()]: only prints. *)
Definition die (c : Character3D) : Character3D := log c CharacterDied.

(** [takeDamage(amount)]. *)
Definition takeDamage (amount : Q) (c : Character3D) : Character3D :=
  let amount :=
    if isBlocking c then Math.max 1 (amount - defense (stats c)) else amount in
  let health := currentHealth (stats c) - amount in
  if Math.le health 0
  then die (withStats c (withHealth (stats c) 0))
  else withStats c (withHealth (stats c) health).

(** [levelUp()]. *)
Definition levelUp (c : Character3D) : Character3D :=
  let s := stats c in
  let level' := (level s + 1)%Z in
  let s' :=
    {| level := level';
       experience := experience s - experienceToNextLevel s;
       experienceToNextLevel := Math.floor (experienceToNextLevel s * (3 # 2));
       maxHealth := maxHealth s + 10;
       currentHealth := maxHealth s + 10;
       maxStamina := maxStamina s + 5;
       stamina := maxStamina s + 5;
       maxMana := maxMana s + 5;
       mana := maxMana s + 5;
       attackPower := attackPower s + 2;
       defense := defense s + 1 |} in
  log (withStats c s') (LeveledUpTo level').

(** [gainExperience(amount)]: one [if], not a loop. *)
Definition gainExperience (amount : Q) (c : Character3D) : Character3D :=
  let c := withStats c (withExperience (stats c) (experience (stats c) + amount)) in
  if Math.ge (experience (stats c)) (experienceToNextLevel (stats c))
  then levelUp c
  else c.

(** *** Collision *)

(** The avatar's box around a position, as [checkCollision] builds it. *)
Definition characterBoundingBox (newPosition : Vector3) : Box3 :=
  {| min := mkVector3 (x newPosition - boxSize) groundY (z newPosition - boxSize);
     max := mkVector3 (x newPosition + boxSize) (groundY + boxHeight)
                      (z newPosition + boxSize) |}.

(** The [for] loop of [checkCollision] over the colliders. *)
Fixpoint anyIntersects (box : Box3) (objects : list Box3) : bool :=
  match objects with
  | [] => false
  | objectBoundingBox :: rest =>
      if THREE.intersectsBox box objectBoundingBox then true
      else anyIntersects box rest
  end.

Definition checkCollision (c : Character3D) (newPosition : Vector3) : bool :=
  anyIntersects (characterBoundingBox newPosition) (collisionObjects c).

(** *** The per-frame update

    Rendering calls ([updateWeaponAnimation], [updateCameraPosition],
    [updateWalkingAnimation], [updateUI]) and the facing angle do not
    feed back into the fields below and are left out. *)

Section Update.
Variable sqrt : Q -> Q.

Definition restY : Q := groundY + (1 # 10).

(** Lines "Update cooldowns". *)
Definition updateCooldowns (delta : Q) (c : Character3D) : Character3D :=
  withCooldowns c
    (if Math.gt (attackCooldown c) 0 then attackCooldown c - delta
     else attackCooldown c)
    (if Math.gt (dodgeCooldown c) 0 then dodgeCooldown c - delta
     else dodgeCooldown c).

Definition directMoveZ (f : FrameInput) : Q :=
  let m := 0 in
  let m := if keyW f then m - directMoveSpeed else m in
  if keyS f then m + directMoveSpeed else m.

Definition directMoveX (f : FrameInput) : Q :=
  let m := 0 in
  let m := if keyA f then m - directMoveSpeed else m in
  if keyD f then m + directMoveSpeed else m.

(** The camera-relative move vector before normalisation. *)
Definition rawMoveVector (f : FrameInput) : Vector3 :=
  let cameraDirection :=
    THREE.normalize sqrt (THREE.setY (cameraWorldDirection f) 0) in
  let cameraRight :=
    THREE.normalize sqrt (THREE.setY (cameraRightVector f) 0) in
  THREE.addScaledVector
    (THREE.addScaledVector THREE.zero cameraDirection (- directMoveZ f))
    cameraRight (directMoveX f).

(** "Apply movement": the full move if it is free of collisions,
    otherwise the two single-axis slides, both measured from the
    position the frame started at. *)
Definition applyMovement (newPosition : Vector3) (c : Character3D) : Character3D :=
  if negb (checkCollision c newPosition)
  then withWalking (withPosition c newPosition) true
  else
    let slideX := mkVector3 (x newPosition) restY (z (position c)) in
    let slideZ := mkVector3 (x (position c)) restY (z newPosition) in
    let c :=
      if negb (checkCollision c slideX)
      then withPosition c (mkVector3 (x slideX) (y (position c)) (z (position c)))
      else c in
    if negb (checkCollision c slideZ)
    then withPosition c (mkVector3 (x (position c)) (y (position c)) (z slideZ))
    else c.

(** The state just before "Apply movement" when keys are held:
    smoothed direction, target velocity, stamina cost, velocity. *)
Definition accelerate (f : FrameInput) (c : Character3D) : Character3D :=
  let moveVector := THREE.normalize sqrt (rawMoveVector f) in
  let moveVector :=
    if Math.gt (THREE.lengthSq (previousMoveVector c)) 0
    then THREE.normalize sqrt (THREE.lerp moveVector (previousMoveVector c) (8 # 10))
    else moveVector in
  let c := withPreviousMoveVector c moveVector in
  let c := withTargetVelocity c
             (THREE.multiplyScalar moveVector (directMoveSpeed * 6)) in
  let c :=
    if negb (isDodging c) && Math.gt (stamina (stats c)) 0
    then
      let st := stamina (stats c) - directMoveSpeed * 5 * delta f in
      withStats c (withStamina (stats c) (if Math.lt st 0 then 0 else st))
    else c in
  withVelocity c
    (THREE.lerp (currentVelocity c) (targetVelocity c)
       (movementLerpFactor * delta f * 60)).

(** The position the avatar would reach with its current velocity. *)
Definition candidatePosition (c : Character3D) : Vector3 :=
  THREE.setY (THREE.add (position c) (currentVelocity c)) restY.

(** The branch "no input": slow down, stop on a collision. *)
Definition decelerate (c : Character3D) : Character3D :=
  let c :=
    if Math.gt (THREE.lengthSq (currentVelocity c)) (1 # 100000)
    then
      let c := withVelocity c (THREE.multiplyScalar (currentVelocity c) (95 # 100)) in
      let newPosition := candidatePosition c in
      if negb (checkCollision c newPosition)
      then withPosition c newPosition
      else withVelocity c THREE.zero
    else withWalking (withVelocity c THREE.zero) false in
  withPreviousMoveVector c THREE.zero.

Definition hasInput (f : FrameInput) : bool :=
  negb (Qeq_bool (directMoveX f) 0) || negb (Qeq_bool (directMoveZ f) 0).

Definition updateMovement (f : FrameInput) (c : Character3D) : Character3D :=
  let c := withPosition c (THREE.setY (position c) restY) in
  if hasInput f
  then
    if Math.gt (THREE.length sqrt (rawMoveVector f)) 0
    then
      let c := accelerate f c in
      applyMovement (candidatePosition c) c
    else c
  else decelerate c.

(** "Regenerate stamina when not moving or dodging". *)
Definition regenerateStamina (delta : Q) (c : Character3D) : Character3D :=
  if negb (isDodging c) && Math.lt (THREE.lengthSq (currentVelocity c)) (1 # 100)
  then
    let st := stamina (stats c) + 10 * delta in
    withStats c (withStamina (stats c)
                   (if Math.gt st (maxStamina (stats c))
                    then maxStamina (stats c) else st))
  else c.

(** "Regenerate mana". *)
Definition regenerateMana (delta : Q) (c : Character3D) : Character3D :=
  let m := mana (stats c) + 2 * delta in
  withStats c (withMana (stats c)
                 (if Math.gt m (maxMana (stats c)) then maxMana (stats c) else m)).

(** [update(delta)], with the keys and camera of the frame. *)
Definition update (f : FrameInput) (c : Character3D) : Character3D :=
  let c := updateCooldowns (delta f) c in
  let c := updateMovement f c in
  let c := regenerateStamina (delta f) c in
  regenerateMana (delta f) c.

End Update.

End Character3D.

(** ** Generic enemies (game/entities/Enemy.ts) *)

Module Enemy.

Record EnemyType := mkEnemyType {
  name : string;
  health : Q;
  typeAttackPower : Q;
  typeDefense : Q;
  typeMoveSpeed : Q;
  typeAttackRange : Q;
  typeAggroRange : Q;
  experience : Q;
  color : Z;
  scale : Q
}.

Inductive Log :=
| TakesDamage (who : string) (actualDamage hp maxHp : Q)
| Died (who : string).

Record t := mkEnemy {
  type : EnemyType;
  isAggro : bool;
  isDead : bool;
  currentHealth : Q;
  maxHealth : Q;
  attackPower : Q;
  defense : Q;
  moveSpeed : Q;
  attackRange : Q;
  aggroRange : Q;
  experienceValue : Q;
  console : list Log
}.

(** The constructor copies the stats of the type. *)
Definition new (ty : EnemyType) : t :=
  {| type := ty; isAggro := false; isDead := false;
     currentHealth := health ty; maxHealth := health ty;
     attackPower := typeAttackPower ty; defense := typeDefense ty;
     moveSpeed := typeMoveSpeed ty; attackRange := typeAttackRange ty;
     aggroRange := typeAggroRange ty; experienceValue := experience ty;
     console := [] |}.

Definition withHealth (e : t) (h : Q) : t :=
  mkEnemy (type e) (isAggro e) (isDead e) h (maxHealth e) (attackPower e)
    (defense e) (moveSpeed e) (attackRange e) (aggroRange e)
    (experienceValue e) (console e).

Definition withDead (e : t) (d : bool) : t :=
  mkEnemy (type e) (isAggro e) d (currentHealth e) (maxHealth e) (attackPower e)
    (defense e) (moveSpeed e) (attackRange e) (aggroRange e)
    (experienceValue e) (console e).

Definition log (e : t) (line : Log) : t :=
  mkEnemy (type e) (isAggro e) (isDead e) (currentHealth e) (maxHealth e)
    (attackPower e) (defense e) (moveSpeed e) (attackRange e) (aggroRange e)
    (experienceValue e) (console e ++ [line]).

(** [die()]: guarded by [isDead]; the death animation is rendering. *)
Definition die (e : t) : t :=
  if isDead e then e
  else log (withDead e true) (Died (name (type e))).

(** [takeDamage(amount)]: defense always applies; the health is not
    clamped. *)
Definition takeDamage (amount : Q) (e : t) : t :=
  if isDead e then e
  else
    let actualDamage := Math.max 1 (amount - defense e) in
    let e := withHealth e (currentHealth e - actualDamage) in
    let e := log e (TakesDamage (name (type e)) actualDamage
                      (currentHealth e) (maxHealth e)) in
    if Math.le (currentHealth e) 0 then die e else e.

Definition isAlive (e : t) : bool := negb (isDead e).

(** ENEMY_TYPES of the town scene. *)
Definition GOBLIN : EnemyType :=
  mkEnemyType "Goblin" 30 5 2 2 (3 # 2) 8 20 2280482 (8 # 10).
Definition TROLL : EnemyType :=
  mkEnemyType "Troll" 80 12 5 (12 # 10) 2 10 50 6702114 (3 # 2).
Definition SKELETON : EnemyType :=
  mkEnemyType "Skeleton" 40 8 1 (18 # 10) (18 # 10) 12 30 14540253 1.

End Enemy.


(** ** JavaScript values outside their declared types

    What the code gets where it reads a field that was never assigned,
    and where it looks up a key that is not an own property. *)

Module JS.

(** A [number] that may be NaN or infinite.  Negative zero is taken
    for zero: it could only change the sign of an infinite quotient. *)
Inductive number :=
| NaN
| Infinity (negative : bool)
| Finite (q : Q).

Inductive value :=
| Undefined
| Number (n : number).

(** [ToNumber]: [undefined] converts to NaN. *)
Definition toNumber (v : value) : number :=
  match v with
  | Undefined => NaN
  | Number n => n
  end.

Definition isNegative (q : Q) : bool := Math.lt q 0.

(** [a / b]. *)
Definition div (a b : number) : number :=
  match a, b with
  | NaN, _ | _, NaN => NaN
  | Infinity _, Infinity _ => NaN
  | Infinity s, Finite d => Infinity (xorb s (isNegative d))
  | Finite _, Infinity _ => Finite 0
  | Finite n, Finite d =>
      if Qeq_bool d 0
      then if Qeq_bool n 0 then NaN else Infinity (isNegative n)
      else Finite (n / d)
  end.

(** [a * b]. *)
Definition mul (a b : number) : number :=
  match a, b with
  | NaN, _ | _, NaN => NaN
  | Infinity s, Infinity s' => Infinity (xorb s s')
  | Infinity s, Finite q | Finite q, Infinity s =>
      if Qeq_bool q 0 then NaN else Infinity (xorb s (isNegative q))
  | Finite p, Finite q => Finite (p * q)
  end.

(** [a <= b]: false as soon as one side is NaN. *)
Definition le (a b : number) : bool :=
  match a, b with
  | NaN, _ | _, NaN => false
  | Infinity true, _ => true
  | _, Infinity false => true
  | Infinity false, _ => false
  | _, Infinity true => false
  | Finite p, Finite q => Math.le p q
  end.

(** The names every plain object inherits from [Object.prototype]:
    [obj[key]] finds a function (or the prototype itself) under them
    although the object has no such own property. *)
Definition objectPrototypeKeys : list string :=
  [ "constructor"; "toString"; "toLocaleString"; "valueOf";
    "hasOwnProperty"; "isPrototypeOf"; "propertyIsEnumerable";
    "__proto__"; "__defineGetter__"; "__defineSetter__";
    "__lookupGetter__"; "__lookupSetter__" ].

Definition inheritsKey (key : string) : bool :=
  bool_decide (key ∈ objectPrototypeKeys).

End JS.

(** ** Bosses (class Boss and NecromancerBoss)

    [Boss extends Enemy], with [Enemy] imported from './Enemy': the
    class of game/entities/Enemy.ts above.  Boss is written against
    another shape of it.  It hands the constructor (name, modelPath,
    position, scale, health, attackPower, defense) where Enemy takes
    (position, scene, type, collisionObjects), and it reads
    [this.health], [this.movementSpeed], [this.name] and [this.model],
    none of which Enemy declares or assigns (Enemy has [currentHealth]
    and [moveSpeed]); [maxHealth], [attackPower] and [attackRange] are
    fields of Enemy. *)

Module Boss.

Inductive BossAttackType :=
| AREA_DAMAGE | PROJECTILE | SUMMON_MINIONS | CHARGE | GROUND_SLAM.

Record BossSpecialAttack := mkAttack {
  attackType : BossAttackType;
  attackName : string;
  damage : Q;
  cooldown : Q;
  currentCooldown : Q;
  range : Q
}.

Record BossPhase := mkPhase {
  phaseName : string;
  healthThreshold : Q;
  phaseAttacks : list BossSpecialAttack;   (* [specialAttacks] of the phase *)
  color : option (Q * Q * Q);
  speedMultiplier : option Q;
  damageMultiplier : option Q
}.

(** The console lines of the class; [this.name] is undefined in each. *)
Inductive Log :=
| Initialized
| TransitioningTo (phase : string)
| Entered (phase : string).

Record t := mkBoss {
  self : Enemy.t;                  (* the fields of the superclass *)
  health : JS.value;               (* [this.health] *)
  movementSpeed : JS.value;        (* [this.movementSpeed] *)
  specialAttacks : list BossSpecialAttack;
  phases : list BossPhase;
  currentPhase : nat;
  phaseTransitioning : bool;
  timers : list nat;   (* pending setTimeout callbacks: their newPhaseIndex *)
  console : list Log
}.

(** *** Construction *)

(** What a constructor can be handed, by kind. *)
Inductive Argument :=
| AString (s : string)
| ANumber (n : Q)
| AVector3 (v : Vector3)
| AScene
| AnEnemyType (type : Enemy.EnemyType)
| AMeshes (meshes : list Box3).

(** How a [new] expression ends.  [ConstructedWithoutStats]: the
    constructor returned, but [type] had none of the stats it copies,
    so every stat of the object is undefined. *)
Inductive Construction (A : Type) :=
| Constructed (a : A)
| ConstructedWithoutStats
| ThrowsTypeError (what : string).

Arguments Constructed {A} a.
Arguments ConstructedWithoutStats {A}.
Arguments ThrowsTypeError {A} what.

(** The constructor of Enemy on arguments of any kind.  Copying the
    stats reads fields of [type], which throws on none of these kinds;
    [collisionObjects.filter(...)] needs an array;
    [this.mesh.position.copy(position)] reads three fields of
    [position]; [scene.add(...)] needs a scene. *)
Definition superConstructor (position scene type collisionObjects : Argument)
    : Construction Enemy.t :=
  match collisionObjects with
  | AMeshes _ =>
      match scene with
      | AScene =>
          match type with
          | AnEnemyType ty => Constructed (Enemy.new ty)
          | _ => ConstructedWithoutStats
          end
      | _ => ThrowsTypeError "scene.add is not a function"
      end
  | _ => ThrowsTypeError "collisionObjects.filter is not a function"
  end.

(** What the body of the Boss constructor assigns after [super(...)]:
    empty lists, phase 0, no transition, and 5 for the attack range of
    Enemy.  [detectionRange] is read by [isPlayerInRange] only.
    Nothing assigns [health] or [movementSpeed]. *)
Definition fields (e : Enemy.t) : t :=
  {| self :=
       Enemy.mkEnemy (Enemy.type e) (Enemy.isAggro e) (Enemy.isDead e)
         (Enemy.currentHealth e) (Enemy.maxHealth e) (Enemy.attackPower e)
         (Enemy.defense e) (Enemy.moveSpeed e) 5 (Enemy.aggroRange e)
         (Enemy.experienceValue e) (Enemy.console e);
     health := JS.Undefined; movementSpeed := JS.Undefined;
     specialAttacks := []; phases := []; currentPhase := 0%nat;
     phaseTransitioning := false; timers := []; console := [] |}.

Definition log (b : t) (line : Log) : t :=
  mkBoss (self b) (health b) (movementSpeed b) (specialAttacks b) (phases b)
    (currentPhase b) (phaseTransitioning b) (timers b) (console b ++ [line]).

(** [setupBoss()] of Boss itself. *)
Definition setupBoss (b : t) : t := log b Initialized.

(** [new Boss(name, modelPath, position, scale, health, attackPower,
    defense)]; [setupBoss] is the method of the class being
    constructed.  The four-parameter constructor of Enemy takes the
    first four arguments and ignores the rest. *)
Definition new (setupBoss : t -> t) (name modelPath : string)
    (position scale : Vector3) (health attackPower defense : Q)
    : Construction t :=
  match superConstructor (AString name) (AString modelPath)
          (AVector3 position) (AVector3 scale) with
  | Constructed e => Constructed (setupBoss (fields e))
  | ConstructedWithoutStats => ConstructedWithoutStats
  | ThrowsTypeError what => ThrowsTypeError what
  end.

(** *** Methods *)

Definition addPhase (p : BossPhase) (b : t) : t :=
  mkBoss (self b) (health b) (movementSpeed b) (specialAttacks b)
    (phases b ++ [p]) (currentPhase b) (phaseTransitioning b) (timers b)
    (console b).

Definition addSpecialAttack (a : BossSpecialAttack) (b : t) : t :=
  mkBoss (self b) (health b) (movementSpeed b) (specialAttacks b ++ [a])
    (phases b) (currentPhase b) (phaseTransitioning b) (timers b) (console b).

Definition withSelf (b : t) (e : Enemy.t) : t :=
  mkBoss e (health b) (movementSpeed b) (specialAttacks b) (phases b)
    (currentPhase b) (phaseTransitioning b) (timers b) (console b).

(** A multiplier applies when it is present and not zero
    ([if (newPhase.speedMultiplier)]). *)
Definition multiplier (m : option Q) : option Q :=
  match m with
  | Some k => if Qeq_bool k 0 then None else Some k
  | None => None
  end.

(** [this.movementSpeed *= k]. *)
Definition scaleMovementSpeed (v : JS.value) (m : option Q) : JS.value :=
  match multiplier m with
  | Some k => JS.Number (JS.mul (JS.toNumber v) (JS.Finite k))
  | None => v
  end.

(** [this.attackPower *= k], on the field of Enemy. *)
Definition scaleAttackPower (e : Enemy.t) (m : option Q) : Enemy.t :=
  match multiplier m with
  | Some k =>
      Enemy.mkEnemy (Enemy.type e) (Enemy.isAggro e) (Enemy.isDead e)
        (Enemy.currentHealth e) (Enemy.maxHealth e) (Enemy.attackPower e * k)
        (Enemy.defense e) (Enemy.moveSpeed e) (Enemy.attackRange e)
        (Enemy.aggroRange e) (Enemy.experienceValue e) (Enemy.console e)
  | None => e
  end.

(** [startPhaseTransition(newPhaseIndex)] up to the [setTimeout]. *)
Definition startPhaseTransition (newPhaseIndex : nat) (b : t) : t :=
  match phases b !! newPhaseIndex with
  | Some p =>
      mkBoss (self b) (health b) (movementSpeed b) (specialAttacks b)
        (phases b) (currentPhase b) true (timers b ++ [newPhaseIndex])
        (console b ++ [TransitioningTo (phaseName p)])
  | None =>
      (* reading [.name] of undefined throws after the flag is set *)
      mkBoss (self b) (health b) (movementSpeed b) (specialAttacks b)
        (phases b) (currentPhase b) true (timers b) (console b)
  end.

(** The callback of the 2-second timer.  [changeBossColor] returns at
    once since [this.model] is undefined. *)
Definition phaseTimeout (newPhaseIndex : nat) (b : t) : t :=
  match phases b !! newPhaseIndex with
  | Some newPhase =>
      mkBoss (scaleAttackPower (self b) (damageMultiplier newPhase))
        (health b)
        (scaleMovementSpeed (movementSpeed b) (speedMultiplier newPhase))
        (specialAttacks b) (phases b) newPhaseIndex false (timers b)
        (console b ++ [Entered (phaseName newPhase)])
  | None =>
      (* [newPhase.color] throws once currentPhase has been written *)
      mkBoss (self b) (health b) (movementSpeed b) (specialAttacks b)
        (phases b) newPhaseIndex (phaseTransitioning b) (timers b) (console b)
  end.

(** [checkPhaseTransition()]. *)
Definition checkPhaseTransition (b : t) : t :=
  if phaseTransitioning b || Nat.eqb (length (phases b)) 0 then b
  else
    let healthPercent :=
      JS.div (JS.toNumber (health b)) (JS.Finite (Enemy.maxHealth (self b))) in
    let nextPhaseIndex := S (currentPhase b) in
    if Nat.ltb nextPhaseIndex (length (phases b))
    then
      match phases b !! nextPhaseIndex with
      | Some nextPhase =>
          if JS.le healthPercent (JS.Finite (healthThreshold nextPhase))
          then startPhaseTransition nextPhaseIndex b
          else b
      | None => b
      end
    else b.

(** The cooldowns of [this.specialAttacks] run down. *)
Definition tickCooldown (deltaTime : Q) (a : BossSpecialAttack)
    : BossSpecialAttack :=
  if Math.gt (currentCooldown a) 0
  then mkAttack (attackType a) (attackName a) (damage a) (cooldown a)
         (currentCooldown a - deltaTime) (range a)
  else a.

(** [update(deltaTime, player)].  [super.update] is handed the player
    object where Enemy expects a position vector; a Player has no [z],
    so the distance is NaN, the enemy neither turns aggressive nor
    attacks, and no field of [self] changes.  [isPlayerInRange]
    returns false at its first line since [this.model] is undefined,
    so [useSpecialAttacks] is never called. *)
Definition update (deltaTime : Q) (b : t) : t :=
  let b :=
    mkBoss (self b) (health b) (movementSpeed b)
      (map (tickCooldown deltaTime) (specialAttacks b)) (phases b)
      (currentPhase b) (phaseTransitioning b) (timers b) (console b) in
  checkPhaseTransition b.

(** What can happen to a boss between two observations: a frame, a
    hit ([takeDamage] is inherited from Enemy), or the oldest pending
    timer firing. *)
Inductive event :=
| Frame (deltaTime : Q)
| TakeDamage (amount : Q)
| TimerFires.

Definition fireTimer (b : t) : t :=
  match timers b with
  | [] => b
  | k :: rest =>
      phaseTimeout k
        (mkBoss (self b) (health b) (movementSpeed b) (specialAttacks b)
           (phases b) (currentPhase b) (phaseTransitioning b) rest (console b))
  end.

Definition step (b : t) (e : event) : t :=
  match e with
  | Frame deltaTime => update deltaTime b
  | TakeDamage amount => withSelf b (Enemy.takeDamage amount (self b))
  | TimerFires => fireTimer b
  end.

Definition run (b : t) (es : list event) : t := fold_left step es b.

(** Number of transitions started so far, read off the console. *)
Definition isTransitionLine (l : Log) : bool :=
  match l with TransitioningTo _ => true | _ => false end.

Definition transitionsStarted (b : t) : nat :=
  length (filter (fun l => isTransitionLine l = true) (console b)).

End Boss.

Module NecromancerBoss.
Import Boss.

Definition phase1 : BossPhase :=
  mkPhase "Summoner" 1
    [ mkAttack SUMMON_MINIONS "Raise Dead" 0 10 0 30;
      mkAttack PROJECTILE "Shadow Bolt" 20 3 0 20 ]
    None None None.

Definition phase2 : BossPhase :=
  mkPhase "Dark Magic" (7 # 10)
    [ mkAttack AREA_DAMAGE "Death Nova" 30 15 0 30;
      mkAttack PROJECTILE "Shadow Bolt Volley" 10 8 0 20 ]
    (Some (1 # 2, 0, 1 # 2)) None (Some (12 # 10)).

Definition phase3 : BossPhase :=
  mkPhase "Unholy Power" (3 # 10)
    [ mkAttack GROUND_SLAM "Earthquake of the Dead" 50 20 0 15;
      mkAttack SUMMON_MINIONS "Army of Darkness" 0 25 0 30 ]
    (Some (1, 0, 0)) (Some (3 # 2)) (Some (3 # 2)).

(** [setupBoss()] of NecromancerBoss, which overrides that of Boss. *)
Definition setupBoss (b : t) : t :=
  addPhase phase3 (addPhase phase2 (addPhase phase1 b)).

(** [new NecromancerBoss(position)]: the constructor of Boss calls
    [this.setupBoss()], which is the override above, and the body of
    this constructor calls it a second time. *)
Definition new (position : Vector3) : Construction t :=
  match Boss.new setupBoss "Necromancer" "/models/bosses/necromancer.glb"
          position (mkVector3 (3 # 2) (3 # 2) (3 # 2)) 2000 50 30 with
  | Constructed b => Constructed (setupBoss b)
  | ConstructedWithoutStats => ConstructedWithoutStats
  | ThrowsTypeError what => ThrowsTypeError what
  end.

End NecromancerBoss.

(** ** Quests (game/systems/QuestSystem.ts)

    The file holds two ledgers over the same [Quest] shape: the
    [useQuestStore] store, which replaces its state on every action, and
    the [QuestSystem] class, which mutates its quest objects in place.
    Display-only fields (descriptions, target names) are left out;
    counts are integers. *)

(** The three values of the enum, and what [quest.status] reads on
    an object that has no such field. *)
Inductive QuestStatus := NOT_STARTED | IN_PROGRESS | COMPLETED | UNDEFINED.

Inductive ObjectiveType :=
| TALK_TO_NPC | KILL_MONSTER | COLLECT_ITEM | VISIT_LOCATION | CRAFT_ITEM.

#[global] Instance QuestStatus_eq_dec : EqDecision QuestStatus.
Proof. solve_decision. Defined.

Module QuestObjective.
Record t := mk {
  id : string;
  type : ObjectiveType;
  targetId : string;
  required : Z;
  current : Z;
  completed : bool
}.

(** [{ ...objective, current, completed }]. *)
Definition withProgress (o : t) (c : Z) (done : bool) : t :=
  mk (id o) (type o) (targetId o) (required o) c done.
End QuestObjective.

Module Quest.
Record t := mk {
  id : string;
  title : string;
  level : Z;
  status : QuestStatus;
  objectives : list QuestObjective.t;
  gold : Z;                       (* rewards.gold *)
  exp : Z;                        (* rewards.exp *)
  items : list string;            (* rewards.items, [] when absent *)
  nextQuestId : option string;
  isVisible : bool
}.

Definition withStatus (q : t) (s : QuestStatus) : t :=
  mk (id q) (title q) (level q) s (objectives q) (gold q) (exp q) (items q)
     (nextQuestId q) (isVisible q).

Definition withObjectives (q : t) (os : list QuestObjective.t) : t :=
  mk (id q) (title q) (level q) (status q) os (gold q) (exp q) (items q)
     (nextQuestId q) (isVisible q).

Definition withVisible (q : t) (v : bool) : t :=
  mk (id q) (title q) (level q) (status q) (objectives q) (gold q) (exp q)
     (items q) (nextQuestId q) v.

(** [objectives.every(obj => obj.completed)]. *)
Definition allCompleted (os : list QuestObjective.t) : bool :=
  forallb QuestObjective.completed os.
End Quest.

(** A string used as a condition: [undefined] and [''] are falsy. *)
Definition truthy (s : option string) : option string :=
  match s with
  | Some k => if decide (k = "") then None else Some k
  | None => None
  end.

Module QuestStore.

Inductive Log :=
| CannotStart (questId : string)
| Started (title : string)
| Completed (title : string).

Record t := mk {
  quests : gmap string Quest.t;
  activeQuestIds : list string;
  completedQuestIds : list string;
  showQuestLog : bool;
  console : list Log
}.

Definition initialQuests : gmap string Quest.t :=
  <["goblin_slayer" :=
      Quest.mk "goblin_slayer" "Goblin Menace" 1 NOT_STARTED
        [ QuestObjective.mk "kill_goblins" KILL_MONSTER "goblin" 5 0 false;
          QuestObjective.mk "collect_goblin_mail" COLLECT_ITEM "goblin_mail" 1 0 false ]
        50 100 ["bronze_sword"] (Some "cook_assistant") true]>
  (<["cook_assistant" :=
      Quest.mk "cook_assistant" "Cook's Assistant" 2 NOT_STARTED
        [ QuestObjective.mk "talk_to_cook" TALK_TO_NPC "lumbridge_cook" 1 0 false;
          QuestObjective.mk "collect_egg" COLLECT_ITEM "egg" 1 0 false;
          QuestObjective.mk "collect_milk" COLLECT_ITEM "milk" 1 0 false;
          QuestObjective.mk "collect_flour" COLLECT_ITEM "flour" 1 0 false ]
        100 200 ["cake_slice"] (Some "undead_threat") false]>
  (<["undead_threat" :=
      Quest.mk "undead_threat" "The Undead Threat" 5 NOT_STARTED
        [ QuestObjective.mk "investigate_swamp" VISIT_LOCATION "lumbridge_swamp" 1 0 false;
          QuestObjective.mk "kill_skeletons" KILL_MONSTER "skeleton_warrior" 3 0 false;
          QuestObjective.mk "defeat_necromancer" KILL_MONSTER "necromancer_boss" 1 0 false ]
        500 1000 ["amulet_of_protection"; "steel_longsword"] None false]> ∅)).

(** What [{ ...quest }] keeps of a value inherited from
    [Object.prototype]: nothing, since such a value has no enumerable
    own property.  Its status is undefined and its [nextQuestId] and
    [isVisible] are falsy; its title prints as "undefined".  The other
    fields are undefined as well; the store reads the objectives of
    quests in progress only, and the remaining fields not at all. *)
Definition inheritedValue : Quest.t :=
  Quest.mk "undefined" "undefined" 0 UNDEFINED [] 0 0 [] None false.

(** [quests[questId]] on the plain object that holds the quests: an
    own entry, or else what the prototype has under that name. *)
Definition get (quests : gmap string Quest.t) (questId : string)
    : option Quest.t :=
  match quests !! questId with
  | Some quest => Some quest
  | None => if JS.inheritsKey questId then Some inheritedValue else None
  end.

(** The store as created, and after [initializeQuests()]. *)
Definition empty : t := mk ∅ [] [] false [].

Definition initializeQuests (s : t) : t :=
  mk initialQuests (activeQuestIds s) (completedQuestIds s) (showQuestLog s)
     (console s).

Definition log (s : t) (line : Log) : t :=
  mk (quests s) (activeQuestIds s) (completedQuestIds s) (showQuestLog s)
     (console s ++ [line]).

(** [startQuest(questId)]. *)
Definition startQuest (questId : string) (s : t) : bool * t :=
  match get (quests s) questId with
  | Some quest =>
      if decide (Quest.status quest = NOT_STARTED)
      then
        (true,
         log (mk (<[questId := Quest.withStatus quest IN_PROGRESS]> (quests s))
                 (activeQuestIds s ++ [questId]) (completedQuestIds s)
                 (showQuestLog s) (console s))
             (Started (Quest.title quest)))
      else (false, log s (CannotStart questId))
  | None => (false, log s (CannotStart questId))
  end.

(** [completeQuest(questId)]: returns nothing; it goes ahead unless
    the lookup finds nothing or the quest is already COMPLETED. *)
Definition completeQuest (questId : string) (s : t) : t :=
  match get (quests s) questId with
  | Some quest =>
      if decide (Quest.status quest = COMPLETED) then s
      else
        let updatedQuests :=
          <[questId := Quest.withStatus quest COMPLETED]> (quests s) in
        let updatedQuests :=
          match truthy (Quest.nextQuestId quest) with
          | Some next =>
              match get updatedQuests next with
              | Some nextQuest =>
                  <[next := Quest.withVisible nextQuest true]> updatedQuests
              | None => updatedQuests
              end
          | None => updatedQuests
          end in
        let newActiveQuestIds :=
          filter (fun id => id <> questId) (activeQuestIds s) in
        log (mk updatedQuests newActiveQuestIds
                (completedQuestIds s ++ [questId]) (showQuestLog s) (console s))
            (Completed (Quest.title quest))
  | None => s
  end.

(** [updateObjective(questId, objectiveId, progress)]: the quest is
    written back with its final status before [completeQuest] runs. *)
Definition updateObjective (questId objectiveId : string) (progress : Z)
    (s : t) : t :=
  match get (quests s) questId with
  | Some quest =>
      if decide (Quest.status quest = IN_PROGRESS)
      then
        match list_find (fun obj => QuestObjective.id obj = objectiveId)
                        (Quest.objectives quest) with
        | Some (objectiveIndex, objective) =>
            let newCurrent :=
              Z.min (QuestObjective.current objective + progress)
                    (QuestObjective.required objective) in
            let completed :=
              (QuestObjective.required objective <=? newCurrent)%Z in
            let updatedObjectives :=
              <[objectiveIndex :=
                  QuestObjective.withProgress objective newCurrent completed]>
                (Quest.objectives quest) in
            let allCompleted := Quest.allCompleted updatedObjectives in
            let updatedQuest :=
              Quest.withStatus (Quest.withObjectives quest updatedObjectives)
                (if allCompleted then COMPLETED else IN_PROGRESS) in
            let s := mk (<[questId := updatedQuest]> (quests s))
                        (activeQuestIds s) (completedQuestIds s)
                        (showQuestLog s) (console s) in
            if allCompleted then completeQuest questId s else s
        | None => s
        end
      else s
  | None => s
  end.

(** [toggleQuestLog()]. *)
Definition toggleQuestLog (s : t) : t :=
  mk (quests s) (activeQuestIds s) (completedQuestIds s)
     (negb (showQuestLog s)) (console s).



End QuestStore.

Module QuestSystem.

Inductive Log :=
| Accepted (title : string)
| ObjectiveUpdated (title objectiveId : string) (current required : Z)
| Completed (title : string).

(** [activeQuests] holds references to the quest objects of the map;
    a reference is kept as the key of the object. *)
Record t := mk {
  quests : gmap string Quest.t;
  activeQuests : list string;
  completedQuests : list string;
  console : list Log
}.

(** The quests set up by the constructor. *)
Definition new : t :=
  mk (<["quest_town_defense" :=
          Quest.mk "quest_town_defense" "Town Defense" 1 NOT_STARTED
            [ QuestObjective.mk "kill_goblins" KILL_MONSTER "goblin" 5 0 false ]
            50 100 [] (Some "cook_assistant") true]>
      (<["quest_delivery" :=
          Quest.mk "quest_delivery" "Special Delivery" 2 NOT_STARTED
            [ QuestObjective.mk "collect_package" COLLECT_ITEM "package" 1 0 false;
              QuestObjective.mk "deliver_package" VISIT_LOCATION "blacksmith" 1 0 false ]
            25 50 [] (Some "undead_threat") false]>
      (<["quest_tutorial" :=
          Quest.mk "quest_tutorial" "Welcome to Lumbridge" 1 NOT_STARTED
            [ QuestObjective.mk "defeat_dummies" KILL_MONSTER "dummy" 3 0 false ]
            0 30 ["Basic Sword"] (Some "goblin_slayer") true]> ∅)))
     [] [] [].

Definition log (s : t) (line : Log) : t :=
  mk (quests s) (activeQuests s) (completedQuests s) (console s ++ [line]).

Definition withQuests (s : t) (m : gmap string Quest.t) : t :=
  mk m (activeQuests s) (completedQuests s) (console s).

(** [acceptQuest(questId)]. *)
Definition acceptQuest (questId : string) (s : t) : bool * t :=
  match quests s !! questId with
  | Some quest =>
      if decide (Quest.status quest = NOT_STARTED)
      then
        (true,
         log (mk (<[questId := Quest.withStatus quest IN_PROGRESS]> (quests s))
                 (activeQuests s ++ [questId]) (completedQuests s) (console s))
             (Accepted (Quest.title quest)))
      else (false, s)
  | None => (false, s)
  end.

(** Does the quest object behind a reference carry this id? *)
Definition refersTo (s : t) (questId : string) (ref : string) : bool :=
  match quests s !! ref with
  | Some q => bool_decide (Quest.id q = questId)
  | None => false
  end.

(** [completeQuest(questId)]. *)
Definition completeQuest (questId : string) (s : t) : bool * t :=
  match quests s !! questId with
  | Some quest =>
      if decide (Quest.status quest = IN_PROGRESS)
      then
        let s' := withQuests s
                    (<[questId := Quest.withStatus quest COMPLETED]> (quests s)) in
        (true,
         log (mk (quests s')
                 (filter (fun ref => refersTo s' questId ref = false)
                         (activeQuests s'))
                 (completedQuests s') (console s'))
             (Completed (Quest.title quest)))
      else (false, s)
  | None => (false, s)
  end.

(** [updateObjectiveProgress(questId, objectiveId, amount)]: the
    amount is added as it is.  With the [Quest] type of this file
    [current] and [required] are always defined, so the branch for
    objectives without counts is not taken. *)
Definition updateObjectiveProgress (questId objectiveId : string)
    (amount : Z) (s : t) : bool * t :=
  match quests s !! questId with
  | Some quest =>
      if decide (Quest.status quest = IN_PROGRESS)
      then
        match list_find (fun obj => QuestObjective.id obj = objectiveId)
                        (Quest.objectives quest) with
        | Some (i, objective) =>
            let current := (QuestObjective.current objective + amount)%Z in
            let completed :=
              (QuestObjective.required objective <=? current)%Z in
            let objectives :=
              <[i := QuestObjective.withProgress objective current completed]>
                (Quest.objectives quest) in
            let s := withQuests s
                       (<[questId := Quest.withObjectives quest objectives]>
                          (quests s)) in
            let s := log s (ObjectiveUpdated (Quest.title quest) objectiveId
                              current (QuestObjective.required objective)) in
            if Quest.allCompleted objectives
            then (true, snd (completeQuest questId s))
            else (true, s)
        | None => (false, s)
        end
      else (false, s)
  | None => (false, s)
  end.

(** The event handlers: each forwards to [updateObjectiveProgress] with
    a fixed quest and objective, and drops the result.  The enemy, the
    item name and the NPC name are not looked at. *)
Definition onEnemyKilled (s : t) : t :=
  snd (updateObjectiveProgress "quest_town_defense" "kill_goblins" 1 s).

Definition onItemCollected (quantity : Z) (s : t) : t :=
  snd (updateObjectiveProgress "quest_delivery" "collect_package" quantity s).

Definition onNPCInteraction (s : t) : t :=
  snd (updateObjectiveProgress "quest_delivery" "deliver_package" 1 s).

Definition onDeliveryCompleted (s : t) : t :=
  snd (updateObjectiveProgress "quest_delivery" "deliver_package" 1 s).

End QuestSystem.

(** ** Cutscenes (the useCutsceneStore store)

    Callbacks ([option.action], [onComplete]) are closures of the
    caller; each is represented by a name, and calling it appends the
    name to [called].  A pending [setTimeout] of a timed cutscene is
    kept in [timers]. *)

Inductive CutsceneType :=
| INTRO | BOSS_INTRO | QUEST_START | QUEST_COMPLETE | DIALOG | AREA_TRANSITION.

Module DialogueOption.
Record t := mk {
  text : string;
  nextId : option string;
  action : option string
}.
End DialogueOption.

Module DialogueNode.
Record t := mk {
  id : string;
  character : string;
  text : string;
  options : option (list DialogueOption.t);
  nextId : option string
}.
End DialogueNode.

Module Cutscene.
Record t := mk {
  id : string;
  type : CutsceneType;
  dialogues : option (list DialogueNode.t);
  duration : option Q;
  skippable : bool;
  onComplete : option string
}.

Definition withOnComplete (c : t) (cb : option string) : t :=
  mk (id c) (type c) (dialogues c) (duration c) (skippable c) cb.
End Cutscene.

Module CutsceneStore.

Inductive Log :=
| NotFound (cutsceneId : string)
| Playing (cutsceneId : string)
| Skipping (cutsceneId : string)
| Stopping (cutsceneId : string)
| MovingTo (dialogueId : string)
| OptionLeadsTo (dialogueId : string)
| NoMoreDialogues
| NoNextForOption.

Record t := mk {
  cutscenes : gmap string Cutscene.t;
  activeCutsceneId : option string;
  isPlaying : bool;
  currentDialogueId : option string;
  called : list string;
  timers : list Q;
  console : list Log
}.

Definition empty : t := mk ∅ None false None [] [] [].

(** What the store reads off a value inherited from
    [Object.prototype]: its [dialogues], [duration], [skippable] and
    [onComplete] are undefined, and so is its [id], which as a property
    name is "undefined"; [{ ...cutscene }] keeps nothing of it.  The
    store never reads [type]. *)
Definition inheritedValue : Cutscene.t :=
  Cutscene.mk "undefined" DIALOG None None false None.

(** [cutscenes[id]] on the plain object that holds the cutscenes: an
    own entry, or else what the prototype has under that name. *)
Definition get (cutscenes : gmap string Cutscene.t) (id : string)
    : option Cutscene.t :=
  match cutscenes !! id with
  | Some cutscene => Some cutscene
  | None => if JS.inheritsKey id then Some inheritedValue else None
  end.

(** How a store action ends: it returns, or a TypeError escapes it;
    either way the store is left in some state. *)
Inductive completion :=
| Returns (s : t)
| ThrowsTypeError (s : t).

Definition stateOf (c : completion) : t :=
  match c with Returns s => s | ThrowsTypeError s => s end.

Definition log (s : t) (line : Log) : t :=
  mk (cutscenes s) (activeCutsceneId s) (isPlaying s) (currentDialogueId s)
     (called s) (timers s) (console s ++ [line]).

Definition call (s : t) (cb : option string) : t :=
  match cb with
  | Some f =>
      mk (cutscenes s) (activeCutsceneId s) (isPlaying s) (currentDialogueId s)
         (called s ++ [f]) (timers s) (console s)
  | None => s
  end.

Definition setCurrentDialogueId (s : t) (d : option string) : t :=
  mk (cutscenes s) (activeCutsceneId s) (isPlaying s) d
     (called s) (timers s) (console s).

Definition registerCutscene (cutscene : Cutscene.t) (s : t) : t :=
  mk (<[Cutscene.id cutscene := cutscene]> (cutscenes s)) (activeCutsceneId s)
     (isPlaying s) (currentDialogueId s) (called s) (timers s) (console s).

(** [a || b] on optional callbacks. *)
Definition orElse (a b : option string) : option string :=
  match a with Some _ => a | None => b end.

(** [cutscene.dialogues && cutscene.dialogues.length > 0]. *)
Definition hasDialogues (c : Cutscene.t) : bool :=
  match Cutscene.dialogues c with
  | Some (_ :: _) => true
  | _ => false
  end.

(** [playCutscene(cutsceneId, onComplete)]. *)
Definition playCutscene (cutsceneId : string) (onComplete : option string)
    (s : t) : t :=
  match get (cutscenes s) cutsceneId with
  | None => log s (NotFound cutsceneId)
  | Some cutscene =>
      let s := log s (Playing cutsceneId) in
      let updatedCutscene :=
        Cutscene.withOnComplete cutscene
          (orElse onComplete (Cutscene.onComplete cutscene)) in
      let first :=
        match Cutscene.dialogues cutscene with
        | Some (d :: _) => Some (DialogueNode.id d)
        | _ => None
        end in
      let s := mk (cutscenes s) (Some cutsceneId) true first
                  (called s) (timers s) (console s) in
      let s := registerCutscene updatedCutscene s in
      match Cutscene.duration cutscene with
      | Some d =>
          if negb (Qeq_bool d 0) && negb (hasDialogues cutscene)
          then mk (cutscenes s) (activeCutsceneId s) (isPlaying s)
                  (currentDialogueId s) (called s) (timers s ++ [d]) (console s)
          else s
      | None => s
      end
  end.

(** [stopCutscene()]. *)
Definition stopCutscene (s : t) : t :=
  match truthy (activeCutsceneId s) with
  | None => s
  | Some active =>
      let cutscene := get (cutscenes s) active in
      let s := log s (Stopping active) in
      let s := mk (cutscenes s) None false None (called s) (timers s) (console s) in
      match cutscene with
      | Some c => call s (Cutscene.onComplete c)
      | None => s
      end
  end.

(** [skipCutscene()]. *)
Definition skipCutscene (s : t) : t :=
  match truthy (activeCutsceneId s) with
  | None => s
  | Some active =>
      match get (cutscenes s) active with
      | Some cutscene =>
          if Cutscene.skippable cutscene
          then stopCutscene (log s (Skipping active))
          else s
      | None => s
      end
  end.

(** [getCurrentDialogue()], also the lookup that opens [nextDialogue]
    and [selectDialogueOption]. *)
Definition getCurrentDialogue (s : t) : option DialogueNode.t :=
  match truthy (activeCutsceneId s), truthy (currentDialogueId s) with
  | Some active, Some currentId =>
      match get (cutscenes s) active with
      | Some cutscene =>
          match Cutscene.dialogues cutscene with
          | Some dialogues =>
              snd <$> list_find (fun d => DialogueNode.id d = currentId) dialogues
          | None => None
          end
      | None => None
      end
  | _, _ => None
  end.

(** [currentDialogue.options && currentDialogue.options.length > 0]. *)
Definition presentsChoices (d : DialogueNode.t) : bool :=
  match DialogueNode.options d with
  | Some (_ :: _) => true
  | _ => false
  end.

(** [nextDialogue()]. *)
Definition nextDialogue (s : t) : t :=
  match getCurrentDialogue s with
  | None => s
  | Some currentDialogue =>
      if presentsChoices currentDialogue then s
      else
        match truthy (DialogueNode.nextId currentDialogue) with
        | Some next => setCurrentDialogueId (log s (MovingTo next)) (Some next)
        | None => stopCutscene (log s NoMoreDialogues)
        end
  end.

(** [options[optionIndex]] for an integer index: [undefined] outside
    the array, below zero as well as past the end. *)
Definition at_index {A} (l : list A) (i : Z) : option A :=
  if (i <? 0)%Z then None else l !! Z.to_nat i.

(** [selectDialogueOption(optionIndex)]: the guard rejects indices
    at or past the end; the selected option is then dereferenced. *)
Definition selectDialogueOption (optionIndex : Z) (s : t) : completion :=
  match getCurrentDialogue s with
  | None => Returns s
  | Some currentDialogue =>
      match DialogueNode.options currentDialogue with
      | None => Returns s
      | Some options =>
          if (Z.of_nat (length options) <=? optionIndex)%Z then Returns s
          else
            match at_index options optionIndex with
            | None => ThrowsTypeError s     (* selectedOption.action *)
            | Some selectedOption =>
                let s := call s (DialogueOption.action selectedOption) in
                match truthy (DialogueOption.nextId selectedOption) with
                | Some next =>
                    Returns (setCurrentDialogueId (log s (OptionLeadsTo next))
                               (Some next))
                | None => Returns (stopCutscene (log s NoNextForOption))
                end
            end
      end
  end.

(** The callback that [playCutscene] hands to [setTimeout] for a timed
    cutscene, run when the [n]-th pending timer fires: it takes no
    argument and calls [stopCutscene()]. *)
Definition fireTimer (n : nat) (s : t) : t :=
  match timers s !! n with
  | Some _ =>
      stopCutscene
        (mk (cutscenes s) (activeCutsceneId s) (isPlaying s)
            (currentDialogueId s) (called s) (delete n (timers s)) (console s))
  | None => s
  end.

(** [getActiveCutscene()]. *)
Definition getActiveCutscene (s : t) : option Cutscene.t :=
  match truthy (activeCutsceneId s) with
  | Some active => get (cutscenes s) active
  | None => None
  end.

End CutsceneStore.

(** ** Predicates and scenarios used in the statements *)

Ltac break_ifs :=
  repeat match goal with
  | |- context [if ?b then _ else _] => destruct b
  end.

(** A square root that is exact on squares of rationals, for running
    the update on concrete frames. *)
Definition sqrtOfSquare (q : Q) : Q :=
  let r := Qred q in
  if (Qnum r <=? 0)%Z then 0 else Z.sqrt (Qnum r) # Pos.sqrt (Qden r).

(** A wall across the avatar's way that ends a little in front of its
    starting place (0, 0.1, 25). *)
Definition wallAhead : Box3 :=
  mkBox3 (mkVector3 (-5) 0 24) (mkVector3 5 3 (2469 # 100)).

(** A frame of 1/60 s with W held and the camera looking along -z. *)
Definition frameForward : FrameInput :=
  mkFrameInput (1 # 60) true false false false
    (mkVector3 0 0 (-1)) (mkVector3 1 0 0).

(** The avatar keeps no alive flag; a killed avatar is one at 0 health
    whose [die] has run. *)
Definition deadAvatar : Character3D :=
  Character3D.takeDamage 100 (Character3D.new []).

(** A goblin killed by one hit of 100. *)
Definition deadGoblin : Enemy.t :=
  Enemy.takeDamage 100 (Enemy.new Enemy.GOBLIN).

(** An object with the fields of a troll (80 health, defense 5) on
    which the body of the Boss constructor and then [addPhase] for
    phases at 100%, 70% and 30% have run. *)
Definition threePhaseBoss : Boss.t :=
  Boss.addPhase NecromancerBoss.phase3
    (Boss.addPhase NecromancerBoss.phase2
       (Boss.addPhase NecromancerBoss.phase1
          (Boss.fields (Enemy.new Enemy.TROLL)))).

(** A frame, a hit of 33 that leaves 52 of 80 health (65%), the frames
    and two seconds after it, and a hit of 40 that leaves 17 (21%). *)
Definition bossFight : list Boss.event :=
  [ Boss.Frame (1 # 60); Boss.TakeDamage 33; Boss.Frame (1 # 60);
    Boss.TimerFires; Boss.Frame (1 # 60); Boss.TakeDamage 40;
    Boss.Frame (1 # 60); Boss.TimerFires; Boss.Frame (1 # 60) ].

(** The store after the goblin quest was started and both of its
    objectives were brought to their required counts. *)
Definition afterGoblinSlayer : QuestStore.t :=
  QuestStore.updateObjective "goblin_slayer" "collect_goblin_mail" 1
    (QuestStore.updateObjective "goblin_slayer" "kill_goblins" 5
       (snd (QuestStore.startQuest "goblin_slayer"
               (QuestStore.initializeQuests QuestStore.empty)))).

(** The delivery quest accepted, then three packages collected at once
    (as [onItemCollected(name, 3)] reports them). *)
Definition afterThreePackages : bool * QuestSystem.t :=
  QuestSystem.updateObjectiveProgress "quest_delivery" "collect_package" 3
    (snd (QuestSystem.acceptQuest "quest_delivery" QuestSystem.new)).

(** [gamePrologueCutscene] of the source (title, image and music left
    out; its [onComplete] closure goes by a name). *)
Definition gamePrologueCutscene : Cutscene.t :=
  Cutscene.mk "game_prologue" INTRO
    (Some
       [ DialogueNode.mk "intro1" "Narrator"
           "Welcome to the world of Gielinor, a land of magic and adventure."
           None (Some "intro2");
         DialogueNode.mk "intro2" "Narrator"
           "You have arrived in the peaceful town of Lumbridge, ready to forge your own path."
           None (Some "intro3");
         DialogueNode.mk "intro3" "Town Guard"
           "Halt, traveler! Welcome to Lumbridge. You look like you're new around here."
           None (Some "intro4");
         DialogueNode.mk "intro4" "Town Guard"
           "The town has been having some trouble with goblins lately. Perhaps you could help us?"
           (Some [ DialogueOption.mk "I'd be happy to help." (Some "intro5_help") None;
                   DialogueOption.mk "I need to get settled first."
                     (Some "intro5_later") None ])
           None;
         DialogueNode.mk "intro5_help" "Town Guard"
           "Excellent! Speak with the mayor when you're ready to begin."
           None (Some "intro6");
         DialogueNode.mk "intro5_later" "Town Guard"
           "Understandable. Find me when you're ready, and I'll introduce you to the mayor."
           None (Some "intro6");
         DialogueNode.mk "intro6" "Narrator"
           "And so your adventure begins. What path will you choose in the world of Gielinor?"
           None None ])
    None true (Some "prologue complete").

(** The prologue registered and played up to the guard's question,
    the node that offers two options. *)
Definition atGuardQuestion : CutsceneStore.t :=
  CutsceneStore.nextDialogue
    (CutsceneStore.nextDialogue
       (CutsceneStore.nextDialogue
          (CutsceneStore.playCutscene "game_prologue" None
             (CutsceneStore.registerCutscene gamePrologueCutscene
                CutsceneStore.empty)))).

(** A thin pillar beside the avatar's way, and a frame of 1/60 s with
    W and D held (camera looking along -z). *)
Definition pillarAtCorner : Box3 :=
  mkBox3 (mkVector3 (305 # 1000) 0 (246 # 10))
         (mkVector3 (4 # 10) 3 (2469 # 100)).

Definition frameDiagonal : FrameInput :=
  mkFrameInput (1 # 60) true false false true
    (mkVector3 0 0 (-1)) (mkVector3 1 0 0).

(** A frame of 1/60 s with no key held. *)
Definition frameIdle : FrameInput :=
  mkFrameInput (1 # 60) false false false false
    (mkVector3 0 0 (-1)) (mkVector3 1 0 0).

(** ** The avatar's attack window (startAttack and its timer)

    [startAttack] opens the window and schedules the callback that
    closes it half a second later; the callback's hit effect is
    rendering. *)

Module Controls.


Definition withAttacking (c : Character3D) (b : bool) : Character3D :=
  mkCharacter3D (stats c) (position c) (currentVelocity c) (targetVelocity c)
    (previousMoveVector c) (collisionObjects c) (isWalking c) b
    (isBlocking c) (isDodging c) (attackCooldown c) (dodgeCooldown c) (console c).



End Controls.


(** What can be done to an enemy from outside. *)
Inductive EnemyCall :=
| CallTakeDamage (amount : Q)
| CallDie.

Definition enemyCall (e : Enemy.t) (call : EnemyCall) : Enemy.t :=
  match call with
  | CallTakeDamage amount => Enemy.takeDamage amount e
  | CallDie => Enemy.die e
  end.

Definition isDiedLine (l : Enemy.Log) : bool :=
  match l with Enemy.Died _ => true | Enemy.TakesDamage _ _ _ _ => false end.

(** How often the enemy's death was printed. *)
Definition deathsLogged (e : Enemy.t) : nat :=
  length (filter (fun l => isDiedLine l = true) (Enemy.console e)).

(** ** The enemy's per-frame update (Enemy.update)

    The enemy's place in the world is kept beside its stats; [attack()]
    only flashes the mesh, so the times at which it ran are recorded.
    The clock ([performance.now() / 1000]) is an input of the frame. *)

Module EnemyAI.

Record t := mk {
  self : Enemy.t;
  position : Vector3;              (* mesh.position *)
  currentVelocity : Vector3;
  targetPosition : Vector3;
  lastAttackTime : Q;
  collisionObjects : list Box3;
  attacks : list Q                 (* clock readings at which attack() ran *)
}.

Record Tick := mkTick {
  delta : Q;
  playerPosition : Vector3;
  now : Q
}.

Definition attackCooldown : Q := 2.

(** The constructor, at a position and with its colliders. *)
Definition new (at_ : Vector3) (ty : Enemy.EnemyType) (colliders : list Box3) : t :=
  mk (Enemy.new ty) at_ THREE.zero THREE.zero 0 colliders [].

Definition withAggro (e : Enemy.t) (a : bool) : Enemy.t :=
  Enemy.mkEnemy (Enemy.type e) a (Enemy.isDead e) (Enemy.currentHealth e)
    (Enemy.maxHealth e) (Enemy.attackPower e) (Enemy.defense e)
    (Enemy.moveSpeed e) (Enemy.attackRange e) (Enemy.aggroRange e)
    (Enemy.experienceValue e) (Enemy.console e).

(** The enemy's box around a position, scaled with its type. *)
Definition enemyBoundingBox (e : t) (newPosition : Vector3) : Box3 :=
  let scaledSize := Enemy.scale (Enemy.type (self e)) * (4 # 10) in
  {| min := mkVector3 (x newPosition - scaledSize) (y newPosition)
                      (z newPosition - scaledSize);
     max := mkVector3 (x newPosition + scaledSize)
                      (y newPosition + (5 # 2) * Enemy.scale (Enemy.type (self e)))
                      (z newPosition + scaledSize) |}.

Definition checkCollision (e : t) (newPosition : Vector3) : bool :=
  Character3D.anyIntersects (enemyBoundingBox e newPosition) (collisionObjects e).

Definition subVectors (a b : Vector3) : Vector3 :=
  mkVector3 (x a - x b) (y a - y b) (z a - z b).

Section WithSqrt.
Variable sqrt : Q -> Q.

Definition distanceTo (a b : Vector3) : Q :=
  sqrt (THREE.lengthSq (subVectors a b)).

(** [update(delta, playerPosition)]. *)
Definition update (k : Tick) (e : t) : t :=
  if Enemy.isDead (self e) then e
  else
    let distToPlayer := distanceTo (position e) (playerPosition k) in
    let self1 :=
      if Math.lt distToPlayer (Enemy.aggroRange (self e))
      then withAggro (self e) true else self e in
    if Enemy.isAggro self1
    then
      let direction :=
        THREE.normalize sqrt (subVectors (playerPosition k) (position e)) in
      let velocity :=
        mkVector3 (x direction * Enemy.moveSpeed (self e) * delta k)
                  (y (currentVelocity e))
                  (z direction * Enemy.moveSpeed (self e) * delta k) in
      let newPosition := THREE.add (position e) velocity in
      let position1 :=
        if negb (checkCollision e newPosition) then newPosition else position e in
      let attacksNow :=
        Math.lt distToPlayer (Enemy.attackRange (self e))
        && Math.gt (now k - lastAttackTime e) attackCooldown in
      mk self1 position1 velocity (playerPosition k)
         (if attacksNow then now k else lastAttackTime e)
         (collisionObjects e)
         (if attacksNow then attacks e ++ [now k] else attacks e)
    else
      mk self1 (position e) (currentVelocity e) (targetPosition e)
         (lastAttackTime e) (collisionObjects e) (attacks e).

Definition run (e : t) (ticks : list Tick) : t :=
  fold_left (fun e k => update k e) ticks e.

End WithSqrt.

End EnemyAI.

(** Attack times that each come more than the cooldown after the one
    before, the first one after [last]. *)
Fixpoint spaced (last : Q) (times : list Q) : Prop :=
  match times with
  | [] => True
  | t :: rest => last + EnemyAI.attackCooldown < t /\ spaced t rest
  end.

(** A goblin one unit away from a player who stands at the origin, and
    a frame of 1/60 s at a given clock reading. *)
Definition goblinNearby : EnemyAI.t :=
  EnemyAI.new (mkVector3 0 0 1) Enemy.GOBLIN [].

Definition goblinFarAway : EnemyAI.t :=
  EnemyAI.new (mkVector3 0 0 20) Enemy.GOBLIN [].

Definition tickAt (time : Q) : EnemyAI.Tick :=
  EnemyAI.mkTick (1 # 60) (mkVector3 0 0 0) time.

(** The actions of the quest store that a caller can take after
    [initializeQuests], and a run of them. *)
Inductive QuestAction :=
| StartQuest (questId : string)
| UpdateObjective (questId objectiveId : string) (progress : Z)
| CompleteQuest (questId : string)
| ToggleQuestLog.

Definition questAct (s : QuestStore.t) (a : QuestAction) : QuestStore.t :=
  match a with
  | StartQuest questId => snd (QuestStore.startQuest questId s)
  | UpdateObjective questId objectiveId progress =>
      QuestStore.updateObjective questId objectiveId progress s
  | CompleteQuest questId => QuestStore.completeQuest questId s
  | ToggleQuestLog => QuestStore.toggleQuestLog s
  end.

Definition questActs (s : QuestStore.t) (acts : list QuestAction)
    : QuestStore.t :=
  fold_left questAct acts s.

(** NOT_STARTED < IN_PROGRESS < COMPLETED; an entry without a status
    ranks with the quests in progress: it cannot be started, only
    completed. *)
Definition stage (st : QuestStatus) : nat :=
  match st with
  | NOT_STARTED => 0
  | IN_PROGRESS | UNDEFINED => 1
  | COMPLETED => 2
  end.

(** [q'] is a later state of the quest [q]. *)
Definition evolves (q q' : Quest.t) : Prop :=
  Quest.id q' = Quest.id q /\
  Quest.title q' = Quest.title q /\
  Quest.nextQuestId q' = Quest.nextQuestId q /\
  (stage (Quest.status q) <= stage (Quest.status q'))%nat /\
  (Quest.isVisible q = true -> Quest.isVisible q' = true).

(** An objective whose count is within its requirement and whose flag
    says whether the requirement is met. *)
Definition counted (o : QuestObjective.t) : Prop :=
  (QuestObjective.current o <= QuestObjective.required o)%Z /\
  QuestObjective.completed o
    = (QuestObjective.required o <=? QuestObjective.current o)%Z.

Definition allCounted (m : gmap string Quest.t) : Prop :=
  forall k q o, m !! k = Some q -> o ∈ Quest.objectives q -> counted o.


(** A store in which the goblin quest is under way. *)
Definition goblinQuestStarted : QuestStore.t :=
  snd (QuestStore.startQuest "goblin_slayer"
         (QuestStore.initializeQuests QuestStore.empty)).

(** The quest object of the class after [n] enemies were killed. *)
Definition afterKills (n : nat) (s : QuestSystem.t) : QuestSystem.t :=
  Nat.iter n QuestSystem.onEnemyKilled s.

Definition townDefenseAccepted : QuestSystem.t :=
  snd (QuestSystem.acceptQuest "quest_town_defense" QuestSystem.new).





(** The names a callback slot adds to [called]. *)
Definition calls (cb : option string) : list string :=
  match cb with Some f => [f] | None => [] end.

(** A timed cutscene without dialogues, and a store that knows it and
    the prologue. *)
Definition fadeToBlack : Cutscene.t :=
  Cutscene.mk "fade" AREA_TRANSITION None (Some 1500) true (Some "afterFade").

Definition twoCutscenes : CutsceneStore.t :=
  CutsceneStore.registerCutscene fadeToBlack
    (CutsceneStore.registerCutscene gamePrologueCutscene CutsceneStore.empty).

(** A cutscene whose first node points at a node that does not
    exist. *)
Definition brokenCutscene : Cutscene.t :=
  Cutscene.mk "broken" DIALOG
    (Some [DialogueNode.mk "a" "Narrator" "..." None (Some "missing")])
    None false (Some "afterBroken").

Definition playingBroken : CutsceneStore.t :=
  CutsceneStore.playCutscene "broken" None
    (CutsceneStore.registerCutscene brokenCutscene CutsceneStore.empty).


(** ** Combat in the scene (class Scene3D of scenes/TownScene.ts)

    The scene holds the avatar, the enemies, the time of the last enemy
    attack and the combat log of its UI; damage indicators are display
    only.  [performance.now() / 1000] is read by [checkCombat] itself
    and enters as [now]. *)

Module Scene3D.

Inductive CombatMessage :=
| EnemyHitsYou (who : string) (damage : Q)
| YouDodged (who : string)
| YouHit (who : string) (damage : Q)
| YouDefeated (who : string) (expGained : Q).

Record t := mk {
  character : option Character3D;  (* null until the avatar is created *)
  enemies : list EnemyAI.t;
  lastCombatTime : Q;
  combatLog : list CombatMessage
}.

Definition combatCooldown : Q := 1 # 2.

(** [Character3D.getAttackRange()]: the field is initialised to 2 and
    never assigned. *)
Definition getAttackRange (c : Character3D) : Q := 2.

Definition withCharacter (sc : t) (c : option Character3D) : t :=
  mk c (enemies sc) (lastCombatTime sc) (combatLog sc).

Definition withEnemies (sc : t) (es : list EnemyAI.t) : t :=
  mk (character sc) es (lastCombatTime sc) (combatLog sc).

Definition withLastCombatTime (sc : t) (time : Q) : t :=
  mk (character sc) (enemies sc) time (combatLog sc).

Definition addCombatLogMessage (sc : t) (m : CombatMessage) : t :=
  mk (character sc) (enemies sc) (lastCombatTime sc) (combatLog sc ++ [m]).

Definition withSelf (e : EnemyAI.t) (self' : Enemy.t) : EnemyAI.t :=
  EnemyAI.mk self' (EnemyAI.position e) (EnemyAI.currentVelocity e)
    (EnemyAI.targetPosition e) (EnemyAI.lastAttackTime e)
    (EnemyAI.collisionObjects e) (EnemyAI.attacks e).

Section WithSqrt.
Variable sqrt : Q -> Q.

(** [checkCombat(enemy, playerPosition, delta)]: first the enemy's
    attack on the avatar, under the cooldown shared by all enemies, then
    the avatar's attack on the enemy.  [this.character?.f()] on a
    missing avatar is [undefined]. *)
Definition checkCombat (enemy : EnemyAI.t) (playerPosition : Vector3)
    (now : Q) (sc : t) : EnemyAI.t * t :=
  let distToPlayer :=
    EnemyAI.distanceTo sqrt (EnemyAI.position enemy) playerPosition in
  let who := Enemy.name (Enemy.type (EnemyAI.self enemy)) in
  let sc :=
    if Math.lt distToPlayer (Enemy.attackRange (EnemyAI.self enemy))
    then
      if Math.gt (now - lastCombatTime sc) combatCooldown
      then
        let sc := withLastCombatTime sc now in
        if negb (match character sc with
                 | Some c => isDodging c
                 | None => false
                 end)
        then
          let damage := Enemy.attackPower (EnemyAI.self enemy) in
          addCombatLogMessage
            (withCharacter sc (Character3D.takeDamage damage <$> character sc))
            (EnemyHitsYou who damage)
        else addCombatLogMessage sc (YouDodged who)
      else sc
    else sc in
  match character sc with
  | Some c =>
      if isAttacking c
      then
        if Math.lt distToPlayer (getAttackRange c)
        then
          let enemy :=
            withSelf enemy
              (Enemy.takeDamage (attackPower (stats c)) (EnemyAI.self enemy)) in
          let sc := addCombatLogMessage sc (YouHit who (attackPower (stats c))) in
          if negb (Enemy.isAlive (EnemyAI.self enemy))
          then
            let expGained := Enemy.experienceValue (EnemyAI.self enemy) in
            (enemy,
             addCombatLogMessage
               (withCharacter sc (Some (Character3D.gainExperience expGained c)))
               (YouDefeated who expGained))
          else (enemy, sc)
        else (enemy, sc)
      else (enemy, sc)
  | None => (enemy, sc)
  end.

(** The enemy part of [animate()], run after [character.update]: the
    loop visits the enemies from the last to the first; a living one is
    updated and then checked for combat, with the clock readings
    [clock i] of the two calls; afterwards the dead ones are dropped
    from the list. *)
Definition visit (deltaTime : Q) (playerPosition : Vector3) (readings : Q * Q)
    (enemy : EnemyAI.t) (sc : t) : EnemyAI.t * t :=
  if Enemy.isAlive (EnemyAI.self enemy)
  then
    let enemy :=
      EnemyAI.update sqrt
        (EnemyAI.mkTick deltaTime playerPosition (fst readings)) enemy in
    checkCombat enemy playerPosition (snd readings) sc
  else (enemy, sc).

Fixpoint visitFrom (deltaTime : Q) (playerPosition : Vector3)
    (clock : nat -> Q * Q) (i : nat) (es : list EnemyAI.t) (sc : t)
    : list EnemyAI.t * t :=
  match es with
  | [] => ([], sc)
  | e :: rest =>
      let (rest', sc) := visitFrom deltaTime playerPosition clock (S i) rest sc in
      let (e', sc) := visit deltaTime playerPosition (clock i) e sc in
      (e' :: rest', sc)
  end.

Definition animateEnemies (deltaTime : Q) (clock : nat -> Q * Q) (sc : t) : t :=
  match character sc with
  | Some c =>
      let playerPosition := position c in
      let (es, sc) :=
        visitFrom deltaTime playerPosition clock 0 (enemies sc) sc in
      withEnemies sc (filter (fun e => Enemy.isAlive (EnemyAI.self e) = true) es)
  | None => sc
  end.

(** A run of [checkCombat] calls, each with its enemy, the avatar's
    position and its clock reading. *)
Definition checkCombats (calls : list (EnemyAI.t * Vector3 * Q)) (sc : t) : t :=
  fold_left (fun sc call =>
               snd (checkCombat (fst (fst call)) (snd (fst call)) (snd call) sc))
            calls sc.

End WithSqrt.

End Scene3D.

Definition isDefeatLine (m : Scene3D.CombatMessage) : bool :=
  match m with Scene3D.YouDefeated _ _ => true | _ => false end.

(** How many enemies the log says were defeated. *)
Definition defeats (log : list Scene3D.CombatMessage) : nat :=
  length (List.filter isDefeatLine log).

Definition isEnemyAttackLine (m : Scene3D.CombatMessage) : bool :=
  match m with
  | Scene3D.EnemyHitsYou _ _ | Scene3D.YouDodged _ => true
  | _ => false
  end.

(** How many enemy attacks the log shows, landed or dodged. *)
Definition enemyAttacks (log : list Scene3D.CombatMessage) : nat :=
  length (List.filter isEnemyAttackLine log).

Definition alive (e : EnemyAI.t) : Prop :=
  Enemy.isAlive (EnemyAI.self e) = true.

(** An avatar in the middle of a swing at the origin, with a goblin
    that one hit will kill and a fresh troll next to it. *)
Definition swinging : Character3D :=
  Controls.withAttacking
    (Character3D.withPosition (Character3D.new []) (mkVector3 0 0 0)) true.

Definition woundedGoblin : EnemyAI.t :=
  Scene3D.withSelf goblinNearby
    (Enemy.withHealth (Enemy.new Enemy.GOBLIN) 5).

Definition trollNearby : EnemyAI.t :=
  EnemyAI.new (mkVector3 1 0 0) Enemy.TROLL [].

Definition skirmish : Scene3D.t :=
  Scene3D.mk (Some swinging) [woundedGoblin; trollNearby] 0 [].

(** * Properties *)

(** ** Comparisons and boxes *)

Lemma Math_lt_iff a b : Math.lt a b = true <-> a < b.
Proof.
  unfold Math.lt. rewrite negb_true_iff, <- not_true_iff_false, Qle_bool_iff.
  split; [apply Qnot_le_lt | apply Qlt_not_le].
Qed.

Lemma Math_le_iff a b : Math.le a b = true <-> a <= b.
Proof. apply Qle_bool_iff. Qed.

Lemma Math_lt_false a b : Math.lt a b = false <-> b <= a.
Proof.
  unfold Math.lt. rewrite negb_false_iff. apply Qle_bool_iff.
Qed.

Lemma Math_le_false a b : Math.le a b = false <-> b < a.
Proof.
  unfold Math.le. rewrite <- not_true_iff_false, Qle_bool_iff.
  split; [apply Qnot_le_lt | apply Qlt_not_le].
Qed.

Lemma Math_max_lb a b : a <= Math.max a b /\ b <= Math.max a b.
Proof.
  unfold Math.max. destruct (Math.lt a b) eqn:E.
  - apply Math_lt_iff in E. split; lra.
  - apply Math_lt_false in E. split; lra.
Qed.

Lemma Math_gt_iff a b : Math.gt a b = true <-> b < a.
Proof. apply Math_lt_iff. Qed.

Lemma Math_gt_false a b : Math.gt a b = false <-> a <= b.
Proof. apply Math_lt_false. Qed.

Lemma Math_ge_iff a b : Math.ge a b = true <-> b <= a.
Proof. apply Math_le_iff. Qed.

(** [intersectsBox] decides [overlaps]. *)
Lemma intersectsBox_overlaps a b :
  THREE.intersectsBox a b = true <-> overlaps a b.
Proof.
  unfold THREE.intersectsBox, overlaps.
  destruct (Math.lt (x (max b)) (x (min a))) eqn:E1;
  destruct (Math.gt (x (min b)) (x (max a))) eqn:E2;
  destruct (Math.lt (y (max b)) (y (min a))) eqn:E3;
  destruct (Math.gt (y (min b)) (y (max a))) eqn:E4;
  destruct (Math.lt (z (max b)) (z (min a))) eqn:E5;
  destruct (Math.gt (z (min b)) (z (max a))) eqn:E6;
  cbn [orb];
  repeat match goal with
  | H : Math.lt _ _ = true |- _ => apply Math_lt_iff in H
  | H : Math.lt _ _ = false |- _ => apply Math_lt_false in H
  | H : Math.gt _ _ = true |- _ => apply Math_gt_iff in H
  | H : Math.gt _ _ = false |- _ => apply Math_gt_false in H
  end;
  split; intros H; try discriminate; try reflexivity;
  try (repeat split; assumption);
  exfalso; destruct H as (? & ? & ? & ? & ? & ?); lra.
Qed.

(** The loop of [checkCollision] finds a collider iff one overlaps. *)
Lemma anyIntersects_exists box objects :
  Character3D.anyIntersects box objects = true <->
  exists o, In o objects /\ overlaps box o.
Proof.
  induction objects as [|o rest IH]; cbn [Character3D.anyIntersects].
  - split; [discriminate | intros (o & [] & _)].
  - destruct (THREE.intersectsBox box o) eqn:E.
    + split; [intros _ | reflexivity].
      exists o. split; [left; reflexivity | now apply intersectsBox_overlaps].
    + rewrite IH. split.
      * intros (o' & Hin & Hov). exists o'. split; [right|]; assumption.
      * intros (o' & [-> | Hin] & Hov).
        -- apply intersectsBox_overlaps in Hov. congruence.
        -- exists o'. split; assumption.
Qed.

Lemma checkCollision_spec c p :
  Character3D.checkCollision c p = true <->
  exists o, In o (collisionObjects c) /\
            overlaps (Character3D.characterBoundingBox p) o.
Proof. apply anyIntersects_exists. Qed.

(** ** The avatar in combat *)

Section CharacterCombat.
Import Character3D.

Lemma takeDamage_stats amount c :
  let dealt := if isBlocking c
               then Math.max 1 (amount - defense (stats c)) else amount in
  let health := currentHealth (stats c) - dealt in
  stats (takeDamage amount c) =
  withHealth (stats c) (if Math.le health 0 then 0 else health).
Proof.
  unfold takeDamage. cbv zeta.
  destruct (Math.le _ 0); reflexivity.
Qed.

Lemma takeDamage_console amount c :
  let dealt := if isBlocking c
               then Math.max 1 (amount - defense (stats c)) else amount in
  console (takeDamage amount c) =
  if Math.le (currentHealth (stats c) - dealt) 0
  then console c ++ [CharacterDied] else console c.
Proof.
  unfold takeDamage. cbv zeta.
  destruct (Math.le _ 0); reflexivity.
Qed.

(** Health never drops below zero, whatever the amount. *)
Lemma takeDamage_nonneg amount c :
  0 <= currentHealth (stats (takeDamage amount c)).
Proof.
  rewrite takeDamage_stats. cbv zeta. cbn [withHealth currentHealth].
  destruct (Math.le _ 0) eqn:E; [lra |].
  apply Math_le_false in E. lra.
Qed.

(** A hit of a non-negative amount (or any hit while blocking) keeps
    the health within [0, maxHealth]. *)
Lemma takeDamage_health_bounds amount c :
  0 <= currentHealth (stats c) <= maxHealth (stats c) ->
  isBlocking c = true \/ 0 <= amount ->
  0 <= currentHealth (stats (takeDamage amount c)) <=
    maxHealth (stats (takeDamage amount c)).
Proof.
  intros Hle Hamt. split; [apply takeDamage_nonneg |].
  rewrite takeDamage_stats. cbv zeta. cbn [withHealth currentHealth maxHealth].
  destruct (Math.le _ 0) eqn:E; [lra |].
  destruct (isBlocking c).
  - pose proof (Math_max_lb 1 (amount - defense (stats c))). lra.
  - destruct Hamt as [? | ?]; [discriminate | lra].
Qed.

(** The only stat [takeDamage] writes is the health. *)
Lemma takeDamage_other_stats amount c :
  let s := stats c in
  let s' := stats (takeDamage amount c) in
  maxHealth s' = maxHealth s /\ stamina s' = stamina s /\
  maxStamina s' = maxStamina s /\ mana s' = mana s /\
  maxMana s' = maxMana s /\ level s' = level s /\
  experience s' = experience s /\
  experienceToNextLevel s' = experienceToNextLevel s /\
  attackPower s' = attackPower s /\ defense s' = defense s.
Proof.
  cbv zeta. rewrite takeDamage_stats. cbv zeta. cbn. repeat split.
Qed.

(** Along any sequence of hits with positive amounts the avatar's
    health stays within [0, maxHealth]. *)
Lemma takeDamage_sequence_bounds amounts :
  forall c,
  0 <= currentHealth (stats c) <= maxHealth (stats c) ->
  Forall (fun a => 0 < a) amounts ->
  let c' := fold_left (fun c a => takeDamage a c) amounts c in
  0 <= currentHealth (stats c') <= maxHealth (stats c').
Proof.
  induction amounts as [| a amounts IH]; intros c Hc Hpos; [exact Hc |].
  inversion Hpos as [| ? ? Ha Hrest]; subst.
  cbn. apply IH; [| exact Hrest].
  apply takeDamage_health_bounds; [exact Hc | right; lra].
Qed.

End CharacterCombat.

(** C4.  A new avatar has 100 health and defense 5.  A hit of 20 leaves
    it at 80 when it is not blocking and at 85 when it is; a blocked
    hit takes at least 1 (a blocked hit of 3, or of 0, leaves 99).  For
    every avatar and amount the health after the hit is the health
    less the damage dealt, or exactly 0 when that is not positive, and
    [die] runs in that case and in no other.  But [die] does not run
    exactly once: it has no guard and the avatar keeps no record of its
    death, so a further hit on an avatar at 0 health brings the health
    to 0 again and runs [die] a second time. *)
Theorem C4_takeDamage_calls_die_again :
  let fresh := Character3D.new [] in
  let blocking := Character3D.withBlocking (Character3D.new []) true in
  (currentHealth (stats fresh) == 100 /\ defense (stats fresh) == 5 /\
   console fresh = []) /\
  currentHealth (stats (Character3D.takeDamage 20 fresh)) == 80 /\
  currentHealth (stats (Character3D.takeDamage 20 blocking)) == 85 /\
  currentHealth (stats (Character3D.takeDamage 3 blocking)) == 99 /\
  currentHealth (stats (Character3D.takeDamage 0 blocking)) == 99 /\
  (forall c amount,
     let dealt :=
       if isBlocking c
       then (if Qlt_le_dec 1 (amount - defense (stats c))
             then amount - defense (stats c) else 1)
       else amount in
     let left := currentHealth (stats c) - dealt in
     (left <= 0 ->
        stats (Character3D.takeDamage amount c)
          = Character3D.withHealth (stats c) 0 /\
        console (Character3D.takeDamage amount c)
          = console c ++ [CharacterDied]) /\
     (0 < left ->
        stats (Character3D.takeDamage amount c)
          = Character3D.withHealth (stats c) left /\
        console (Character3D.takeDamage amount c) = console c)) /\
  (currentHealth (stats (Character3D.takeDamage 120 fresh)) == 0 /\
   console (Character3D.takeDamage 120 fresh) = [CharacterDied]) /\
  (currentHealth
     (stats (Character3D.takeDamage 20 (Character3D.takeDamage 120 fresh))) == 0 /\
   console (Character3D.takeDamage 20 (Character3D.takeDamage 120 fresh))
     = [CharacterDied; CharacterDied]).
Proof.
  cbv zeta.
  split; [vm_compute; repeat split |].
  split; [vm_compute; reflexivity |].
  split; [vm_compute; reflexivity |].
  split; [vm_compute; reflexivity |].
  split; [vm_compute; reflexivity |].
  split; [| split; vm_compute; repeat split].
  intros c amount.
  assert (Hmax : Math.max 1 (amount - defense (stats c))
                 = if Qlt_le_dec 1 (amount - defense (stats c))
                   then amount - defense (stats c) else 1).
  { unfold Math.max. destruct (Math.lt 1 _) eqn:E.
    - apply Math_lt_iff in E.
      destruct (Qlt_le_dec 1 _); [reflexivity | lra].
    - apply Math_lt_false in E.
      destruct (Qlt_le_dec 1 _); [lra | reflexivity]. }
  pose proof (takeDamage_stats amount c) as Hs.
  pose proof (takeDamage_console amount c) as Hl.
  cbv zeta in Hs, Hl. rewrite Hmax in Hs, Hl. rewrite Hs, Hl.
  split; intros Hleft.
  - apply Math_le_iff in Hleft. rewrite Hleft. split; reflexivity.
  - destruct (Math.le _ 0) eqn:E; [apply Math_le_iff in E; lra |].
    split; reflexivity.
Qed.

(** ** Experience and levels *)

Lemma gainExperience_below_threshold amount c :
  experience (stats c) + amount < experienceToNextLevel (stats c) ->
  stats (Character3D.gainExperience amount c) =
  Character3D.withExperience (stats c) (experience (stats c) + amount).
Proof.
  intros H. unfold Character3D.gainExperience. cbn.
  destruct (Math.ge _ _) eqn:E; [|reflexivity].
  apply Math_ge_iff in E. lra.
Qed.

(** One call levels up at most once: the level rises by one exactly
    when the threshold is reached, however large the amount. *)
Lemma gainExperience_level amount c :
  level (stats (Character3D.gainExperience amount c)) =
  if Math.ge (experience (stats c) + amount) (experienceToNextLevel (stats c))
  then (level (stats c) + 1)%Z else level (stats c).
Proof.
  unfold Character3D.gainExperience. cbn.
  destruct (Math.ge _ _); reflexivity.
Qed.

(** C1.  Starting at level 1 with 0 experience and threshold 100, one
    call [gainExperience(250)] stops at level 2 with 150 experience
    against a threshold of 150 (and the stats of level 2), while the
    same 250 given as 100 and then 150 reaches level 3 with 0
    experience, threshold 225 and the stats of level 3: the single call
    does not cascade.  The second level arrives only with the next
    call, even one that gains nothing. *)
Theorem C1_gainExperience_single_call_one_level :
  let c0 := Character3D.new [] in
  let once := stats (Character3D.gainExperience 250 c0) in
  let split :=
    stats (Character3D.gainExperience 150 (Character3D.gainExperience 100 c0)) in
  (level once = 2%Z /\ experience once = 150 /\
   experienceToNextLevel once = 150 /\ maxHealth once = 110 /\
   attackPower once = 12 /\ defense once = 6) /\
  (level split = 3%Z /\ experience split = 0 /\
   experienceToNextLevel split = 225 /\ maxHealth split = 120 /\
   attackPower split = 14 /\ defense split = 7) /\
  Math.ge (experience once) (experienceToNextLevel once) = true /\
  stats (Character3D.gainExperience 0 (Character3D.gainExperience 250 c0)) = split.
Proof. vm_compute. repeat split. Qed.

(** ** The per-frame update *)

Section FrameUpdate.
Variable sqrt : Q -> Q.

Lemma updateCooldowns_frame delta c :
  stats (Character3D.updateCooldowns delta c) = stats c /\
  position (Character3D.updateCooldowns delta c) = position c /\
  currentVelocity (Character3D.updateCooldowns delta c) = currentVelocity c /\
  collisionObjects (Character3D.updateCooldowns delta c) = collisionObjects c.
Proof. repeat split. Qed.

Lemma accelerate_frame f c :
  mana (stats (Character3D.accelerate sqrt f c)) = mana (stats c) /\
  maxMana (stats (Character3D.accelerate sqrt f c)) = maxMana (stats c) /\
  position (Character3D.accelerate sqrt f c) = position c /\
  collisionObjects (Character3D.accelerate sqrt f c) = collisionObjects c.
Proof.
  unfold Character3D.accelerate. cbn.
  destruct (negb (isDodging c) && Math.gt (stamina (stats c)) 0);
    cbn; repeat split.
Qed.


Lemma applyMovement_frame p c :
  stats (Character3D.applyMovement p c) = stats c /\
  collisionObjects (Character3D.applyMovement p c) = collisionObjects c.
Proof.
  unfold Character3D.applyMovement, Character3D.checkCollision. cbn.
  break_ifs; cbn; repeat split.
Qed.

Lemma decelerate_frame c :
  stats (Character3D.decelerate c) = stats c /\
  collisionObjects (Character3D.decelerate c) = collisionObjects c.
Proof.
  unfold Character3D.decelerate, Character3D.checkCollision. cbn.
  break_ifs; cbn; repeat split.
Qed.

Lemma updateMovement_mana f c :
  mana (stats (Character3D.updateMovement sqrt f c)) = mana (stats c) /\
  maxMana (stats (Character3D.updateMovement sqrt f c)) = maxMana (stats c).
Proof.
  unfold Character3D.updateMovement. cbv zeta.
  destruct (Character3D.hasInput f).
  - destruct (Math.gt _ 0); [|split; reflexivity].
    destruct (applyMovement_frame
                (Character3D.candidatePosition
                   (Character3D.accelerate sqrt f
                      (Character3D.withPosition c
                         (THREE.setY (position c) Character3D.restY))))
                (Character3D.accelerate sqrt f
                   (Character3D.withPosition c
                      (THREE.setY (position c) Character3D.restY)))) as [-> _].
    destruct (accelerate_frame f
                (Character3D.withPosition c
                   (THREE.setY (position c) Character3D.restY)))
      as (-> & -> & _).
    split; reflexivity.
  - destruct (decelerate_frame
                (Character3D.withPosition c
                   (THREE.setY (position c) Character3D.restY))) as [-> _].
    split; reflexivity.
Qed.

Lemma regenerateStamina_mana delta c :
  mana (stats (Character3D.regenerateStamina delta c)) = mana (stats c) /\
  maxMana (stats (Character3D.regenerateStamina delta c)) = maxMana (stats c).
Proof.
  unfold Character3D.regenerateStamina.
  destruct (negb (isDodging c) && _); cbn; split; reflexivity.
Qed.

(** Mana before the regeneration step of a frame is the mana the frame
    started with. *)
Lemma update_mana_before_regeneration f c :
  let c' := Character3D.regenerateStamina (delta f)
              (Character3D.updateMovement sqrt f
                 (Character3D.updateCooldowns (delta f) c)) in
  mana (stats c') = mana (stats c) /\ maxMana (stats c') = maxMana (stats c).
Proof.
  cbv zeta.
  destruct (regenerateStamina_mana (delta f)
              (Character3D.updateMovement sqrt f
                 (Character3D.updateCooldowns (delta f) c))) as [-> ->].
  destruct (updateMovement_mana f (Character3D.updateCooldowns (delta f) c))
    as [-> ->].
  split; reflexivity.
Qed.

End FrameUpdate.

(** C10.  Every frame adds [2 * delta] to the mana and caps the result
    at [maxMana], whatever the keys, the camera, the dodging and
    blocking flags and the outcome of the move; [maxMana] itself is not
    changed, so after the frame the mana is at most [maxMana]. *)
Theorem C10_update_regenerates_mana (sqrt : Q -> Q) (f : FrameInput)
    (c : Character3D) :
  let c' := Character3D.update sqrt f c in
  let raised := mana (stats c) + 2 * delta f in
  mana (stats c') =
    (if Math.gt raised (maxMana (stats c)) then maxMana (stats c) else raised) /\
  maxMana (stats c') = maxMana (stats c) /\
  mana (stats c') <= maxMana (stats c') /\
  (raised <= maxMana (stats c) -> mana (stats c') = mana (stats c) + 2 * delta f).
Proof.
  cbv zeta.
  destruct (update_mana_before_regeneration sqrt f c) as [Hm Hx].
  cbv zeta in Hm, Hx.
  unfold Character3D.update, Character3D.regenerateMana. cbv zeta.
  cbn [stats Character3D.withStats Character3D.withMana mana maxMana].
  rewrite Hm, Hx.
  destruct (Math.gt _ _) eqn:E.
  - apply Math_gt_iff in E. repeat split; try lra.
  - apply Math_gt_false in E. repeat split; try lra.
Qed.

(** ** Movement against colliders *)

Lemma checkCollision_same_colliders c1 c2 p :
  collisionObjects c1 = collisionObjects c2 ->
  Character3D.checkCollision c1 p = Character3D.checkCollision c2 p.
Proof. unfold Character3D.checkCollision. intros ->. reflexivity. Qed.

(** What "Apply movement" does to the position: the candidate when it
    is free, otherwise each axis moves iff its own slide is free. *)
Lemma applyMovement_position p c :
  let slideX := mkVector3 (x p) Character3D.restY (z (position c)) in
  let slideZ := mkVector3 (x (position c)) Character3D.restY (z p) in
  let c' := Character3D.applyMovement p c in
  (Character3D.checkCollision c p = false ->
     position c' = p /\ isWalking c' = true) /\
  (Character3D.checkCollision c p = true ->
     x (position c') =
       (if Character3D.checkCollision c slideX then x (position c) else x p) /\
     z (position c') =
       (if Character3D.checkCollision c slideZ then z (position c) else z p) /\
     y (position c') = y (position c) /\
     isWalking c' = isWalking c).
Proof.
  cbv zeta. unfold Character3D.applyMovement. split; intros H; rewrite H; cbn [negb].
  - split; reflexivity.
  - destruct (Character3D.checkCollision c (mkVector3 (x p) _ _)) eqn:EX;
      cbn [negb].
    + destruct (Character3D.checkCollision c (mkVector3 _ _ (z p))) eqn:EZ;
        cbn [negb]; repeat split.
    + rewrite (checkCollision_same_colliders
                 (Character3D.withPosition c
                    (mkVector3 (x (mkVector3 (x p) Character3D.restY (z (position c))))
                       (y (position c)) (z (position c))))
                 c) by reflexivity.
      destruct (Character3D.checkCollision c (mkVector3 _ _ (z p))) eqn:EZ;
        cbn [negb]; repeat split.
Qed.

Lemma regeneration_keeps_motion delta c :
  let c' := Character3D.regenerateMana delta
              (Character3D.regenerateStamina delta c) in
  position c' = position c /\ isWalking c' = isWalking c.
Proof.
  cbv zeta. unfold Character3D.regenerateMana, Character3D.regenerateStamina.
  destruct (negb (isDodging c) && _); split; reflexivity.
Qed.

Lemma regeneration_keeps_velocity delta c :
  currentVelocity (Character3D.regenerateMana delta
                     (Character3D.regenerateStamina delta c)) =
    currentVelocity c /\
  previousMoveVector (Character3D.regenerateMana delta
                        (Character3D.regenerateStamina delta c)) =
    previousMoveVector c.
Proof.
  unfold Character3D.regenerateMana, Character3D.regenerateStamina.
  destruct (negb (isDodging c) && _); split; reflexivity.
Qed.




(** ** Enemies in combat *)

Lemma Enemy_takeDamage_dead amount e :
  Enemy.isDead e = true -> Enemy.takeDamage amount e = e.
Proof. unfold Enemy.takeDamage. intros ->. reflexivity. Qed.

(** A living enemy loses [max 1 (amount - defense)] health, with no
    lower bound on the result. *)
Lemma Enemy_takeDamage_alive amount e :
  Enemy.isDead e = false ->
  Enemy.currentHealth (Enemy.takeDamage amount e) =
    Enemy.currentHealth e - Math.max 1 (amount - Enemy.defense e) /\
  Enemy.maxHealth (Enemy.takeDamage amount e) = Enemy.maxHealth e /\
  Enemy.isDead (Enemy.takeDamage amount e) =
    Math.le (Enemy.currentHealth e - Math.max 1 (amount - Enemy.defense e)) 0.
Proof.
  intros Hd. unfold Enemy.takeDamage. rewrite Hd. cbn.
  destruct (Math.le _ 0) eqn:E.
  - unfold Enemy.die. cbn. rewrite Hd. cbn. repeat split.
  - cbn. repeat split. exact Hd.
Qed.

(** Health at or below zero and death go together after a hit. *)
Lemma Enemy_takeDamage_dead_iff amount e :
  Enemy.isDead e = false ->
  (Enemy.isDead (Enemy.takeDamage amount e) = true <->
   Enemy.currentHealth (Enemy.takeDamage amount e) <= 0).
Proof.
  intros Hd. destruct (Enemy_takeDamage_alive amount e Hd) as (-> & _ & ->).
  apply Math_le_iff.
Qed.

(** The upper bound of the health survives every hit. *)
Lemma Enemy_takeDamage_upper amount e :
  Enemy.currentHealth e <= Enemy.maxHealth e ->
  Enemy.currentHealth (Enemy.takeDamage amount e) <=
    Enemy.maxHealth (Enemy.takeDamage amount e).
Proof.
  intros H. destruct (Enemy.isDead e) eqn:Hd.
  - rewrite Enemy_takeDamage_dead by exact Hd. exact H.
  - destruct (Enemy_takeDamage_alive amount e Hd) as (-> & -> & _).
    pose proof (Math_max_lb 1 (amount - Enemy.defense e)). lra.
Qed.

(** C5.  A goblin (30 health, defense 2) struck four times by the
    avatar's starting attack power of 10 loses 8 health per hit and ends
    dead at -2 health: the enemy's health is not clamped at 0, so the
    bound [0 <= currentHealth] fails for enemies.  One hit of 100 leaves
    it at -68. *)
Theorem C5_enemy_health_goes_negative :
  let hit := Enemy.takeDamage (attackPower Character3D.initialStats) in
  let e := hit (hit (hit (hit (Enemy.new Enemy.GOBLIN)))) in
  Enemy.currentHealth e = -2 /\
  Enemy.isDead e = true /\
  Math.lt (Enemy.currentHealth e) 0 = true /\
  Enemy.currentHealth (Enemy.takeDamage 100 (Enemy.new Enemy.GOBLIN)) = -68.
Proof. vm_compute. repeat split. Qed.

(** ** Dead combatants *)

Lemma gainExperience_experience amount c :
  let total := experience (stats c) + amount in
  experience (stats (Character3D.gainExperience amount c)) =
  if Math.ge total (experienceToNextLevel (stats c))
  then total - experienceToNextLevel (stats c) else total.
Proof.
  unfold Character3D.gainExperience. cbn.
  destruct (Math.ge _ _); reflexivity.
Qed.

(** C6.  A dead combatant is not a silent receiver.  An enemy is: once
    [isDead] is set, [takeDamage] changes nothing.  The avatar is not.
    Killed by a hit of 100 (health 0, [die] has run), it still gains
    experience: 10 experience is added, and 120 experience takes it to
    level 2 with attack power 12, defense 6 and its health back at
    110.  A further hit on it runs [die] again. *)
Theorem C6_dead_avatar_gains_experience :
  (Enemy.isDead deadGoblin = true /\
   Enemy.takeDamage 10 deadGoblin = deadGoblin) /\
  (currentHealth (stats deadAvatar) = 0 /\
   console deadAvatar = [CharacterDied] /\
   experience (stats deadAvatar) = 0 /\
   level (stats deadAvatar) = 1%Z /\
   attackPower (stats deadAvatar) = 10 /\
   defense (stats deadAvatar) = 5) /\
  experience (stats (Character3D.gainExperience 10 deadAvatar)) = 10 /\
  (let revived := Character3D.gainExperience 120 deadAvatar in
   level (stats revived) = 2%Z /\
   experience (stats revived) = 20 /\
   attackPower (stats revived) = 12 /\
   defense (stats revived) = 6 /\
   maxHealth (stats revived) = 110 /\
   currentHealth (stats revived) = 110) /\
  console (Character3D.takeDamage 10 deadAvatar)
    = [CharacterDied; CharacterDied].
Proof. vm_compute. repeat split. Qed.

(** ** Bosses *)

(** With [this.health] undefined the health ratio is NaN, and no
    threshold is at or above NaN. *)
Lemma Boss_checkPhaseTransition_undefined b :
  Boss.health b = JS.Undefined ->
  Boss.checkPhaseTransition b = b.
Proof.
  intros Hh. unfold Boss.checkPhaseTransition. rewrite Hh. cbv zeta.
  destruct (Boss.phaseTransitioning b || _); [reflexivity |].
  destruct (Nat.ltb _ _); [| reflexivity].
  destruct (Boss.phases b !! _); reflexivity.
Qed.

(** A frame, a hit or a timer firing on a boss without a health and
    without a pending timer: the phase fields and the console stay. *)
Lemma Boss_step_undefined b e :
  Boss.health b = JS.Undefined -> Boss.timers b = [] ->
  let b' := Boss.step b e in
  Boss.health b' = JS.Undefined /\ Boss.timers b' = [] /\
  Boss.currentPhase b' = Boss.currentPhase b /\
  Boss.phaseTransitioning b' = Boss.phaseTransitioning b /\
  Boss.phases b' = Boss.phases b /\
  Boss.console b' = Boss.console b.
Proof.
  intros Hh Ht. cbv zeta. destruct e as [deltaTime | amount |]; cbn [Boss.step].
  - unfold Boss.update. cbv zeta.
    rewrite Boss_checkPhaseTransition_undefined by exact Hh.
    cbn. repeat split; assumption.
  - cbn. repeat split; assumption.
  - unfold Boss.fireTimer. rewrite Ht. repeat split; assumption.
Qed.

Lemma Boss_run_undefined es : forall b,
  Boss.health b = JS.Undefined -> Boss.timers b = [] ->
  let b' := Boss.run b es in
  Boss.health b' = JS.Undefined /\ Boss.timers b' = [] /\
  Boss.currentPhase b' = Boss.currentPhase b /\
  Boss.phaseTransitioning b' = Boss.phaseTransitioning b /\
  Boss.phases b' = Boss.phases b /\
  Boss.console b' = Boss.console b.
Proof.
  induction es as [| e es IH]; intros b Hh Ht; [cbn; repeat split; assumption |].
  destruct (Boss_step_undefined b e Hh Ht) as (Hh1 & Ht1 & Hc1 & Hp1 & Hps1 & Hl1).
  destruct (IH (Boss.step b e) Hh1 Ht1) as (Hh2 & Ht2 & Hc2 & Hp2 & Hps2 & Hl2).
  cbn [Boss.run fold_left]. cbv zeta in Hh2, Ht2, Hc2, Hp2, Hps2, Hl2.
  unfold Boss.run in *.
  repeat split; congruence.
Qed.

(** Adding phases to a boss touches its phase list only. *)
Lemma Boss_addPhases ps : forall b,
  let b' := fold_left (fun b p => Boss.addPhase p b) ps b in
  Boss.health b' = Boss.health b /\ Boss.timers b' = Boss.timers b /\
  Boss.currentPhase b' = Boss.currentPhase b /\
  Boss.phaseTransitioning b' = Boss.phaseTransitioning b /\
  Boss.console b' = Boss.console b /\
  Boss.phases b' = Boss.phases b ++ ps.
Proof.
  induction ps as [| p ps IH]; intros b; cbn [fold_left].
  - rewrite app_nil_r. repeat split.
  - destruct (IH (Boss.addPhase p b)) as (H1 & H2 & H3 & H4 & H5 & H6).
    cbv zeta in *. rewrite H1, H2, H3, H4, H5, H6. cbn.
    rewrite <- app_assoc. repeat split.
Qed.

(** C7.  No boss goes through its phases.  Every [new Boss(...)], and
    so [new NecromancerBoss(position)], ends in a TypeError thrown by
    the constructor of Enemy, which is handed the scale vector where it
    expects the array of colliders.  The methods fare no better on an
    object that has the fields of an Enemy and those the constructor of
    Boss assigns: whatever phases are added to it, no sequence of
    frames, hits and timer firings starts a transition, since
    [this.health] is undefined and the health ratio is NaN; the phase
    index stays 0.  So a boss with phases at 100%, 70% and 30% that is
    brought from 80 health to 52 (65%) starts none where one transition
    to index 1 is expected, and none when it is brought on to 17 (21%).
    Had the constructor of NecromancerBoss returned, [setupBoss] would
    have run twice and left six phases, not three. *)
Theorem C7_boss_never_starts_a_transition :
  (forall setupBoss name modelPath position scale health attackPower defense,
     Boss.new setupBoss name modelPath position scale health attackPower defense
       = Boss.ThrowsTypeError "collisionObjects.filter is not a function") /\
  (forall position,
     NecromancerBoss.new position
       = Boss.ThrowsTypeError "collisionObjects.filter is not a function") /\
  (forall e ps events,
     let b0 := fold_left (fun b p => Boss.addPhase p b) ps (Boss.fields e) in
     let b := Boss.run b0 events in
     Boss.phases b0 = ps /\
     Boss.phases b = ps /\
     Boss.currentPhase b = 0%nat /\
     Boss.phaseTransitioning b = false /\
     Boss.timers b = [] /\
     Boss.transitionsStarted b = 0%nat /\
     Boss.health b = JS.Undefined) /\
  (let atTwoThirds :=
     Boss.run threePhaseBoss
       [Boss.Frame (1 # 60); Boss.TakeDamage 33; Boss.Frame (1 # 60);
        Boss.TimerFires; Boss.Frame (1 # 60)] in
   let b := Boss.run threePhaseBoss bossFight in
   map Boss.healthThreshold (Boss.phases threePhaseBoss) = [1; 7 # 10; 3 # 10] /\
   Enemy.currentHealth (Boss.self threePhaseBoss) = 80 /\
   Enemy.maxHealth (Boss.self threePhaseBoss) = 80 /\
   Enemy.currentHealth (Boss.self atTwoThirds) = 52 /\
   Boss.currentPhase atTwoThirds = 0%nat /\
   Boss.transitionsStarted atTwoThirds = 0%nat /\
   Boss.console atTwoThirds = [] /\
   Enemy.currentHealth (Boss.self b) = 17 /\
   Enemy.maxHealth (Boss.self b) = 80 /\
   Boss.currentPhase b = 0%nat /\
   Boss.transitionsStarted b = 0%nat /\
   Boss.console b = []) /\
  (forall e,
     map Boss.healthThreshold
       (Boss.phases
          (NecromancerBoss.setupBoss
             (NecromancerBoss.setupBoss (Boss.fields e))))
       = [1; 7 # 10; 3 # 10; 1; 7 # 10; 3 # 10]).
Proof.
  split; [reflexivity |]. split; [reflexivity |].
  split; [| split; [vm_compute; repeat split | reflexivity]].
  intros e ps events. cbv zeta.
  destruct (Boss_addPhases ps (Boss.fields e)) as (Hh & Ht & Hc & Hp & Hl & Hps).
  cbv zeta in Hh, Ht, Hc, Hp, Hl, Hps. cbn in Hh, Ht, Hc, Hp, Hl, Hps.
  destruct (Boss_run_undefined events _ Hh Ht) as (Hh' & Ht' & Hc' & Hp' & Hps' & Hl').
  cbv zeta in Hh', Ht', Hc', Hp', Hps', Hl'.
  split; [exact Hps |]. split; [congruence |]. split; [congruence |].
  split; [congruence |]. split; [exact Ht' |]. split; [| exact Hh'].
  unfold Boss.transitionsStarted. rewrite Hl', Hl. reflexivity.
Qed.

(** ** The quest store *)

(** A lookup finds an own entry first; without one it finds the
    inherited value, under the names of [Object.prototype] only. *)
Lemma QuestStore_get_own m k q :
  m !! k = Some q -> QuestStore.get m k = Some q.
Proof. unfold QuestStore.get. intros ->. reflexivity. Qed.

Lemma QuestStore_get_insert m k q :
  QuestStore.get (<[k := q]> m) k = Some q.
Proof. apply QuestStore_get_own, lookup_insert_eq. Qed.

Lemma QuestStore_get_insert_ne m k k' q :
  k <> k' -> QuestStore.get (<[k := q]> m) k' = QuestStore.get m k'.
Proof.
  intros Hne. unfold QuestStore.get.
  rewrite lookup_insert_ne by exact Hne. reflexivity.
Qed.

Lemma QuestStore_get_Some m k q :
  QuestStore.get m k = Some q ->
  m !! k = Some q \/
  (m !! k = None /\ JS.inheritsKey k = true /\ q = QuestStore.inheritedValue).
Proof.
  unfold QuestStore.get. destruct (m !! k) as [q0 |]; [left; assumption |].
  destruct (JS.inheritsKey k); [| discriminate].
  intros [= <-]. right. repeat split.
Qed.

Lemma QuestStore_get_None m k :
  QuestStore.get m k = None <-> m !! k = None /\ JS.inheritsKey k = false.
Proof.
  unfold QuestStore.get. destruct (m !! k) as [q0 |].
  - split; [discriminate | intros [? _]; discriminate].
  - destruct (JS.inheritsKey k); split; try discriminate; auto.
    intros [_ ?]; discriminate.
Qed.

(** [completeQuest] leaves a store alone when the lookup finds nothing
    or a quest that is already completed. *)
Lemma QuestStore_completeQuest_noop questId s :
  match QuestStore.get (QuestStore.quests s) questId with
  | Some quest => Quest.status quest = COMPLETED
  | None => True
  end ->
  QuestStore.completeQuest questId s = s.
Proof.
  unfold QuestStore.completeQuest.
  destruct (QuestStore.get (QuestStore.quests s) questId) as [quest |];
    [| reflexivity].
  intros ->. reflexivity.
Qed.

(** Called on a quest that is not yet completed, [completeQuest] marks
    it COMPLETED whatever its status was, and reveals the successor. *)
Lemma QuestStore_completeQuest_effect questId s quest :
  QuestStore.quests s !! questId = Some quest ->
  Quest.status quest <> COMPLETED ->
  let s' := QuestStore.completeQuest questId s in
  (forall next nextQuest,
     truthy (Quest.nextQuestId quest) = Some next -> next <> questId ->
     QuestStore.quests s !! next = Some nextQuest ->
     QuestStore.quests s' !! next = Some (Quest.withVisible nextQuest true) /\
     QuestStore.quests s' !! questId = Some (Quest.withStatus quest COMPLETED)) /\
  QuestStore.completedQuestIds s' = QuestStore.completedQuestIds s ++ [questId].
Proof.
  intros Hq Hst. cbv zeta. unfold QuestStore.completeQuest.
  rewrite (QuestStore_get_own _ _ _ Hq).
  destruct (decide (Quest.status quest = COMPLETED)) as [? | _]; [contradiction |].
  split; [| reflexivity].
  intros next nextQuest Hnext Hne Hn. rewrite Hnext.
  rewrite QuestStore_get_insert_ne by congruence.
  rewrite (QuestStore_get_own _ _ _ Hn). cbn.
  rewrite lookup_insert_eq. split; [reflexivity |].
  rewrite lookup_insert_ne by congruence. apply lookup_insert_eq.
Qed.

(** [updateObjective] writes at most the quest it is called for: the
    call to [completeQuest] at its end finds the quest COMPLETED
    already and returns at once, so no other quest, and in particular no
    successor, is touched, and the id lists stay as they were. *)
Lemma QuestStore_updateObjective_frame questId objectiveId progress s :
  let s' := QuestStore.updateObjective questId objectiveId progress s in
  (forall other, other <> questId ->
     QuestStore.quests s' !! other = QuestStore.quests s !! other) /\
  QuestStore.activeQuestIds s' = QuestStore.activeQuestIds s /\
  QuestStore.completedQuestIds s' = QuestStore.completedQuestIds s /\
  QuestStore.console s' = QuestStore.console s.
Proof.
  cbv zeta. unfold QuestStore.updateObjective.
  destruct (QuestStore.get (QuestStore.quests s) questId) as [quest |] eqn:Hq;
    [| repeat split].
  destruct (decide (Quest.status quest = IN_PROGRESS)); [| repeat split].
  destruct (list_find _ _) as [[i objective] |]; [| repeat split].
  destruct (Quest.allCompleted _) eqn:Hall.
  - rewrite QuestStore_completeQuest_noop.
    + cbn. repeat split. intros other Hne.
      rewrite lookup_insert_ne by congruence. reflexivity.
    + cbn [QuestStore.quests]. rewrite QuestStore_get_insert. reflexivity.
  - cbn. repeat split. intros other Hne.
    rewrite lookup_insert_ne by congruence. reflexivity.
Qed.

(** C2.  After [startQuest] and two [updateObjective] calls that
    complete both objectives of "goblin_slayer", the quest is COMPLETED,
    but its declared successor "cook_assistant" is still not visible,
    the quest is still listed as active and not as completed; and
    [completeQuest] on the NOT_STARTED "cook_assistant" goes through
    and marks it COMPLETED. *)
Theorem C2_autocomplete_does_not_reveal_successor :
  let s0 := QuestStore.initializeQuests QuestStore.empty in
  (Quest.status <$> QuestStore.quests afterGoblinSlayer !! "goblin_slayer")
    = Some COMPLETED /\
  (Quest.nextQuestId <$> QuestStore.quests afterGoblinSlayer !! "goblin_slayer")
    = Some (Some "cook_assistant") /\
  (Quest.isVisible <$> QuestStore.quests afterGoblinSlayer !! "cook_assistant")
    = Some false /\
  QuestStore.activeQuestIds afterGoblinSlayer = ["goblin_slayer"] /\
  QuestStore.completedQuestIds afterGoblinSlayer = [] /\
  (Quest.status <$> QuestStore.quests s0 !! "cook_assistant")
    = Some NOT_STARTED /\
  (Quest.status <$>
     QuestStore.quests (QuestStore.completeQuest "cook_assistant" s0)
       !! "cook_assistant") = Some COMPLETED.
Proof. vm_compute. repeat split. Qed.

(** [updateObjective] changes nothing unless the quest exists, is
    IN_PROGRESS and has the objective. *)
Lemma QuestStore_updateObjective_rejected questId objectiveId progress s :
  match QuestStore.quests s !! questId with
  | Some quest =>
      Quest.status quest <> IN_PROGRESS \/
      list_find (fun obj => QuestObjective.id obj = objectiveId)
                (Quest.objectives quest) = None
  | None => True
  end ->
  QuestStore.updateObjective questId objectiveId progress s = s.
Proof.
  unfold QuestStore.updateObjective, QuestStore.get.
  destruct (QuestStore.quests s !! questId) as [quest |].
  - destruct (decide (Quest.status quest = IN_PROGRESS)) as [Hs | Hs].
    + intros [Hn | ->]; [contradiction | reflexivity].
    + reflexivity.
  - destruct (JS.inheritsKey questId); reflexivity.
Qed.

Lemma allCompleted_spec os :
  Quest.allCompleted os = true <->
  forall o, o ∈ os -> QuestObjective.completed o = true.
Proof.
  unfold Quest.allCompleted. rewrite forallb_forall.
  split; intros H o Ho; apply H; apply list_elem_of_In; exact Ho.
Qed.

(** On an IN_PROGRESS quest with the objective, the store's
    [updateObjective] clamps the progress at [required], sets the
    objective's flag exactly when the count is reached, leaves the other
    objectives alone, and leaves the quest COMPLETED exactly when all
    of its objectives are completed. *)
Lemma QuestStore_updateObjective_spec questId objectiveId progress s quest i obj :
  QuestStore.quests s !! questId = Some quest ->
  Quest.status quest = IN_PROGRESS ->
  list_find (fun o => QuestObjective.id o = objectiveId)
            (Quest.objectives quest) = Some (i, obj) ->
  exists quest' obj',
    QuestStore.quests
      (QuestStore.updateObjective questId objectiveId progress s) !! questId
      = Some quest' /\
    Quest.objectives quest' !! i = Some obj' /\
    (forall j, j <> i ->
       Quest.objectives quest' !! j = Quest.objectives quest !! j) /\
    QuestObjective.id obj' = objectiveId /\
    QuestObjective.required obj' = QuestObjective.required obj /\
    QuestObjective.current obj' =
      Z.min (QuestObjective.current obj + progress) (QuestObjective.required obj) /\
    (QuestObjective.current obj' <= QuestObjective.required obj')%Z /\
    (QuestObjective.completed obj' = true <->
     (QuestObjective.required obj' <= QuestObjective.current obj')%Z) /\
    (Quest.status quest' = COMPLETED <->
     forall o, o ∈ Quest.objectives quest' -> QuestObjective.completed o = true) /\
    (Quest.status quest' = COMPLETED \/ Quest.status quest' = IN_PROGRESS).
Proof.
  intros Hq Hst Hfind.
  pose proof Hfind as Hfound. apply list_find_Some in Hfound as (Hi & Hid & _).
  pose proof (lookup_lt_Some _ _ _ Hi) as Hlen.
  set (obj' := QuestObjective.withProgress obj
                 (Z.min (QuestObjective.current obj + progress)
                        (QuestObjective.required obj))
                 (QuestObjective.required obj <=?
                  Z.min (QuestObjective.current obj + progress)
                        (QuestObjective.required obj))%Z).
  set (os' := <[i := obj']> (Quest.objectives quest)).
  set (quest' := Quest.withStatus (Quest.withObjectives quest os')
                   (if Quest.allCompleted os' then COMPLETED else IN_PROGRESS)).
  assert (Hres : QuestStore.quests
                   (QuestStore.updateObjective questId objectiveId progress s)
                   !! questId = Some quest').
  { unfold QuestStore.updateObjective. rewrite (QuestStore_get_own _ _ _ Hq).
    destruct (decide (Quest.status quest = IN_PROGRESS)); [| contradiction].
    rewrite Hfind. cbv zeta. fold obj'. fold os'. fold quest'.
    destruct (Quest.allCompleted os') eqn:Hall.
    - rewrite QuestStore_completeQuest_noop.
      + cbn. apply lookup_insert_eq.
      + cbn [QuestStore.quests]. rewrite QuestStore_get_insert. reflexivity.
    - cbn. apply lookup_insert_eq. }
  exists quest', obj'. split; [exact Hres |].
  split; [apply list_lookup_insert_eq; exact Hlen |].
  split; [intros j Hj; apply list_lookup_insert_ne; congruence |].
  split; [exact Hid |]. split; [reflexivity |]. split; [reflexivity |].
  split; [apply Z.le_min_r |]. split; [apply Z.leb_le |].
  split.
  - rewrite <- allCompleted_spec. unfold quest'.
    cbn [Quest.status Quest.withStatus Quest.objectives Quest.withObjectives].
    destruct (Quest.allCompleted os'); split; congruence.
  - unfold quest'. cbn [Quest.status Quest.withStatus]. destruct (Quest.allCompleted os'); [left | right]; reflexivity.
Qed.

(** ** The QuestSystem class *)

Lemma QuestSystem_updateObjectiveProgress_rejected questId objectiveId amount s :
  match QuestSystem.quests s !! questId with
  | Some quest =>
      Quest.status quest <> IN_PROGRESS \/
      list_find (fun obj => QuestObjective.id obj = objectiveId)
                (Quest.objectives quest) = None
  | None => True
  end ->
  QuestSystem.updateObjectiveProgress questId objectiveId amount s = (false, s).
Proof.
  unfold QuestSystem.updateObjectiveProgress.
  destruct (QuestSystem.quests s !! questId) as [quest |]; [| reflexivity].
  destruct (decide (Quest.status quest = IN_PROGRESS)) as [Hs | Hs].
  - intros [Hn | ->]; [contradiction | reflexivity].
  - reflexivity.
Qed.

(** The class's [completeQuest] refuses, returning [false], whenever the
    quest is missing or not IN_PROGRESS; a second completion is such a
    case. *)
Lemma QuestSystem_completeQuest_rejected questId s :
  match QuestSystem.quests s !! questId with
  | Some quest => Quest.status quest <> IN_PROGRESS
  | None => True
  end ->
  QuestSystem.completeQuest questId s = (false, s).
Proof.
  unfold QuestSystem.completeQuest.
  destruct (QuestSystem.quests s !! questId) as [quest |]; [| reflexivity].
  intros H. destruct (decide (Quest.status quest = IN_PROGRESS));
    [contradiction | reflexivity].
Qed.

(** C3.  In the [QuestSystem] class the progress is not clamped: with
    the delivery quest IN_PROGRESS, adding 3 to "collect_package"
    (required 1) succeeds and leaves the objective at 3 of 1, the quest
    still IN_PROGRESS; the town-defense objective (required 5) reaches
    7 the same way. *)
Theorem C3_updateObjectiveProgress_exceeds_required :
  fst afterThreePackages = true /\
  (Quest.status <$> QuestSystem.quests (snd afterThreePackages) !! "quest_delivery")
    = Some IN_PROGRESS /\
  (map (fun o => (QuestObjective.id o, QuestObjective.current o,
                  QuestObjective.required o, QuestObjective.completed o))
     <$> (Quest.objectives
            <$> QuestSystem.quests (snd afterThreePackages) !! "quest_delivery"))
    = Some [("collect_package", 3%Z, 1%Z, true);
            ("deliver_package", 0%Z, 1%Z, false)] /\
  (map (fun o => (QuestObjective.current o, QuestObjective.required o))
     <$> (Quest.objectives
            <$> QuestSystem.quests
                  (snd (QuestSystem.updateObjectiveProgress
                          "quest_town_defense" "kill_goblins" 7
                          (snd (QuestSystem.acceptQuest "quest_town_defense"
                                  QuestSystem.new))))
                  !! "quest_town_defense"))
    = Some [(7%Z, 5%Z)].
Proof. vm_compute. repeat split. Qed.

(** ** The cutscene store *)

(** [skipCutscene] without an active cutscene, with an unknown one or
    with one that is not skippable changes nothing. *)
Lemma skipCutscene_rejected s :
  match truthy (CutsceneStore.activeCutsceneId s) with
  | Some active =>
      match CutsceneStore.cutscenes s !! active with
      | Some cutscene => Cutscene.skippable cutscene = false
      | None => True
      end
  | None => True
  end ->
  CutsceneStore.skipCutscene s = s.
Proof.
  unfold CutsceneStore.skipCutscene, CutsceneStore.get.
  destruct (truthy (CutsceneStore.activeCutsceneId s)) as [active |];
    [| reflexivity].
  destruct (CutsceneStore.cutscenes s !! active) as [cutscene |].
  - intros ->. reflexivity.
  - destruct (JS.inheritsKey active); reflexivity.
Qed.

(** [nextDialogue] on a node that presents choices changes nothing. *)
Lemma nextDialogue_with_choices s node :
  CutsceneStore.getCurrentDialogue s = Some node ->
  CutsceneStore.presentsChoices node = true ->
  CutsceneStore.nextDialogue s = s.
Proof.
  unfold CutsceneStore.nextDialogue. intros -> ->. reflexivity.
Qed.

(** Whatever the index, when the current node has no option there the
    store is left as it was. *)
Lemma selectDialogueOption_state optionIndex s :
  match CutsceneStore.getCurrentDialogue s with
  | Some node =>
      match DialogueNode.options node with
      | Some options => CutsceneStore.at_index options optionIndex = None
      | None => True
      end
  | None => True
  end ->
  CutsceneStore.stateOf (CutsceneStore.selectDialogueOption optionIndex s) = s.
Proof.
  unfold CutsceneStore.selectDialogueOption.
  destruct (CutsceneStore.getCurrentDialogue s) as [node |]; [| reflexivity].
  destruct (DialogueNode.options node) as [options |]; [| reflexivity].
  intros ->. destruct (_ <=? _)%Z; reflexivity.
Qed.

(** An index at or past the end of the options is turned away by the
    guard: the action returns without a change. *)
Lemma selectDialogueOption_past_end optionIndex s node options :
  CutsceneStore.getCurrentDialogue s = Some node ->
  DialogueNode.options node = Some options ->
  (Z.of_nat (length options) <= optionIndex)%Z ->
  CutsceneStore.selectDialogueOption optionIndex s = CutsceneStore.Returns s.
Proof.
  unfold CutsceneStore.selectDialogueOption. intros -> -> H.
  apply Z.leb_le in H. rewrite H. reflexivity.
Qed.

(** A node without an options list, or no current node at all. *)
Lemma selectDialogueOption_no_options optionIndex s :
  match CutsceneStore.getCurrentDialogue s with
  | Some node => DialogueNode.options node = None
  | None => True
  end ->
  CutsceneStore.selectDialogueOption optionIndex s = CutsceneStore.Returns s.
Proof.
  unfold CutsceneStore.selectDialogueOption.
  destruct (CutsceneStore.getCurrentDialogue s) as [node |]; [| reflexivity].
  intros ->. reflexivity.
Qed.

(** A negative index passes the guard; no option is found there and
    reading its [action] throws. *)
Lemma selectDialogueOption_negative optionIndex s node options :
  CutsceneStore.getCurrentDialogue s = Some node ->
  DialogueNode.options node = Some options ->
  (optionIndex < 0)%Z ->
  CutsceneStore.selectDialogueOption optionIndex s =
  CutsceneStore.ThrowsTypeError s.
Proof.
  unfold CutsceneStore.selectDialogueOption, CutsceneStore.at_index.
  intros -> -> H.
  destruct (_ <=? _)%Z eqn:E; [apply Z.leb_le in E; lia |].
  apply Z.ltb_lt in H. rewrite H. reflexivity.
Qed.

(** C9.  At the guard's question of the prologue (two options),
    [selectDialogueOption(2)] returns and changes nothing, and so does
    [nextDialogue()]; but [selectDialogueOption(-1)], an index with no
    option either, does not return: it throws a TypeError (the store
    is still unchanged). *)
Theorem C9_selectDialogueOption_negative_index_throws :
  (DialogueNode.id <$> CutsceneStore.getCurrentDialogue atGuardQuestion)
    = Some "intro4" /\
  CutsceneStore.selectDialogueOption 2 atGuardQuestion
    = CutsceneStore.Returns atGuardQuestion /\
  CutsceneStore.nextDialogue atGuardQuestion = atGuardQuestion /\
  CutsceneStore.selectDialogueOption (-1) atGuardQuestion
    = CutsceneStore.ThrowsTypeError atGuardQuestion.
Proof.
  assert (Hnode : exists node options,
            CutsceneStore.getCurrentDialogue atGuardQuestion = Some node /\
            DialogueNode.id node = "intro4" /\
            DialogueNode.options node = Some options /\
            length options = 2%nat).
  { eexists _, _. vm_compute. repeat split. }
  destruct Hnode as (node & options & Hcur & Hid & Hopts & Hlen).
  split; [rewrite Hcur, <- Hid; reflexivity |].
  split; [| split].
  - apply (selectDialogueOption_past_end 2 _ node options Hcur Hopts).
    rewrite Hlen. reflexivity.
  - apply (nextDialogue_with_choices _ node Hcur).
    unfold CutsceneStore.presentsChoices. rewrite Hopts.
    destruct options; [discriminate | reflexivity].
  - apply (selectDialogueOption_negative (-1) _ node options Hcur Hopts).
    reflexivity.
Qed.

(** * Further properties of the modelled code *)

(** ** The avatar's stats *)

(** X1.  Along any sequence of hits with positive amounts, an avatar
    that starts with its health within [0, maxHealth] keeps it there,
    and [maxHealth] itself is never changed by damage. *)
Theorem X1_avatar_health_stays_in_range (amounts : list Q) (c : Character3D) :
  0 <= currentHealth (stats c) <= maxHealth (stats c) ->
  Forall (fun a => 0 < a) amounts ->
  let c' := fold_left (fun c a => Character3D.takeDamage a c) amounts c in
  0 <= currentHealth (stats c') <= maxHealth (stats c') /\
  maxHealth (stats c') = maxHealth (stats c).
Proof.
  intros Hc Hpos. cbv zeta.
  split; [apply takeDamage_sequence_bounds; assumption |].
  clear Hc Hpos. revert c.
  induction amounts as [| a amounts IH]; intros c; [reflexivity |].
  cbn. rewrite IH.
  destruct (takeDamage_other_stats a c) as (H & _). exact H.
Qed.

Lemma X1_avatar_health_stays_in_range_witness :
  let c' := fold_left (fun c a => Character3D.takeDamage a c)
              [20; 30; 100] (Character3D.new []) in
  0 <= currentHealth (stats c') <= maxHealth (stats c') /\
  maxHealth (stats c') = 100.
Proof.
  apply (X1_avatar_health_stays_in_range [20; 30; 100] (Character3D.new [])).
  - split; unfold Qle; cbn; lia.
  - repeat constructor.
Defined.

(** X2.  Blocking and hits of at least 1: with a non-negative defense
    the avatar is left with at least as much health when it blocks the
    hit as when it does not.  And whatever the amount, a blocked hit
    costs at least 1 health unless it brings the health to 0. *)
Theorem X2_blocking_reduces_damage (c : Character3D) (amount : Q) :
  0 <= defense (stats c) ->
  1 <= amount ->
  currentHealth
    (stats (Character3D.takeDamage amount (Character3D.withBlocking c false)))
  <= currentHealth
       (stats (Character3D.takeDamage amount (Character3D.withBlocking c true))) /\
  (forall any,
     let after :=
       currentHealth
         (stats (Character3D.takeDamage any (Character3D.withBlocking c true))) in
     after == 0 \/ after <= currentHealth (stats c) - 1).
Proof.
  intros Hd Ha. split.
  - rewrite !takeDamage_stats. cbv zeta.
    cbn [isBlocking Character3D.withBlocking stats currentHealth
         Character3D.withHealth defense].
    unfold Math.max.
    destruct (Math.lt 1 (amount - defense (stats c))) eqn:E1;
      [apply Math_lt_iff in E1 | apply Math_lt_false in E1];
      destruct (Math.le (currentHealth (stats c) - amount) 0) eqn:E2;
      [apply Math_le_iff in E2 | apply Math_le_false in E2
      | apply Math_le_iff in E2 | apply Math_le_false in E2];
      match goal with
      | |- context [Math.le ?x 0] =>
          destruct (Math.le x 0) eqn:E3;
          [apply Math_le_iff in E3 | apply Math_le_false in E3]
      end; lra.
  - intros any. cbv zeta. rewrite takeDamage_stats. cbv zeta.
    cbn [isBlocking Character3D.withBlocking stats currentHealth
         Character3D.withHealth defense].
    pose proof (Math_max_lb 1 (any - defense (stats c))) as [Hm _].
    destruct (Math.le _ 0) eqn:E; [left; reflexivity | right; lra].
Qed.

Lemma X2_blocking_reduces_damage_witness :
  let c := Character3D.new [] in
  0 <= defense (stats c) /\ 1 <= 3 /\
  currentHealth
    (stats (Character3D.takeDamage 3 (Character3D.withBlocking c false)))
  <= currentHealth
       (stats (Character3D.takeDamage 3 (Character3D.withBlocking c true))).
Proof.
  cbv zeta.
  assert (Hd : 0 <= defense (stats (Character3D.new [])))
    by (unfold Qle; cbn; lia).
  assert (Ha : 1 <= 3) by (unfold Qle; cbn; lia).
  split; [exact Hd |]. split; [exact Ha |].
  exact (proj1 (X2_blocking_reduces_damage (Character3D.new []) 3 Hd Ha)).
Defined.

(** ** Experience over several calls *)

Lemma floor_three_halves t :
  2 <= t -> t <= Math.floor (t * (3 # 2)) /\ 2 <= Math.floor (t * (3 # 2)).
Proof.
  intros Ht. unfold Math.floor.
  pose proof (Qlt_floor (t * (3 # 2))) as Hlt.
  rewrite inject_Z_plus in Hlt.
  change (inject_Z 1) with 1 in Hlt. split; lra.
Qed.

Lemma gainExperience_step amount c :
  2 <= experienceToNextLevel (stats c) ->
  let s := stats c in
  let s' := stats (Character3D.gainExperience amount c) in
  (level s <= level s' <= level s + 1)%Z /\
  experienceToNextLevel s <= experienceToNextLevel s' /\
  2 <= experienceToNextLevel s' /\
  maxHealth s <= maxHealth s' /\ maxStamina s <= maxStamina s' /\
  maxMana s <= maxMana s' /\ attackPower s <= attackPower s' /\
  defense s <= defense s'.
Proof.
  intros Ht. cbv zeta. unfold Character3D.gainExperience. cbn.
  destruct (Math.ge _ _); cbn.
  - destruct (floor_three_halves _ Ht) as [H1 H2].
    repeat split; try lia; try lra.
  - repeat split; try lia; lra.
Qed.

(** X3.  Over any sequence of [gainExperience] calls, starting from a
    threshold of at least 2 (it starts at 100): the level never drops
    and rises by at most one per call, and the threshold, the three
    maximum pools, the attack power and the defense never decrease. *)
Theorem X3_experience_never_lowers_stats (amounts : list Q) (c : Character3D) :
  2 <= experienceToNextLevel (stats c) ->
  let s := stats c in
  let s' := stats (fold_left (fun c a => Character3D.gainExperience a c)
                     amounts c) in
  (level s <= level s' <= level s + Z.of_nat (length amounts))%Z /\
  experienceToNextLevel s <= experienceToNextLevel s' /\
  maxHealth s <= maxHealth s' /\ maxStamina s <= maxStamina s' /\
  maxMana s <= maxMana s' /\ attackPower s <= attackPower s' /\
  defense s <= defense s'.
Proof.
  cbv zeta. revert c.
  induction amounts as [| a amounts IH]; intros c Ht.
  - cbn. repeat split; try lia; lra.
  - destruct (gainExperience_step a c Ht)
      as (Hl & Ht1 & Ht2 & Hh & Hs & Hm & Ha & Hd).
    cbv zeta in Hl, Ht1, Ht2, Hh, Hs, Hm, Ha, Hd.
    destruct (IH (Character3D.gainExperience a c) Ht2)
      as (Hl' & Ht' & Hh' & Hs' & Hm' & Ha' & Hd').
    cbn [fold_left length]. rewrite Nat2Z.inj_succ.
    repeat split; try lia; lra.
Qed.

Lemma X3_experience_never_lowers_stats_witness :
  let c' := fold_left (fun c a => Character3D.gainExperience a c)
              [250; 0; 40] (Character3D.new []) in
  (1 <= level (stats c') <= 1 + 3)%Z /\
  100 <= experienceToNextLevel (stats c') /\
  100 <= maxHealth (stats c').
Proof.
  cbv zeta.
  destruct (X3_experience_never_lowers_stats [250; 0; 40] (Character3D.new []))
    as (Hl & Ht & Hh & _).
  - unfold Qle; cbn; lia.
  - split; [exact Hl |]. split; [exact Ht | exact Hh].
Defined.

(** ** What a frame does to the stats *)

Lemma accelerate_stats sqrt f c :
  stats (Character3D.accelerate sqrt f c) =
  if negb (isDodging c) && Math.gt (stamina (stats c)) 0
  then Character3D.withStamina (stats c)
         (let st := stamina (stats c) - Character3D.directMoveSpeed * 5 * delta f in
          if Math.lt st 0 then 0 else st)
  else stats c.
Proof.
  unfold Character3D.accelerate. cbn.
  destruct (negb (isDodging c) && Math.gt (stamina (stats c)) 0); reflexivity.
Qed.

(** The stats after the movement part of a frame: untouched, or with
    the stamina cost of moving taken off. *)
Lemma updateMovement_stats sqrt f c :
  stats (Character3D.updateMovement sqrt f c) = stats c \/
  (isDodging c = false /\ 0 < stamina (stats c) /\
   stats (Character3D.updateMovement sqrt f c) =
   Character3D.withStamina (stats c)
     (let st := stamina (stats c) - Character3D.directMoveSpeed * 5 * delta f in
      if Math.lt st 0 then 0 else st)).
Proof.
  unfold Character3D.updateMovement. cbv zeta.
  destruct (Character3D.hasInput f).
  - destruct (Math.gt _ 0); [| left; reflexivity].
    destruct (applyMovement_frame
                (Character3D.candidatePosition
                   (Character3D.accelerate sqrt f
                      (Character3D.withPosition c
                         (THREE.setY (position c) Character3D.restY))))
                (Character3D.accelerate sqrt f
                   (Character3D.withPosition c
                      (THREE.setY (position c) Character3D.restY)))) as [-> _].
    rewrite accelerate_stats.
    cbn [isDodging stats Character3D.withPosition].
    destruct (isDodging c); cbn [negb andb]; [left; reflexivity |].
    destruct (Math.gt (stamina (stats c)) 0) eqn:E; [| left; reflexivity].
    apply Math_gt_iff in E. right. repeat split. exact E.
  - destruct (decelerate_frame
                (Character3D.withPosition c
                   (THREE.setY (position c) Character3D.restY))) as [-> _].
    left. reflexivity.
Qed.

Lemma updateMovement_isDodging sqrt f c :
  isDodging (Character3D.updateMovement sqrt f c) = isDodging c /\
  isBlocking (Character3D.updateMovement sqrt f c) = isBlocking c /\
  isAttacking (Character3D.updateMovement sqrt f c) = isAttacking c /\
  console (Character3D.updateMovement sqrt f c) = console c.
Proof.
  unfold Character3D.updateMovement, Character3D.applyMovement,
    Character3D.decelerate, Character3D.accelerate,
    Character3D.checkCollision. cbv zeta.
  destruct (Character3D.hasInput f).
  - destruct (Math.gt _ 0); [| repeat split].
    cbn. break_ifs; cbn; repeat split.
  - cbn. break_ifs; cbn; repeat split.
Qed.

(** X4.  A frame with a non-negative delta keeps the stamina within
    [0, maxStamina] and leaves [maxStamina] alone, whatever the keys,
    the camera and the colliders. *)
Theorem X4_update_keeps_stamina_in_range (sqrt : Q -> Q) (f : FrameInput)
    (c : Character3D) :
  0 <= delta f ->
  0 <= stamina (stats c) <= maxStamina (stats c) ->
  let c' := Character3D.update sqrt f c in
  0 <= stamina (stats c') <= maxStamina (stats c') /\
  maxStamina (stats c') = maxStamina (stats c).
Proof.
  intros Hd Hs. cbv zeta.
  unfold Character3D.update, Character3D.regenerateMana. cbv zeta.
  cbn [stats Character3D.withStats Character3D.withMana stamina maxStamina].
  set (c1 := Character3D.updateMovement sqrt f
               (Character3D.updateCooldowns (delta f) c)).
  assert (H1 : 0 <= stamina (stats c1) <= maxStamina (stats c1) /\
               maxStamina (stats c1) = maxStamina (stats c)).
  { destruct (updateMovement_stats sqrt f
                (Character3D.updateCooldowns (delta f) c))
      as [E | (_ & Hpos & E)]; fold c1 in E; rewrite E.
    - cbn. split; [exact Hs | reflexivity].
    - cbn in Hpos |- *. unfold Character3D.directMoveSpeed.
      destruct (Math.lt _ 0) eqn:El;
        [apply Math_lt_iff in El | apply Math_lt_false in El];
        unfold Character3D.directMoveSpeed in El;
        (split; [| reflexivity]); lra. }
  destruct H1 as (Hb & Hmax).
  unfold Character3D.regenerateStamina.
  destruct (negb (isDodging c1) && _).
  - cbn. destruct (Math.gt _ _) eqn:Eg;
      [apply Math_gt_iff in Eg | apply Math_gt_false in Eg];
      (split; [| exact Hmax]); lra.
  - split; [exact Hb | exact Hmax].
Qed.

Lemma X4_update_keeps_stamina_in_range_witness :
  let c' := Character3D.update sqrtOfSquare frameForward
              (Character3D.new [wallAhead]) in
  0 <= stamina (stats c') <= maxStamina (stats c') /\
  maxStamina (stats c') = 100.
Proof.
  apply (X4_update_keeps_stamina_in_range sqrtOfSquare frameForward
           (Character3D.new [wallAhead])).
  - unfold Qle; cbn; lia.
  - split; unfold Qle; cbn; lia.
Defined.

(** X5.  A frame never touches the combat stats: health, maximum
    health, level, experience, threshold, attack power and defense are
    after [update] what they were before, and so are the blocking,
    dodging and attacking flags, the colliders and the console. *)
Theorem X5_update_leaves_combat_stats (sqrt : Q -> Q) (f : FrameInput)
    (c : Character3D) :
  let s := stats c in
  let c' := Character3D.update sqrt f c in
  let s' := stats c' in
  currentHealth s' = currentHealth s /\ maxHealth s' = maxHealth s /\
  level s' = level s /\ experience s' = experience s /\
  experienceToNextLevel s' = experienceToNextLevel s /\
  attackPower s' = attackPower s /\ defense s' = defense s /\
  isBlocking c' = isBlocking c /\ isDodging c' = isDodging c /\
  isAttacking c' = isAttacking c /\
  collisionObjects c' = collisionObjects c /\ console c' = console c.
Proof.
  cbv zeta.
  unfold Character3D.update, Character3D.regenerateMana. cbv zeta.
  set (c1 := Character3D.updateMovement sqrt f
               (Character3D.updateCooldowns (delta f) c)).
  assert (Hs : stats c1 = stats c \/
               exists v, stats c1 = Character3D.withStamina (stats c) v).
  { destruct (updateMovement_stats sqrt f
                (Character3D.updateCooldowns (delta f) c))
      as [E | (_ & _ & E)]; fold c1 in E; [left; exact E | right].
    eexists. exact E. }
  destruct (updateMovement_isDodging sqrt f
              (Character3D.updateCooldowns (delta f) c))
    as (Hdg & Hbl & Hat & Hco). fold c1 in Hdg, Hbl, Hat, Hco.
  assert (Hcol : collisionObjects c1 = collisionObjects c).
  { unfold c1, Character3D.updateMovement. cbv zeta.
    destruct (Character3D.hasInput f).
    - destruct (Math.gt _ 0); [| reflexivity].
      destruct (applyMovement_frame
                  (Character3D.candidatePosition
                     (Character3D.accelerate sqrt f
                        (Character3D.withPosition
                           (Character3D.updateCooldowns (delta f) c)
                           (THREE.setY
                              (position (Character3D.updateCooldowns (delta f) c))
                              Character3D.restY))))
                  (Character3D.accelerate sqrt f
                     (Character3D.withPosition
                        (Character3D.updateCooldowns (delta f) c)
                        (THREE.setY
                           (position (Character3D.updateCooldowns (delta f) c))
                           Character3D.restY)))) as [_ ->].
      destruct (accelerate_frame sqrt f
                  (Character3D.withPosition
                     (Character3D.updateCooldowns (delta f) c)
                     (THREE.setY
                        (position (Character3D.updateCooldowns (delta f) c))
                        Character3D.restY))) as (_ & _ & _ & ->).
      reflexivity.
    - destruct (decelerate_frame
                  (Character3D.withPosition
                     (Character3D.updateCooldowns (delta f) c)
                     (THREE.setY
                        (position (Character3D.updateCooldowns (delta f) c))
                        Character3D.restY))) as [_ ->].
      reflexivity. }
  unfold Character3D.regenerateStamina.
  destruct (negb (isDodging c1) && _); cbn;
    rewrite ?Hdg, ?Hbl, ?Hat, ?Hco, ?Hcol;
    destruct Hs as [-> | [v ->]]; cbn; repeat split.
Qed.

(** ** Where a frame leaves the avatar *)

Lemma Vector3_eq (a b : Vector3) :
  x a = x b -> y a = y b -> z a = z b -> a = b.
Proof. destruct a, b. cbn. intros -> -> ->. reflexivity. Qed.

(** X6.  Cutting a corner: in a frame with keys held, when the full
    move collides but the X-only and the Z-only slide are both free,
    both slides are applied and the avatar ends exactly at the
    candidate position, that is, with its box overlapping a collider. *)
Theorem X6_both_slides_reach_the_blocked_candidate (sqrt : Q -> Q)
    (f : FrameInput) (c : Character3D) :
  let start := THREE.setY (position c) Character3D.restY in
  let moving :=
    Character3D.accelerate sqrt f
      (Character3D.withPosition (Character3D.updateCooldowns (delta f) c) start) in
  let candidate := Character3D.candidatePosition moving in
  let c' := Character3D.update sqrt f c in
  Character3D.hasInput f = true ->
  Math.gt (THREE.length sqrt (Character3D.rawMoveVector sqrt f)) 0 = true ->
  Character3D.checkCollision c candidate = true ->
  Character3D.checkCollision c
    (mkVector3 (x candidate) Character3D.restY (z start)) = false ->
  Character3D.checkCollision c
    (mkVector3 (x start) Character3D.restY (z candidate)) = false ->
  position c' = candidate /\
  exists o, In o (collisionObjects c) /\
            overlaps (Character3D.characterBoundingBox (position c')) o.
Proof.
  cbv zeta. intros Hin Hlen Hhit HX HZ.
  set (start := THREE.setY (position c) Character3D.restY) in *.
  set (c0 := Character3D.withPosition
               (Character3D.updateCooldowns (delta f) c) start) in *.
  set (moving := Character3D.accelerate sqrt f c0) in *.
  set (candidate := Character3D.candidatePosition moving) in *.
  assert (Hupd : Character3D.updateMovement sqrt f
                   (Character3D.updateCooldowns (delta f) c) =
                 Character3D.applyMovement candidate moving).
  { unfold Character3D.updateMovement. cbv zeta. rewrite Hin, Hlen. reflexivity. }
  destruct (accelerate_frame sqrt f c0) as (_ & _ & Hpos & Hcol).
  fold moving in Hpos, Hcol.
  assert (Hcols : collisionObjects moving = collisionObjects c)
    by (rewrite Hcol; reflexivity).
  assert (Hstart : position moving = start) by (rewrite Hpos; reflexivity).
  destruct (regeneration_keeps_motion (delta f)
              (Character3D.updateMovement sqrt f
                 (Character3D.updateCooldowns (delta f) c))) as [Rp _].
  assert (Hfinal : position (Character3D.update sqrt f c) = candidate).
  { unfold Character3D.update. cbv zeta. rewrite Rp, Hupd.
    destruct (applyMovement_position candidate moving) as [_ Hslide].
    rewrite Hstart in Hslide.
    repeat rewrite (checkCollision_same_colliders moving c _ Hcols) in Hslide.
    destruct (Hslide Hhit) as (Ex & Ez & Ey & _).
    rewrite HX in Ex. rewrite HZ in Ez.
    apply Vector3_eq; [exact Ex | rewrite Ey; reflexivity | exact Ez]. }
  split; [exact Hfinal |].
  rewrite Hfinal. apply checkCollision_spec. exact Hhit.
Qed.

Lemma X6_both_slides_reach_the_blocked_candidate_witness :
  let c := Character3D.new [pillarAtCorner] in
  let c' := Character3D.update sqrtOfSquare frameDiagonal c in
  Character3D.checkCollision c (position c) = false /\
  Character3D.checkCollision c (position c') = true /\
  exists o, In o (collisionObjects c) /\
            overlaps (Character3D.characterBoundingBox (position c')) o.
Proof.
  cbv zeta.
  destruct (X6_both_slides_reach_the_blocked_candidate sqrtOfSquare
              frameDiagonal (Character3D.new [pillarAtCorner]))
    as (Hpos & Hov); try (vm_compute; reflexivity).
  split; [vm_compute; reflexivity |].
  split; [| exact Hov].
  apply checkCollision_spec. exact Hov.
Defined.

(** X7.  With no movement key held, a frame either lets the avatar
    coast to a position free of collisions (at 0.95 of its velocity) or
    leaves it where it stood with its velocity set to zero; it never
    slides, and the smoothed direction is reset. *)
Theorem X7_coasting_never_enters_a_collider (sqrt : Q -> Q) (f : FrameInput)
    (c : Character3D) :
  Character3D.hasInput f = false ->
  let start := THREE.setY (position c) Character3D.restY in
  let slowed := THREE.multiplyScalar (currentVelocity c) (95 # 100) in
  let c' := Character3D.update sqrt f c in
  previousMoveVector c' = THREE.zero /\
  ((Character3D.checkCollision c (position c') = false /\
    currentVelocity c' = slowed /\
    position c' = THREE.setY (THREE.add start slowed) Character3D.restY) \/
   (position c' = start /\ currentVelocity c' = THREE.zero)).
Proof.
  intros Hin. cbv zeta.
  destruct (regeneration_keeps_motion (delta f)
              (Character3D.updateMovement sqrt f
                 (Character3D.updateCooldowns (delta f) c))) as [Rp _].
  destruct (regeneration_keeps_velocity (delta f)
              (Character3D.updateMovement sqrt f
                 (Character3D.updateCooldowns (delta f) c))) as [Rv Rm].
  unfold Character3D.update. cbv zeta. rewrite Rp, Rv, Rm.
  unfold Character3D.updateMovement. cbv zeta. rewrite Hin.
  unfold Character3D.decelerate. cbv zeta.
  cbn [currentVelocity Character3D.withPosition Character3D.updateCooldowns
       Character3D.withCooldowns position].
  destruct (Math.gt _ (1 # 100000)).
  - unfold Character3D.candidatePosition.
    cbn [currentVelocity position Character3D.withVelocity
         Character3D.withPosition].
    match goal with
    | |- context [negb (Character3D.checkCollision ?a ?p)] =>
        rewrite (checkCollision_same_colliders a c p) by reflexivity;
        destruct (Character3D.checkCollision c p) eqn:E
    end; cbn [negb].
    + split; [reflexivity |]. right. split; reflexivity.
    + split; [reflexivity |]. left. cbn. repeat split. exact E.
  - split; [reflexivity |]. right. split; reflexivity.
Qed.

Lemma X7_coasting_never_enters_a_collider_witness :
  let c := Character3D.withVelocity (Character3D.new [wallAhead])
             (mkVector3 0 0 (-1)) in
  let c' := Character3D.update sqrtOfSquare frameIdle c in
  Character3D.hasInput frameIdle = false /\
  previousMoveVector c' = THREE.zero /\
  Character3D.checkCollision c
    (THREE.setY (THREE.add (position c)
                   (THREE.multiplyScalar (currentVelocity c) (95 # 100)))
                Character3D.restY) = true /\
  position c' = THREE.setY (position c) Character3D.restY /\
  currentVelocity c' = THREE.zero.
Proof.
  cbv zeta.
  destruct (X7_coasting_never_enters_a_collider sqrtOfSquare frameIdle
              (Character3D.withVelocity (Character3D.new [wallAhead])
                 (mkVector3 0 0 (-1))) eq_refl) as (Hprev & Hcase).
  split; [reflexivity |]. split; [exact Hprev |].
  split; [vm_compute; reflexivity |].
  destruct Hcase as [(Hfree & _ & Hpos) | (Hpos & Hvel)].
  - exfalso. rewrite Hpos in Hfree. vm_compute in Hfree. discriminate Hfree.
  - split; [exact Hpos | exact Hvel].
Defined.

(** ** The attack cooldown across frames *)






(** ** Enemies over several calls *)

Lemma Enemy_die_dead e : Enemy.isDead (Enemy.die e) = true.
Proof. unfold Enemy.die. destruct (Enemy.isDead e) eqn:E; [exact E | reflexivity]. Qed.

Lemma Enemy_takeDamage_stays_dead amount e :
  Enemy.isDead e = true -> Enemy.isDead (Enemy.takeDamage amount e) = true.
Proof. intros H. rewrite Enemy_takeDamage_dead by exact H. exact H. Qed.

Lemma Enemy_hits_stay_dead hits :
  forall e, Enemy.isDead e = true ->
  fold_left (fun e a => Enemy.takeDamage a e) hits e = e.
Proof.
  induction hits as [| a hits IH]; intros e H; [reflexivity |].
  cbn. rewrite Enemy_takeDamage_dead by exact H. apply IH, H.
Qed.

(** X9.  The floor of 1 damage makes every enemy mortal: whatever the
    amounts (even zero or negative) and whatever its defense, an enemy
    whose health is at most the number of hits (at least one) is dead
    after them. *)
Theorem X9_enemy_dies_within_health_many_hits (hits : list Q) (e : Enemy.t) :
  hits <> [] ->
  Enemy.currentHealth e <= inject_Z (Z.of_nat (length hits)) ->
  Enemy.isDead (fold_left (fun e a => Enemy.takeDamage a e) hits e) = true.
Proof.
  revert e. induction hits as [| a hits IH]; intros e Hne Hh; [contradiction |].
  cbn [fold_left].
  destruct (Enemy.isDead e) eqn:Hd.
  - rewrite Enemy_takeDamage_dead by exact Hd.
    rewrite Enemy_hits_stay_dead by exact Hd. exact Hd.
  - destruct (Enemy_takeDamage_alive a e Hd) as (Hc & _ & Hdead).
    destruct (Enemy.isDead (Enemy.takeDamage a e)) eqn:Hd'.
    + rewrite Enemy_hits_stay_dead by exact Hd'. exact Hd'.
    + symmetry in Hdead. apply Math_le_false in Hdead.
      pose proof (Math_max_lb 1 (a - Enemy.defense e)) as [Hm _].
      cbn [length] in Hh. rewrite Nat2Z.inj_succ, <- Z.add_1_r in Hh.
      rewrite inject_Z_plus in Hh. change (inject_Z 1) with 1 in Hh.
      apply IH.
      * intros ->. change (inject_Z (Z.of_nat (length []))) with 0 in Hh. lra.
      * rewrite Hc. lra.
Qed.

Lemma X9_enemy_dies_within_health_many_hits_witness :
  let hits := repeat 0 30 in
  Enemy.currentHealth (Enemy.new Enemy.GOBLIN) <= inject_Z (Z.of_nat (length hits)) /\
  Enemy.isDead (fold_left (fun e a => Enemy.takeDamage a e) hits
                  (Enemy.new Enemy.GOBLIN)) = true.
Proof.
  cbv zeta.
  assert (Hh : Enemy.currentHealth (Enemy.new Enemy.GOBLIN)
               <= inject_Z (Z.of_nat (length (repeat 0 30))))
    by (unfold Qle; cbn; lia).
  split; [exact Hh |].
  apply (X9_enemy_dies_within_health_many_hits (repeat 0 30)
           (Enemy.new Enemy.GOBLIN)); [discriminate | exact Hh].
Defined.

Lemma diedLines_app (l : list Enemy.Log) line :
  length (filter (fun l => isDiedLine l = true) (l ++ [line])) =
  (length (filter (fun l => isDiedLine l = true) l)
   + if isDiedLine line then 1 else 0)%nat.
Proof.
  rewrite filter_app, length_app. f_equal. destruct line; reflexivity.
Qed.

Lemma enemyCall_dead e call :
  Enemy.isDead e = true -> enemyCall e call = e.
Proof.
  intros H. destruct call as [a |]; cbn.
  - apply Enemy_takeDamage_dead, H.
  - unfold Enemy.die. rewrite H. reflexivity.
Qed.

Lemma enemyCall_deaths e call :
  Enemy.isDead e = false ->
  deathsLogged (enemyCall e call) =
  (deathsLogged e + if Enemy.isDead (enemyCall e call) then 1 else 0)%nat.
Proof.
  intros Hd. unfold deathsLogged. destruct call as [a |]; cbn [enemyCall].
  - unfold Enemy.takeDamage. rewrite Hd. cbv zeta.
    match goal with
    | |- context [if Math.le ?h 0 then _ else _] => destruct (Math.le h 0)
    end.
    + unfold Enemy.die. cbn [Enemy.isDead Enemy.log Enemy.withHealth].
      rewrite Hd. cbn [Enemy.isDead Enemy.log Enemy.withDead Enemy.console
                       Enemy.withHealth].
      rewrite !diedLines_app. cbn. lia.
    + cbn [Enemy.isDead Enemy.log Enemy.withHealth Enemy.console]. rewrite Hd.
      rewrite diedLines_app. cbn. lia.
  - unfold Enemy.die. rewrite Hd.
    cbn [Enemy.isDead Enemy.log Enemy.withDead Enemy.console].
    rewrite diedLines_app. cbn. lia.
Qed.

(** X10.  Death is terminal and happens once: over any sequence of
    [takeDamage] and [die] calls on an enemy that starts alive, its
    death is printed exactly once if it ends dead and never otherwise;
    and from the call that kills it on, no later call changes any of
    its fields. *)
Theorem X10_enemy_dies_once (calls later : list EnemyCall) (e : Enemy.t) :
  Enemy.isDead e = false ->
  let e' := fold_left enemyCall calls e in
  deathsLogged e' =
    (deathsLogged e + if Enemy.isDead e' then 1 else 0)%nat /\
  (Enemy.isDead e' = true -> fold_left enemyCall later e' = e').
Proof.
  intros Hd. cbv zeta. split.
  - revert e Hd. induction calls as [| call calls IH]; intros e Hd.
    + cbn. rewrite Hd. lia.
    + cbn [fold_left].
      destruct (Enemy.isDead (enemyCall e call)) eqn:Hd'.
      * assert (Hfix : fold_left enemyCall calls (enemyCall e call)
                       = enemyCall e call).
        { clear IH. revert Hd'. generalize (enemyCall e call).
          induction calls as [| c2 calls IH2]; intros e2 H2; [reflexivity |].
          cbn. rewrite enemyCall_dead by exact H2. apply IH2, H2. }
        rewrite Hfix, Hd'. rewrite (enemyCall_deaths e call Hd), Hd'. reflexivity.
      * rewrite (IH _ Hd'). rewrite (enemyCall_deaths e call Hd), Hd'. lia.
  - generalize (fold_left enemyCall calls e). intros e2 H2.
    induction later as [| c2 later IH2]; [reflexivity |].
    cbn. rewrite enemyCall_dead by exact H2. exact IH2.
Qed.

Lemma X10_enemy_dies_once_witness :
  let calls := [CallTakeDamage 10; CallTakeDamage 100; CallDie; CallTakeDamage 5] in
  let e' := fold_left enemyCall calls (Enemy.new Enemy.GOBLIN) in
  Enemy.isDead e' = true /\ deathsLogged e' = 1%nat /\
  fold_left enemyCall [CallDie; CallTakeDamage 50] e' = e'.
Proof.
  cbv zeta.
  destruct (X10_enemy_dies_once
              [CallTakeDamage 10; CallTakeDamage 100; CallDie; CallTakeDamage 5]
              [CallDie; CallTakeDamage 50] (Enemy.new Enemy.GOBLIN) eq_refl)
    as (Hn & Hfix).
  assert (Hd : Enemy.isDead
                 (fold_left enemyCall
                    [CallTakeDamage 10; CallTakeDamage 100; CallDie; CallTakeDamage 5]
                    (Enemy.new Enemy.GOBLIN)) = true) by reflexivity.
  split; [exact Hd |]. split; [| exact (Hfix Hd)].
  rewrite Hn, Hd. reflexivity.
Defined.

(** ** The enemy's per-frame update *)

Section EnemyFrames.
Variable sqrt : Q -> Q.

Lemma EnemyAI_update_dead k e :
  Enemy.isDead (EnemyAI.self e) = true -> EnemyAI.update sqrt k e = e.
Proof. unfold EnemyAI.update. intros ->. reflexivity. Qed.

(** What a frame keeps: the stats other than the aggro flag, the
    colliders, and the aggro flag once it is set. *)
Lemma EnemyAI_update_keeps k e :
  let e' := EnemyAI.update sqrt k e in
  EnemyAI.collisionObjects e' = EnemyAI.collisionObjects e /\
  Enemy.type (EnemyAI.self e') = Enemy.type (EnemyAI.self e) /\
  Enemy.isDead (EnemyAI.self e') = Enemy.isDead (EnemyAI.self e) /\
  Enemy.currentHealth (EnemyAI.self e') = Enemy.currentHealth (EnemyAI.self e) /\
  (Enemy.isAggro (EnemyAI.self e) = true ->
   Enemy.isAggro (EnemyAI.self e') = true).
Proof.
  cbv zeta. unfold EnemyAI.update.
  destruct (Enemy.isDead (EnemyAI.self e)) eqn:Hd; [repeat split; auto |].
  cbv zeta.
  destruct (Math.lt _ (Enemy.aggroRange (EnemyAI.self e))).
  - cbn. repeat split; auto.
  - destruct (Enemy.isAggro (EnemyAI.self e)) eqn:Ha; cbn;
      repeat split; auto; discriminate.
Qed.

Lemma EnemyAI_checkCollision_same e1 e2 p :
  EnemyAI.collisionObjects e1 = EnemyAI.collisionObjects e2 ->
  Enemy.type (EnemyAI.self e1) = Enemy.type (EnemyAI.self e2) ->
  EnemyAI.checkCollision e1 p = EnemyAI.checkCollision e2 p.
Proof.
  unfold EnemyAI.checkCollision, EnemyAI.enemyBoundingBox.
  intros -> ->. reflexivity.
Qed.

Lemma EnemyAI_update_position k e :
  EnemyAI.position (EnemyAI.update sqrt k e) = EnemyAI.position e \/
  EnemyAI.checkCollision e (EnemyAI.position (EnemyAI.update sqrt k e)) = false.
Proof.
  unfold EnemyAI.update.
  destruct (Enemy.isDead (EnemyAI.self e)); [left; reflexivity |].
  cbv zeta.
  match goal with
  | |- context [Enemy.isAggro ?s] => destruct (Enemy.isAggro s)
  end; [| left; reflexivity].
  cbn [EnemyAI.position].
  match goal with
  | |- context [negb (EnemyAI.checkCollision e ?p)] =>
      destruct (EnemyAI.checkCollision e p) eqn:E
  end; cbn [negb]; [left; reflexivity | right; exact E].
Qed.

Lemma EnemyAI_update_attacks k e :
  (EnemyAI.attacks (EnemyAI.update sqrt k e) = EnemyAI.attacks e /\
   EnemyAI.lastAttackTime (EnemyAI.update sqrt k e) = EnemyAI.lastAttackTime e) \/
  (EnemyAI.lastAttackTime e + EnemyAI.attackCooldown < EnemyAI.now k /\
   EnemyAI.attacks (EnemyAI.update sqrt k e) = EnemyAI.attacks e ++ [EnemyAI.now k] /\
   EnemyAI.lastAttackTime (EnemyAI.update sqrt k e) = EnemyAI.now k /\
   Enemy.isDead (EnemyAI.self e) = false /\
   EnemyAI.distanceTo sqrt (EnemyAI.position e) (EnemyAI.playerPosition k)
     < Enemy.attackRange (EnemyAI.self e)).
Proof.
  unfold EnemyAI.update.
  destruct (Enemy.isDead (EnemyAI.self e)); [left; split; reflexivity |].
  cbv zeta.
  match goal with
  | |- context [Enemy.isAggro ?s] => destruct (Enemy.isAggro s)
  end; [| left; split; reflexivity].
  cbn [EnemyAI.attacks EnemyAI.lastAttackTime].
  destruct (Math.lt _ (Enemy.attackRange (EnemyAI.self e))) eqn:Er;
    cbn [andb]; [| left; split; reflexivity].
  destruct (Math.gt _ EnemyAI.attackCooldown) eqn:Ec;
    [| left; split; reflexivity].
  right. apply Math_gt_iff in Ec. apply Math_lt_iff in Er.
  repeat split; try assumption. lra.
Qed.

End EnemyFrames.

(** X11.  Aggro is sticky and the only thing a dormant enemy can gain:
    once set, the flag survives every later frame; and in a frame in
    which the enemy is not aggro and the player is at least its aggro
    range away, it neither moves nor attacks nor changes in any other
    way. *)
Theorem X11_enemy_aggro_is_sticky (sqrt : Q -> Q) (ticks : list EnemyAI.Tick)
    (k : EnemyAI.Tick) (e : EnemyAI.t) :
  (Enemy.isAggro (EnemyAI.self e) = true ->
   Enemy.isAggro (EnemyAI.self (EnemyAI.run sqrt e ticks)) = true) /\
  (Enemy.isAggro (EnemyAI.self e) = false ->
   Enemy.aggroRange (EnemyAI.self e)
     <= EnemyAI.distanceTo sqrt (EnemyAI.position e) (EnemyAI.playerPosition k) ->
   EnemyAI.update sqrt k e = e).
Proof.
  split.
  - revert e. induction ticks as [| t ticks IH]; intros e H; [exact H |].
    cbn. apply IH.
    destruct (EnemyAI_update_keeps sqrt t e) as (_ & _ & _ & _ & Hk).
    apply Hk, H.
  - intros Ha Hfar. unfold EnemyAI.update.
    destruct (Enemy.isDead (EnemyAI.self e)); [reflexivity |].
    cbv zeta. apply Math_lt_false in Hfar. rewrite Hfar, Ha.
    destruct e. reflexivity.
Qed.

Lemma X11_enemy_aggro_is_sticky_witness :
  let woken := EnemyAI.update sqrtOfSquare (tickAt 1) goblinNearby in
  Enemy.isAggro (EnemyAI.self woken) = true /\
  Enemy.isAggro
    (EnemyAI.self
       (EnemyAI.run sqrtOfSquare woken
          [EnemyAI.mkTick (1 # 60) (mkVector3 0 0 500) 2; tickAt 3])) = true /\
  Enemy.aggroRange (EnemyAI.self goblinFarAway)
    <= EnemyAI.distanceTo sqrtOfSquare (EnemyAI.position goblinFarAway)
         (EnemyAI.playerPosition (tickAt 1)) /\
  EnemyAI.update sqrtOfSquare (tickAt 1) goblinFarAway = goblinFarAway.
Proof.
  cbv zeta.
  assert (Hw : Enemy.isAggro
                 (EnemyAI.self (EnemyAI.update sqrtOfSquare (tickAt 1) goblinNearby))
               = true) by reflexivity.
  assert (Hfar : Enemy.aggroRange (EnemyAI.self goblinFarAway)
                 <= EnemyAI.distanceTo sqrtOfSquare (EnemyAI.position goblinFarAway)
                      (EnemyAI.playerPosition (tickAt 1)))
    by (vm_compute; discriminate).
  split; [exact Hw |].
  split; [| split; [exact Hfar |]].
  - exact (proj1 (X11_enemy_aggro_is_sticky sqrtOfSquare
                    [EnemyAI.mkTick (1 # 60) (mkVector3 0 0 500) 2; tickAt 3]
                    (tickAt 1)
                    (EnemyAI.update sqrtOfSquare (tickAt 1) goblinNearby)) Hw).
  - exact (proj2 (X11_enemy_aggro_is_sticky sqrtOfSquare [] (tickAt 1)
                    goblinFarAway) eq_refl Hfar).
Defined.

(** X12.  An enemy takes a step only to a place where its box is free
    of the colliders: one that starts free of them is still free of
    them after any number of frames. *)
Theorem X12_enemy_never_enters_a_collider (sqrt : Q -> Q)
    (ticks : list EnemyAI.Tick) (e : EnemyAI.t) :
  EnemyAI.checkCollision e (EnemyAI.position e) = false ->
  let e' := EnemyAI.run sqrt e ticks in
  EnemyAI.checkCollision e' (EnemyAI.position e') = false.
Proof.
  cbv zeta. revert e.
  induction ticks as [| t ticks IH]; intros e H; [exact H |].
  cbn. apply IH.
  destruct (EnemyAI_update_keeps sqrt t e) as (Hc & Ht & _).
  rewrite (EnemyAI_checkCollision_same _ e _ Hc Ht).
  destruct (EnemyAI_update_position sqrt t e) as [-> | Hfree]; assumption.
Qed.

Lemma X12_enemy_never_enters_a_collider_witness :
  let wall := mkBox3 (mkVector3 (-5) 0 (4 # 10)) (mkVector3 5 3 (6 # 10)) in
  let e := EnemyAI.new (mkVector3 0 0 1) Enemy.GOBLIN [wall] in
  let e' := EnemyAI.run sqrtOfSquare e [tickAt 1; tickAt 2; tickAt 3] in
  EnemyAI.checkCollision e (EnemyAI.position e) = false /\
  EnemyAI.checkCollision e' (EnemyAI.position e') = false /\
  Enemy.isAggro (EnemyAI.self e') = true.
Proof.
  cbv zeta. split; [reflexivity |].
  split; [| reflexivity].
  apply (X12_enemy_never_enters_a_collider sqrtOfSquare
           [tickAt 1; tickAt 2; tickAt 3]
           (EnemyAI.new (mkVector3 0 0 1) Enemy.GOBLIN
              [mkBox3 (mkVector3 (-5) 0 (4 # 10)) (mkVector3 5 3 (6 # 10))])).
  reflexivity.
Defined.

Lemma last_nonempty_default (times : list Q) u d1 d2 :
  List.last (u :: times) d1 = List.last (u :: times) d2.
Proof.
  revert u. induction times as [| v times IH]; intros u; [reflexivity |].
  change (List.last (v :: times) d1 = List.last (v :: times) d2). apply IH.
Qed.

Lemma spaced_app last times t :
  spaced last times ->
  List.last times last + EnemyAI.attackCooldown < t ->
  spaced last (times ++ [t]).
Proof.
  revert last. induction times as [| u times IH]; intros last Hs Ht; cbn in *.
  - split; [exact Ht | exact I].
  - destruct Hs as [Hu Hs]. split; [exact Hu |].
    apply IH; [exact Hs |].
    destruct times as [| v times]; [exact Ht |].
    rewrite (last_nonempty_default times v u last). exact Ht.
Qed.

Lemma last_app_one (times : list Q) t d : List.last (times ++ [t]) d = t.
Proof.
  induction times as [| u times IH]; [reflexivity |].
  cbn. destruct (times ++ [t]) eqn:E; [destruct times; discriminate | exact IH].
Qed.

(** X13.  Attacks are spaced by the cooldown: over any run of frames of
    an enemy that has not attacked yet, every attack comes more than 2
    seconds of the clock after the previous one (the first one more
    than 2 seconds after the starting [lastAttackTime]), whatever the
    deltas and the player's moves; a dead enemy never attacks. *)
Theorem X13_enemy_attacks_are_spaced (sqrt : Q -> Q)
    (ticks : list EnemyAI.Tick) (e : EnemyAI.t) :
  EnemyAI.attacks e = [] ->
  let e' := EnemyAI.run sqrt e ticks in
  spaced (EnemyAI.lastAttackTime e) (EnemyAI.attacks e') /\
  EnemyAI.lastAttackTime e' =
    List.last (EnemyAI.attacks e') (EnemyAI.lastAttackTime e) /\
  (Enemy.isDead (EnemyAI.self e) = true -> EnemyAI.attacks e' = []).
Proof.
  intros Hnone. cbv zeta.
  assert (Hgen : forall ticks e0 L,
            spaced L (EnemyAI.attacks e0) ->
            EnemyAI.lastAttackTime e0 = List.last (EnemyAI.attacks e0) L ->
            spaced L (EnemyAI.attacks (EnemyAI.run sqrt e0 ticks)) /\
            EnemyAI.lastAttackTime (EnemyAI.run sqrt e0 ticks) =
              List.last (EnemyAI.attacks (EnemyAI.run sqrt e0 ticks)) L).
  { clear. induction ticks as [| t ticks IH]; intros e0 L Hs Hl.
    - split; assumption.
    - cbn. apply IH.
      + destruct (EnemyAI_update_attacks sqrt t e0)
          as [(-> & _) | (Hlt & -> & _)]; [exact Hs |].
        apply spaced_app; [exact Hs |]. rewrite <- Hl. exact Hlt.
      + destruct (EnemyAI_update_attacks sqrt t e0)
          as [(-> & ->) | (_ & -> & -> & _)]; [exact Hl |].
        symmetry. apply last_app_one. }
  destruct (Hgen ticks e (EnemyAI.lastAttackTime e)) as [Hs Hl].
  - rewrite Hnone. exact I.
  - rewrite Hnone. reflexivity.
  - split; [exact Hs |]. split; [exact Hl |].
    intros Hd. clear Hs Hl Hgen.
    assert (Hfix : EnemyAI.run sqrt e ticks = e).
    { revert Hd. generalize e. clear.
      induction ticks as [| t ticks IH]; intros e Hd; [reflexivity |].
      cbn. rewrite EnemyAI_update_dead by exact Hd. apply IH, Hd. }
    rewrite Hfix. exact Hnone.
Qed.

Lemma X13_enemy_attacks_are_spaced_witness :
  let e' := EnemyAI.run sqrtOfSquare goblinNearby
              [tickAt 1; tickAt 3; tickAt 4; tickAt (11 # 2)] in
  EnemyAI.attacks e' = [3; 11 # 2] /\
  spaced 0 (EnemyAI.attacks e').
Proof.
  cbv zeta. split; [reflexivity |].
  apply (X13_enemy_attacks_are_spaced sqrtOfSquare
           [tickAt 1; tickAt 3; tickAt 4; tickAt (11 # 2)] goblinNearby).
  reflexivity.
Defined.

(** ** Runs of the quest store *)

Lemma evolves_refl q : evolves q q.
Proof. unfold evolves. repeat split; auto. Qed.

Lemma evolves_trans q1 q2 q3 : evolves q1 q2 -> evolves q2 q3 -> evolves q1 q3.
Proof.
  unfold evolves. intros (? & ? & ? & ? & ?) (? & ? & ? & ? & ?).
  repeat split; try congruence; [lia | auto].
Qed.

Lemma evolves_withStatus q st :
  (stage (Quest.status q) <= stage st)%nat -> evolves q (Quest.withStatus q st).
Proof. intros H. unfold evolves. cbn. repeat split; auto. Qed.

Lemma evolves_withVisible q : evolves q (Quest.withVisible q true).
Proof. unfold evolves. cbn. repeat split; auto. Qed.

Lemma stage_le_COMPLETED st : (stage st <= stage COMPLETED)%nat.
Proof. destruct st; cbn; lia. Qed.

Lemma elem_of_list_insert_inv {A} (l : list A) i x y :
  y ∈ <[i := x]> l -> y = x \/ y ∈ l.
Proof.
  intros Hy. apply list_elem_of_lookup in Hy as [j Hj].
  destruct (decide (i = j)) as [-> | Hne].
  - destruct (decide (j < length l)%nat) as [Hlt | Hge].
    + rewrite list_lookup_insert_eq in Hj by exact Hlt. left. congruence.
    + rewrite list_insert_ge in Hj by lia.
      right. apply list_elem_of_lookup. exists j. exact Hj.
  - rewrite list_lookup_insert_ne in Hj by exact Hne.
    right. apply list_elem_of_lookup. exists j. exact Hj.
Qed.

(** What one call of [completeQuest] does to what a lookup finds under
    any key: it is kept, possibly COMPLETED, possibly revealed, with the
    objectives it had. *)
Lemma QuestStore_completeQuest_get questId s k q :
  QuestStore.get (QuestStore.quests s) k = Some q ->
  exists q',
    QuestStore.get (QuestStore.quests (QuestStore.completeQuest questId s)) k
      = Some q' /\
    evolves q q' /\ Quest.objectives q' = Quest.objectives q.
Proof.
  intros Hk. unfold QuestStore.completeQuest.
  destruct (QuestStore.get (QuestStore.quests s) questId) as [quest |] eqn:Hq;
    [| exists q; auto using evolves_refl].
  destruct (decide (Quest.status quest = COMPLETED));
    [exists q; auto using evolves_refl |].
  cbn [QuestStore.quests QuestStore.log].
  assert (Hmid : exists q1,
            QuestStore.get
              (<[questId := Quest.withStatus quest COMPLETED]>
                 (QuestStore.quests s)) k = Some q1 /\
            evolves q q1 /\ Quest.objectives q1 = Quest.objectives q).
  { destruct (decide (k = questId)) as [-> | Hne].
    - rewrite QuestStore_get_insert. assert (quest = q) as -> by congruence.
      eexists. split; [reflexivity |]. split; [| reflexivity].
      apply evolves_withStatus, stage_le_COMPLETED.
    - rewrite QuestStore_get_insert_ne by congruence.
      exists q. auto using evolves_refl. }
  destruct Hmid as (q1 & Hq1 & Hev1 & Hob1).
  destruct (truthy (Quest.nextQuestId quest)) as [next |];
    [| exists q1; auto].
  destruct (QuestStore.get _ next) as [nextQuest |] eqn:Hn;
    [| exists q1; auto].
  destruct (decide (k = next)) as [-> | Hne].
  - rewrite QuestStore_get_insert. assert (nextQuest = q1) as -> by congruence.
    eexists. split; [reflexivity |]. split; [| exact Hob1].
    eapply evolves_trans; [exact Hev1 | apply evolves_withVisible].
  - rewrite QuestStore_get_insert_ne by congruence. exists q1. auto.
Qed.


(** What one call of [updateObjective] does to what a lookup finds
    under any key. *)
Lemma QuestStore_updateObjective_get questId objectiveId progress s k q :
  QuestStore.get (QuestStore.quests s) k = Some q ->
  exists q',
    QuestStore.get
      (QuestStore.quests
         (QuestStore.updateObjective questId objectiveId progress s)) k
      = Some q' /\
    evolves q q' /\
    (forall o, o ∈ Quest.objectives q' -> o ∈ Quest.objectives q \/ counted o).
Proof.
  intros Hk.
  destruct (decide (k = questId)) as [-> | Hne].
  2:{ destruct (QuestStore_updateObjective_frame questId objectiveId progress s)
        as (Hother & _).
      unfold QuestStore.get. rewrite Hother by exact Hne.
      exists q. split; [exact Hk | auto using evolves_refl]. }
  unfold QuestStore.updateObjective. rewrite Hk.
  destruct (decide (Quest.status q = IN_PROGRESS)) as [Hst |];
    [| exists q; auto using evolves_refl].
  destruct (list_find _ _) as [[i obj] |];
    [| exists q; auto using evolves_refl].
  cbv zeta.
  match goal with
  | |- context [Quest.withStatus ?a ?b] => set (quest' := Quest.withStatus a b)
  end.
  assert (Hquest' : evolves q quest' /\
            forall o, o ∈ Quest.objectives quest' ->
                      o ∈ Quest.objectives q \/ counted o).
  { split.
    - unfold evolves, quest'.
      cbn [Quest.id Quest.title Quest.nextQuestId Quest.status Quest.isVisible
           Quest.withStatus Quest.withObjectives].
      rewrite Hst. repeat split; auto.
      break_ifs; cbn; lia.
    - intros o Ho. unfold quest' in Ho.
      cbn [Quest.objectives Quest.withStatus Quest.withObjectives] in Ho.
      apply elem_of_list_insert_inv in Ho as [-> | Ho]; [right | left; exact Ho].
      unfold counted. cbn. split; [apply Z.le_min_r | reflexivity]. }
  destruct Hquest' as [Hev Hobj].
  destruct (Quest.allCompleted _) eqn:Hall.
  - rewrite QuestStore_completeQuest_noop.
    + cbn [QuestStore.quests]. rewrite QuestStore_get_insert. exists quest'. auto.
    + cbn [QuestStore.quests]. rewrite QuestStore_get_insert.
      unfold quest'. reflexivity.
  - cbn [QuestStore.quests]. rewrite QuestStore_get_insert. exists quest'. auto.
Qed.

(** One action on what a lookup finds under any key. *)
Lemma questAct_get s a k q :
  QuestStore.get (QuestStore.quests s) k = Some q ->
  exists q',
    QuestStore.get (QuestStore.quests (questAct s a)) k = Some q' /\
    evolves q q' /\
    (forall o, o ∈ Quest.objectives q' -> o ∈ Quest.objectives q \/ counted o).
Proof.
  intros Hk. destruct a as [questId | questId objectiveId progress | questId |];
    cbn [questAct].
  - unfold QuestStore.startQuest.
    destruct (QuestStore.get (QuestStore.quests s) questId) as [quest |] eqn:Hq;
      [| exists q; auto using evolves_refl].
    destruct (decide (Quest.status quest = NOT_STARTED)) as [Hst |];
      [| exists q; auto using evolves_refl].
    cbn [snd QuestStore.quests QuestStore.log].
    destruct (decide (k = questId)) as [-> | Hne].
    + rewrite QuestStore_get_insert. assert (quest = q) as -> by congruence.
      eexists. split; [reflexivity |]. split; [| auto].
      apply evolves_withStatus. rewrite Hst. cbn. lia.
    + rewrite QuestStore_get_insert_ne by congruence.
      exists q. auto using evolves_refl.
  - apply QuestStore_updateObjective_get. exact Hk.
  - destruct (QuestStore_completeQuest_get questId s k q Hk)
      as (q' & Hq' & Hev & Hob).
    exists q'. split; [exact Hq' |]. split; [exact Hev |].
    intros o Ho. left. rewrite <- Hob. exact Ho.
  - exists q. auto using evolves_refl.
Qed.



(** An action adds an entry only under a name that the lookup finds
    already: none where the lookup finds nothing. *)
Lemma questAct_get_None s a k :
  QuestStore.get (QuestStore.quests s) k = None ->
  QuestStore.get (QuestStore.quests (questAct s a)) k = None.
Proof.
  intros Hk.
  assert (Hcomplete : forall questId s,
            QuestStore.get (QuestStore.quests s) k = None ->
            QuestStore.get
              (QuestStore.quests (QuestStore.completeQuest questId s)) k = None).
  { clear. intros questId s Hk. unfold QuestStore.completeQuest.
    destruct (QuestStore.get _ questId) as [quest |] eqn:Hq; [| exact Hk].
    destruct (decide _); [exact Hk |].
    cbn [QuestStore.quests QuestStore.log].
    assert (Hmid : QuestStore.get
                     (<[questId := Quest.withStatus quest COMPLETED]>
                        (QuestStore.quests s)) k = None).
    { rewrite QuestStore_get_insert_ne by congruence. exact Hk. }
    destruct (truthy _) as [next |]; [| exact Hmid].
    destruct (QuestStore.get _ next) as [nextQuest |] eqn:Hn; [| exact Hmid].
    rewrite QuestStore_get_insert_ne by congruence. exact Hmid. }
  destruct a as [questId | questId objectiveId progress | questId |];
    cbn [questAct].
  - unfold QuestStore.startQuest.
    destruct (QuestStore.get _ questId) as [quest |] eqn:Hq; [| exact Hk].
    destruct (decide _); [| exact Hk].
    cbn [snd QuestStore.quests QuestStore.log].
    rewrite QuestStore_get_insert_ne by congruence. exact Hk.
  - destruct (decide (k = questId)) as [-> | Hne].
    + rewrite QuestStore_updateObjective_rejected; [exact Hk |].
      apply QuestStore_get_None in Hk as [-> _]. exact I.
    + destruct (QuestStore_updateObjective_frame questId objectiveId progress s)
        as (Hother & _).
      unfold QuestStore.get. rewrite Hother by exact Hne. exact Hk.
  - apply Hcomplete, Hk.
  - exact Hk.
Qed.




Lemma questAct_allCounted s a :
  allCounted (QuestStore.quests s) ->
  allCounted (QuestStore.quests (questAct s a)).
Proof.
  intros Hinv k q' o Hq' Ho.
  apply QuestStore_get_own in Hq'.
  destruct (QuestStore.get (QuestStore.quests s) k) as [q |] eqn:Hk.
  - destruct (questAct_get s a k q Hk) as (q1 & Hq1 & _ & Hobj).
    assert (q1 = q') as -> by congruence.
    destruct (Hobj o Ho) as [Hold | Hnew]; [| exact Hnew].
    apply QuestStore_get_Some in Hk as [Hown | (_ & _ & ->)].
    + exact (Hinv k q o Hown Hold).
    + apply elem_of_nil in Hold. contradiction.
  - rewrite (questAct_get_None s a k Hk) in Hq'. discriminate.
Qed.

(** X17.  In the store, counts never pass their requirement: if every
    objective of every quest has [current <= required] and a [completed]
    flag that says whether the requirement is met, then this is still so
    after any run of startQuest, updateObjective (with any progress,
    negative ones too), completeQuest and toggleQuestLog calls. *)
Theorem X17_store_counts_never_exceed_required s acts :
  allCounted (QuestStore.quests s) ->
  allCounted (QuestStore.quests (questActs s acts)).
Proof.
  revert s. induction acts as [| a acts IH]; intros s Hinv; [exact Hinv |].
  apply (IH (questAct s a)). apply questAct_allCounted. exact Hinv.
Qed.

Lemma initialQuests_allCounted : allCounted QuestStore.initialQuests.
Proof.
  intros k q o Hk Ho. unfold QuestStore.initialQuests in Hk.
  repeat (apply lookup_insert_Some in Hk as [[_ <-] | [_ Hk]];
          [cbn in Ho;
           repeat (apply elem_of_cons in Ho as [-> | Ho];
                   [split; [cbn; lia | reflexivity] |]);
           apply elem_of_nil in Ho; contradiction |]).
  rewrite lookup_empty in Hk. discriminate.
Qed.

Lemma X17_store_counts_never_exceed_required_witness :
  let s' := questActs (QuestStore.initializeQuests QuestStore.empty)
              [StartQuest "goblin_slayer";
               UpdateObjective "goblin_slayer" "kill_goblins" 7;
               UpdateObjective "goblin_slayer" "kill_goblins" (-3);
               CompleteQuest "cook_assistant"] in
  exists q, QuestStore.quests s' !! "goblin_slayer" = Some q /\
            Forall counted (Quest.objectives q).
Proof.
  cbv zeta. eexists. split; [vm_compute; reflexivity |].
  apply Forall_forall. intros o Ho.
  eapply (X17_store_counts_never_exceed_required
            (QuestStore.initializeQuests QuestStore.empty)
            [StartQuest "goblin_slayer";
             UpdateObjective "goblin_slayer" "kill_goblins" 7;
             UpdateObjective "goblin_slayer" "kill_goblins" (-3);
             CompleteQuest "cook_assistant"]
            initialQuests_allCounted "goblin_slayer").
  - vm_compute. reflexivity.
  - exact Ho.
Defined.

(** [completeQuest] under a name of [Object.prototype]: on the store
    as initialised, [completeQuest("constructor")] goes ahead on the
    inherited value, adds an entry marked COMPLETED and lists the name
    as completed; a second call finds that entry and does nothing. *)
Lemma QuestStore_completeQuest_inherited_name :
  let s0 := QuestStore.initializeQuests QuestStore.empty in
  let s1 := QuestStore.completeQuest "constructor" s0 in
  QuestStore.quests s0 !! "constructor" = None /\
  QuestStore.quests s1 !! "constructor"
    = Some (Quest.withStatus QuestStore.inheritedValue COMPLETED) /\
  QuestStore.completedQuestIds s1 = ["constructor"] /\
  QuestStore.console s1 = [QuestStore.Completed "undefined"] /\
  QuestStore.completeQuest "constructor" s1 = s1 /\
  QuestStore.completeQuest "no_such_quest" s0 = s0.
Proof. vm_compute. repeat split. Qed.


Lemma filter_ne_not_elem (l : list string) (x : string) :
  x ∉ filter (fun id => id <> x) l.
Proof. rewrite list_elem_of_filter. intros [Hne _]. congruence. Qed.






(** X20.  Called directly on a quest that is not yet COMPLETED, the
    store's [completeQuest] does what the auto-completion of
    [updateObjective] leaves undone: the quest becomes COMPLETED, its
    id leaves [activeQuestIds] and is appended to [completedQuestIds],
    an existing successor becomes visible and keeps its status and
    objectives, the line "Completed quest" is logged, and every quest
    other than the two is left as it was. *)
Theorem X20_store_completeQuest_reveals_successor questId next s quest nextQuest :
  QuestStore.quests s !! questId = Some quest ->
  Quest.status quest <> COMPLETED ->
  truthy (Quest.nextQuestId quest) = Some next ->
  next <> questId ->
  QuestStore.quests s !! next = Some nextQuest ->
  let s' := QuestStore.completeQuest questId s in
  QuestStore.quests s' !! questId = Some (Quest.withStatus quest COMPLETED) /\
  QuestStore.quests s' !! next = Some (Quest.withVisible nextQuest true) /\
  (forall other, other <> questId -> other <> next ->
     QuestStore.quests s' !! other = QuestStore.quests s !! other) /\
  (questId ∉ QuestStore.activeQuestIds s') /\
  (forall id, id <> questId ->
     (id ∈ QuestStore.activeQuestIds s' <-> id ∈ QuestStore.activeQuestIds s)) /\
  QuestStore.completedQuestIds s' = QuestStore.completedQuestIds s ++ [questId] /\
  QuestStore.console s'
    = QuestStore.console s ++ [QuestStore.Completed (Quest.title quest)].
Proof.
  intros Hq Hst Hnext Hne Hn. cbv zeta.
  unfold QuestStore.completeQuest. rewrite (QuestStore_get_own _ _ _ Hq).
  destruct (decide (Quest.status quest = COMPLETED)); [contradiction |].
  rewrite Hnext.
  rewrite QuestStore_get_insert_ne by congruence.
  rewrite (QuestStore_get_own _ _ _ Hn). cbn.
  split.
  { rewrite lookup_insert_ne by congruence. apply lookup_insert_eq. }
  split; [apply lookup_insert_eq |].
  split.
  { intros other H1 H2. rewrite !lookup_insert_ne by congruence. reflexivity. }
  split; [apply filter_ne_not_elem |].
  split; [| split; reflexivity].
  intros id Hid. rewrite list_elem_of_filter. tauto.
Qed.

Lemma X20_store_completeQuest_reveals_successor_witness :
  let s' := QuestStore.completeQuest "goblin_slayer" goblinQuestStarted in
  (Quest.status <$> QuestStore.quests s' !! "goblin_slayer") = Some COMPLETED /\
  (Quest.isVisible <$> QuestStore.quests s' !! "cook_assistant") = Some true /\
  QuestStore.activeQuestIds s' = [] /\
  QuestStore.completedQuestIds s' = ["goblin_slayer"].
Proof.
  pose proof (X20_store_completeQuest_reveals_successor
                "goblin_slayer" "cook_assistant" goblinQuestStarted) as H.
  specialize (H _ _ eq_refl ltac:(discriminate) eq_refl ltac:(discriminate) eq_refl).
  cbv zeta in H. destruct H as (H1 & H2 & _ & _ & _ & H6 & _).
  cbv zeta. rewrite H1, H2. split; [reflexivity |]. split; [reflexivity |].
  split; [vm_compute; reflexivity |]. rewrite H6. reflexivity.
Defined.

(** ** Runs of the QuestSystem class *)

Lemma allCompleted_single o : Quest.allCompleted [o] = QuestObjective.completed o.
Proof. unfold Quest.allCompleted. cbn. apply andb_true_r. Qed.

(** What an accepted call of [updateObjectiveProgress] leaves under the
    quest's key. *)
Lemma QuestSystem_updateObjectiveProgress_accepted
    questId objectiveId amount s quest i obj :
  QuestSystem.quests s !! questId = Some quest ->
  Quest.status quest = IN_PROGRESS ->
  list_find (fun o => QuestObjective.id o = objectiveId)
            (Quest.objectives quest) = Some (i, obj) ->
  let current := (QuestObjective.current obj + amount)%Z in
  let os := <[i := QuestObjective.withProgress obj current
                     (QuestObjective.required obj <=? current)%Z]>
              (Quest.objectives quest) in
  let r := QuestSystem.updateObjectiveProgress questId objectiveId amount s in
  fst r = true /\
  QuestSystem.completedQuests (snd r) = QuestSystem.completedQuests s /\
  (forall other, other <> questId ->
     QuestSystem.quests (snd r) !! other = QuestSystem.quests s !! other) /\
  if Quest.allCompleted os
  then QuestSystem.quests (snd r) !! questId
         = Some (Quest.withStatus (Quest.withObjectives quest os) COMPLETED) /\
       QuestSystem.activeQuests (snd r)
         = filter (fun ref => QuestSystem.refersTo (snd r) questId ref = false)
                  (QuestSystem.activeQuests s)
  else QuestSystem.quests (snd r) !! questId
         = Some (Quest.withObjectives quest os) /\
       QuestSystem.activeQuests (snd r) = QuestSystem.activeQuests s.
Proof.
  intros Hq Hst Hfind. cbv zeta.
  unfold QuestSystem.updateObjectiveProgress. rewrite Hq.
  destruct (decide (Quest.status quest = IN_PROGRESS)); [| contradiction].
  rewrite Hfind. cbv zeta.
  destruct (Quest.allCompleted _) eqn:Hall.
  - unfold QuestSystem.completeQuest.
    cbn [QuestSystem.quests QuestSystem.log QuestSystem.withQuests].
    rewrite lookup_insert_eq.
    cbn [Quest.status Quest.withObjectives].
    destruct (decide (Quest.status quest = IN_PROGRESS)); [| contradiction].
    cbn [fst snd QuestSystem.quests QuestSystem.log QuestSystem.withQuests
         QuestSystem.activeQuests QuestSystem.completedQuests].
    split; [reflexivity |]. split; [reflexivity |].
    split.
    { intros other Hne. rewrite !lookup_insert_ne by congruence. reflexivity. }
    split; [| reflexivity].
    rewrite lookup_insert_eq. reflexivity.
  - cbn [fst snd QuestSystem.quests QuestSystem.log QuestSystem.withQuests
         QuestSystem.activeQuests QuestSystem.completedQuests].
    split; [reflexivity |]. split; [reflexivity |].
    split.
    { intros other Hne. rewrite lookup_insert_ne by congruence. reflexivity. }
    split; [| reflexivity].
    rewrite lookup_insert_eq. reflexivity.
Qed.

(** X21.  In the class the auto-completion does go through: an accepted
    [updateObjectiveProgress] returns true, adds the amount to the one
    objective, and leaves the quest COMPLETED exactly when all its
    objectives are then completed; in that case the quest object is no
    longer among [activeQuests] and every later update of the quest is
    refused without a change.  Otherwise the quest stays IN_PROGRESS and
    [activeQuests] is as it was.  The other quests are never touched,
    and the [completedQuests] field is never written. *)
Theorem X21_class_autocompletion_goes_through
    questId objectiveId amount s quest i obj :
  QuestSystem.quests s !! questId = Some quest ->
  Quest.id quest = questId ->
  Quest.status quest = IN_PROGRESS ->
  list_find (fun o => QuestObjective.id o = objectiveId)
            (Quest.objectives quest) = Some (i, obj) ->
  let r := QuestSystem.updateObjectiveProgress questId objectiveId amount s in
  fst r = true /\
  QuestSystem.completedQuests (snd r) = QuestSystem.completedQuests s /\
  (forall other, other <> questId ->
     QuestSystem.quests (snd r) !! other = QuestSystem.quests s !! other) /\
  exists quest',
    QuestSystem.quests (snd r) !! questId = Some quest' /\
    Quest.objectives quest'
      = <[i := QuestObjective.withProgress obj
                 (QuestObjective.current obj + amount)%Z
                 (QuestObjective.required obj
                    <=? QuestObjective.current obj + amount)%Z]>
          (Quest.objectives quest) /\
    (Quest.status quest' = COMPLETED <->
     forall o, o ∈ Quest.objectives quest' -> QuestObjective.completed o = true) /\
    (Quest.status quest' = COMPLETED ->
     (questId ∉ QuestSystem.activeQuests (snd r)) /\
     forall objectiveId' amount',
       QuestSystem.updateObjectiveProgress questId objectiveId' amount' (snd r)
         = (false, snd r)) /\
    (Quest.status quest' <> COMPLETED ->
     Quest.status quest' = IN_PROGRESS /\
     QuestSystem.activeQuests (snd r) = QuestSystem.activeQuests s).
Proof.
  intros Hq Hid Hst Hfind.
  pose proof (QuestSystem_updateObjectiveProgress_accepted
                questId objectiveId amount s quest i obj Hq Hst Hfind) as H.
  cbv zeta in H. cbv zeta.
  destruct H as (Hr & Hcompleted & Hother & Hcase).
  split; [exact Hr |]. split; [exact Hcompleted |]. split; [exact Hother |].
  destruct (Quest.allCompleted _) eqn:Hall.
  - destruct Hcase as [Hquest' Hactive].
    eexists. split; [exact Hquest' |].
    cbn [Quest.objectives Quest.status Quest.withStatus Quest.withObjectives].
    split; [reflexivity |]. split.
    { split; [intros _; apply allCompleted_spec; exact Hall | reflexivity]. }
    split; [| intros Hne; contradiction].
    intros _. split.
    + rewrite Hactive. rewrite list_elem_of_filter. intros [Href _].
      unfold QuestSystem.refersTo in Href. rewrite Hquest' in Href.
      cbn [Quest.id Quest.withStatus Quest.withObjectives] in Href.
      rewrite bool_decide_eq_false in Href. contradiction.
    + intros objectiveId' amount'.
      apply QuestSystem_updateObjectiveProgress_rejected.
      rewrite Hquest'. left. cbn. discriminate.
  - destruct Hcase as [Hquest' Hactive].
    eexists. split; [exact Hquest' |].
    cbn [Quest.objectives Quest.status Quest.withStatus Quest.withObjectives].
    split; [reflexivity |]. split.
    { rewrite Hst. split; [discriminate |].
      intros Hallc. apply allCompleted_spec in Hallc. congruence. }
    split; [rewrite Hst; discriminate |].
    intros _. split; [exact Hst | exact Hactive].
Qed.

Lemma X21_class_autocompletion_goes_through_witness :
  let r := QuestSystem.updateObjectiveProgress
             "quest_town_defense" "kill_goblins" 5 townDefenseAccepted in
  fst r = true /\
  (Quest.status <$> QuestSystem.quests (snd r) !! "quest_town_defense")
    = Some COMPLETED /\
  QuestSystem.activeQuests (snd r) = [] /\
  QuestSystem.completedQuests (snd r) = [].
Proof.
  pose proof (X21_class_autocompletion_goes_through
                "quest_town_defense" "kill_goblins" 5 townDefenseAccepted
                _ 0%nat _ eq_refl eq_refl eq_refl eq_refl) as H.
  cbv zeta in H. destruct H as (Hr & Hc & _ & _).
  cbv zeta. split; [exact Hr |]. split; [vm_compute; reflexivity |].
  split; [vm_compute; reflexivity |]. rewrite Hc. reflexivity.
Defined.

Lemma afterKills_S n s :
  afterKills (S n) s = QuestSystem.onEnemyKilled (afterKills n s).
Proof. reflexivity. Qed.

(** X22.  Kills are counted one by one up to the requirement and no
    further: while the town-defense quest is IN_PROGRESS with its single
    objective below its requirement, [n] calls of [onEnemyKilled] leave
    the count at [min (current + n) required]; the quest is COMPLETED as
    soon as the requirement is reached and the kills after that are
    ignored. *)
Theorem X22_kills_are_counted_up_to_the_requirement s quest obj n :
  QuestSystem.quests s !! "quest_town_defense" = Some quest ->
  Quest.status quest = IN_PROGRESS ->
  Quest.objectives quest = [obj] ->
  QuestObjective.id obj = "kill_goblins" ->
  (QuestObjective.current obj < QuestObjective.required obj)%Z ->
  exists quest' obj',
    QuestSystem.quests (afterKills n s) !! "quest_town_defense" = Some quest' /\
    Quest.objectives quest' = [obj'] /\
    QuestObjective.id obj' = "kill_goblins" /\
    QuestObjective.required obj' = QuestObjective.required obj /\
    QuestObjective.current obj'
      = Z.min (QuestObjective.current obj + Z.of_nat n)
              (QuestObjective.required obj) /\
    Quest.status quest'
      = (if (QuestObjective.required obj
               <=? QuestObjective.current obj + Z.of_nat n)%Z
         then COMPLETED else IN_PROGRESS).
Proof.
  intros Hq Hst Hos Hid Hlt.
  induction n as [| n IH].
  - exists quest, obj. cbn [afterKills Nat.iter].
    split; [exact Hq |]. split; [exact Hos |]. split; [exact Hid |].
    split; [reflexivity |]. split; [cbn; lia |].
    rewrite Hst. destruct (Z.leb_spec (QuestObjective.required obj)
                             (QuestObjective.current obj + Z.of_nat 0)%Z);
      [lia | reflexivity].
  - destruct IH as (quest1 & obj1 & Hq1 & Hos1 & Hid1 & Hreq1 & Hcur1 & Hst1).
    rewrite afterKills_S. unfold QuestSystem.onEnemyKilled.
    destruct (Z.leb_spec (QuestObjective.required obj)
                (QuestObjective.current obj + Z.of_nat n)%Z) as [Hdone | Hnot].
    + rewrite QuestSystem_updateObjectiveProgress_rejected.
      2:{ rewrite Hq1. left. rewrite Hst1. discriminate. }
      exists quest1, obj1. cbn [snd].
      split; [exact Hq1 |]. split; [exact Hos1 |]. split; [exact Hid1 |].
      split; [exact Hreq1 |]. split; [lia |].
      rewrite Hst1.
      destruct (Z.leb_spec (QuestObjective.required obj)
                  (QuestObjective.current obj + Z.of_nat (S n))%Z);
        [reflexivity | lia].
    + assert (Hfind : list_find (fun o => QuestObjective.id o = "kill_goblins")
                        (Quest.objectives quest1) = Some (0%nat, obj1)).
      { rewrite Hos1. cbn. rewrite decide_True by exact Hid1. reflexivity. }
      pose proof (QuestSystem_updateObjectiveProgress_accepted
                    "quest_town_defense" "kill_goblins" 1 (afterKills n s)
                    quest1 0%nat obj1 Hq1 Hst1 Hfind) as H.
      cbv zeta in H. destruct H as (_ & _ & _ & Hcase).
      rewrite Hos1 in Hcase. cbn [insert list_insert] in Hcase.
      rewrite allCompleted_single in Hcase.
      cbn [QuestObjective.completed QuestObjective.withProgress] in Hcase.
      rewrite Hreq1, Hcur1 in Hcase.
      replace (Z.min (QuestObjective.current obj + Z.of_nat n)
                 (QuestObjective.required obj) + 1)%Z
        with (QuestObjective.current obj + Z.of_nat (S n))%Z in Hcase by lia.
      destruct (Z.leb_spec (QuestObjective.required obj)
                  (QuestObjective.current obj + Z.of_nat (S n))%Z) as [Hnow | Hnow];
        destruct Hcase as [Hq2 _]; eexists; eexists;
        (split; [exact Hq2 |]);
        cbn [Quest.objectives Quest.status Quest.withStatus Quest.withObjectives
             QuestObjective.id QuestObjective.required QuestObjective.current
             QuestObjective.withProgress];
        (split; [reflexivity |]); (split; [exact Hid1 |]);
        (split; [exact Hreq1 |]);
        (split; [cbn [QuestObjective.current QuestObjective.withProgress]; lia |]);
        [reflexivity | exact Hst1].
Qed.

Lemma X22_kills_are_counted_up_to_the_requirement_witness :
  exists quest' obj',
    QuestSystem.quests (afterKills 8 townDefenseAccepted) !! "quest_town_defense"
      = Some quest' /\
    Quest.objectives quest' = [obj'] /\
    QuestObjective.id obj' = "kill_goblins" /\
    QuestObjective.required obj' = 5%Z /\
    QuestObjective.current obj' = Z.min (0 + Z.of_nat 8) 5 /\
    Quest.status quest' = (if (5 <=? 0 + Z.of_nat 8)%Z then COMPLETED else IN_PROGRESS).
Proof.
  exact (X22_kills_are_counted_up_to_the_requirement
           townDefenseAccepted _ _ 8 eq_refl eq_refl eq_refl eq_refl eq_refl).
Defined.

(** ** Runs of the cutscene store *)

(** A lookup finds a registered cutscene first; what it finds on the
    prototype has no [onComplete]. *)
Lemma CutsceneStore_get_own m k c :
  m !! k = Some c -> CutsceneStore.get m k = Some c.
Proof. unfold CutsceneStore.get. intros ->. reflexivity. Qed.

Lemma CutsceneStore_get_onComplete m k :
  CutsceneStore.get m k ≫= Cutscene.onComplete = m !! k ≫= Cutscene.onComplete.
Proof.
  unfold CutsceneStore.get. destruct (m !! k); [reflexivity |].
  destruct (JS.inheritsKey k); reflexivity.
Qed.


(** What [stopCutscene] does: nothing without an active cutscene;
    otherwise it resets the three state fields and calls the active
    cutscene's [onComplete]. *)
Lemma stopCutscene_cases s :
  match truthy (CutsceneStore.activeCutsceneId s) with
  | None => CutsceneStore.stopCutscene s = s
  | Some active =>
      let s' := CutsceneStore.stopCutscene s in
      CutsceneStore.activeCutsceneId s' = None /\
      CutsceneStore.isPlaying s' = false /\
      CutsceneStore.currentDialogueId s' = None /\
      CutsceneStore.cutscenes s' = CutsceneStore.cutscenes s /\
      CutsceneStore.timers s' = CutsceneStore.timers s /\
      CutsceneStore.called s'
        = CutsceneStore.called s
          ++ calls (CutsceneStore.cutscenes s !! active
                      ≫= Cutscene.onComplete)
  end.
Proof.
  unfold CutsceneStore.stopCutscene.
  destruct (truthy (CutsceneStore.activeCutsceneId s)) as [active |];
    [| reflexivity].
  cbv zeta. rewrite <- CutsceneStore_get_onComplete.
  destruct (CutsceneStore.get (CutsceneStore.cutscenes s) active) as [c |]; cbn.
  - destruct (Cutscene.onComplete c); cbn;
      rewrite ?app_nil_r; repeat split; reflexivity.
  - rewrite app_nil_r. repeat split; reflexivity.
Qed.

Lemma truthy_Some_inv (o : option string) k : truthy o = Some k -> o = Some k.
Proof.
  destruct o as [k' |]; cbn; [| discriminate].
  destruct (decide (k' = "")); [discriminate | congruence].
Qed.

Lemma truthy_ne (k : string) : k <> "" -> truthy (Some k) = Some k.
Proof. intros H. cbn. destruct (decide (k = "")); [contradiction | reflexivity]. Qed.
















(** [playCutscene] under a name of [Object.prototype]: on the empty
    store [playCutscene("constructor")] finds the inherited value,
    starts playing under an id that was never registered, and
    registers a cutscene under "undefined"; an unknown name of any
    other kind is reported as not found. *)
Lemma CutsceneStore_playCutscene_inherited_name :
  let s1 := CutsceneStore.playCutscene "constructor" (Some "done")
              CutsceneStore.empty in
  CutsceneStore.activeCutsceneId s1 = Some "constructor" /\
  CutsceneStore.isPlaying s1 = true /\
  CutsceneStore.cutscenes s1 !! "constructor" = None /\
  CutsceneStore.cutscenes s1 !! "undefined"
    = Some (Cutscene.withOnComplete CutsceneStore.inheritedValue (Some "done")) /\
  CutsceneStore.console s1 = [CutsceneStore.Playing "constructor"] /\
  CutsceneStore.called (CutsceneStore.stopCutscene s1) = [] /\
  CutsceneStore.playCutscene "no_such_cutscene" None CutsceneStore.empty
    = CutsceneStore.log CutsceneStore.empty
        (CutsceneStore.NotFound "no_such_cutscene").
Proof. vm_compute. repeat split. Qed.




Lemma playCutscene_fields cutsceneId onComplete s c :
  CutsceneStore.cutscenes s !! cutsceneId = Some c ->
  let s' := CutsceneStore.playCutscene cutsceneId onComplete s in
  CutsceneStore.activeCutsceneId s' = Some cutsceneId /\
  CutsceneStore.isPlaying s' = true /\
  CutsceneStore.called s' = CutsceneStore.called s /\
  CutsceneStore.cutscenes s'
    = <[Cutscene.id c :=
          Cutscene.withOnComplete c
            (CutsceneStore.orElse onComplete (Cutscene.onComplete c))]>
        (CutsceneStore.cutscenes s) /\
  CutsceneStore.timers s'
    = CutsceneStore.timers s
      ++ match Cutscene.duration c with
         | Some d =>
             if negb (Qeq_bool d 0) && negb (CutsceneStore.hasDialogues c)
             then [d] else []
         | None => []
         end.
Proof.
  intros Hc. cbv zeta. unfold CutsceneStore.playCutscene.
  rewrite (CutsceneStore_get_own _ _ _ Hc). cbv zeta.
  destruct (Cutscene.duration c) as [d |];
    [destruct (negb (Qeq_bool d 0) && negb (CutsceneStore.hasDialogues c)) |];
    cbn; rewrite ?app_nil_r; repeat split; reflexivity.
Qed.

(** X24.  A callback passed to [playCutscene] is written into the
    registered cutscene and stays there: it is called when that play is
    stopped, and again at the end of every later play of the same
    cutscene that passes no callback of its own; the [onComplete] the
    cutscene was registered with is not called again. *)
Theorem X24_play_callback_sticks_to_the_cutscene cutsceneId cb s c :
  CutsceneStore.cutscenes s !! cutsceneId = Some c ->
  Cutscene.id c = cutsceneId ->
  cutsceneId <> "" ->
  let s1 := CutsceneStore.stopCutscene
              (CutsceneStore.playCutscene cutsceneId (Some cb) s) in
  let s2 := CutsceneStore.stopCutscene
              (CutsceneStore.playCutscene cutsceneId None s1) in
  CutsceneStore.called s1 = CutsceneStore.called s ++ [cb] /\
  (Cutscene.onComplete <$> CutsceneStore.cutscenes s1 !! cutsceneId)
    = Some (Some cb) /\
  CutsceneStore.isPlaying s1 = false /\
  CutsceneStore.called s2 = CutsceneStore.called s ++ [cb; cb] /\
  CutsceneStore.isPlaying s2 = false.
Proof.
  intros Hc Hid Hne. cbv zeta.
  destruct (playCutscene_fields cutsceneId (Some cb) s c Hc)
    as (Ha1 & _ & Hcalled1 & Hcs1 & _).
  pose proof (stopCutscene_cases
                (CutsceneStore.playCutscene cutsceneId (Some cb) s)) as Hstop1.
  rewrite Ha1, (truthy_ne _ Hne) in Hstop1. cbv zeta in Hstop1.
  destruct Hstop1 as (_ & Hp1 & _ & Hcs1' & _ & Hcalled1').
  rewrite Hcs1, Hid, lookup_insert_eq, Hcalled1 in Hcalled1'.
  cbn in Hcalled1'.
  set (s1 := CutsceneStore.stopCutscene
               (CutsceneStore.playCutscene cutsceneId (Some cb) s)) in *.
  assert (Hc1 : CutsceneStore.cutscenes s1 !! cutsceneId
                = Some (Cutscene.withOnComplete c (Some cb))).
  { rewrite Hcs1', Hcs1, Hid. apply lookup_insert_eq. }
  split; [exact Hcalled1' |]. split; [rewrite Hc1; reflexivity |].
  split; [exact Hp1 |].
  destruct (playCutscene_fields cutsceneId None s1 _ Hc1)
    as (Ha2 & _ & Hcalled2 & Hcs2 & _).
  pose proof (stopCutscene_cases
                (CutsceneStore.playCutscene cutsceneId None s1)) as Hstop2.
  rewrite Ha2, (truthy_ne _ Hne) in Hstop2. cbv zeta in Hstop2.
  destruct Hstop2 as (_ & Hp2 & _ & _ & _ & Hcalled2').
  cbn [Cutscene.id Cutscene.withOnComplete] in Hcs2.
  rewrite Hcs2, Hid, lookup_insert_eq, Hcalled2, Hcalled1' in Hcalled2'.
  cbn in Hcalled2'. rewrite <- app_assoc in Hcalled2'.
  split; [exact Hcalled2' | exact Hp2].
Qed.

Lemma X24_play_callback_sticks_to_the_cutscene_witness :
  let s := CutsceneStore.registerCutscene gamePrologueCutscene
             CutsceneStore.empty in
  let s1 := CutsceneStore.stopCutscene
              (CutsceneStore.playCutscene "game_prologue" (Some "openShop") s) in
  let s2 := CutsceneStore.stopCutscene
              (CutsceneStore.playCutscene "game_prologue" None s1) in
  CutsceneStore.called s1 = CutsceneStore.called s ++ ["openShop"] /\
  (Cutscene.onComplete <$> CutsceneStore.cutscenes s1 !! "game_prologue")
    = Some (Some "openShop") /\
  CutsceneStore.isPlaying s1 = false /\
  CutsceneStore.called s2 = CutsceneStore.called s ++ ["openShop"; "openShop"] /\
  CutsceneStore.isPlaying s2 = false.
Proof.
  exact (X24_play_callback_sticks_to_the_cutscene
           "game_prologue" "openShop"
           (CutsceneStore.registerCutscene gamePrologueCutscene CutsceneStore.empty)
           gamePrologueCutscene eq_refl eq_refl ltac:(discriminate)).
Defined.

(** X25.  A [nextId] that names no node leaves the cutscene stuck:
    [nextDialogue] moves the pointer to it without a check, the cutscene
    stays active and playing with no current dialogue, [onComplete] is
    not called, and from then on [nextDialogue] and every
    [selectDialogueOption] return without doing anything. *)
Theorem X25_dangling_nextId_leaves_cutscene_stuck s active c dialogues d next :
  truthy (CutsceneStore.activeCutsceneId s) = Some active ->
  CutsceneStore.cutscenes s !! active = Some c ->
  Cutscene.dialogues c = Some dialogues ->
  CutsceneStore.getCurrentDialogue s = Some d ->
  CutsceneStore.presentsChoices d = false ->
  truthy (DialogueNode.nextId d) = Some next ->
  list_find (fun n => DialogueNode.id n = next) dialogues = None ->
  let s' := CutsceneStore.nextDialogue s in
  CutsceneStore.currentDialogueId s' = Some next /\
  CutsceneStore.activeCutsceneId s' = CutsceneStore.activeCutsceneId s /\
  CutsceneStore.isPlaying s' = CutsceneStore.isPlaying s /\
  CutsceneStore.called s' = CutsceneStore.called s /\
  CutsceneStore.getCurrentDialogue s' = None /\
  CutsceneStore.nextDialogue s' = s' /\
  forall i, CutsceneStore.selectDialogueOption i s' = CutsceneStore.Returns s'.
Proof.
  intros Ha Hc Hds Hd Hch Hnext Hmiss. cbv zeta.
  assert (Hs' : CutsceneStore.nextDialogue s
                = CutsceneStore.setCurrentDialogueId
                    (CutsceneStore.log s (CutsceneStore.MovingTo next)) (Some next)).
  { unfold CutsceneStore.nextDialogue. rewrite Hd, Hch, Hnext. reflexivity. }
  rewrite Hs'.
  assert (Hnone : CutsceneStore.getCurrentDialogue
                    (CutsceneStore.setCurrentDialogueId
                       (CutsceneStore.log s (CutsceneStore.MovingTo next))
                       (Some next)) = None).
  { unfold CutsceneStore.getCurrentDialogue. cbn. rewrite Ha.
    pose proof (truthy_Some_inv _ _ Hnext) as Hn.
    destruct (decide (next = "")) as [-> | _]; [reflexivity |].
    rewrite (CutsceneStore_get_own _ _ _ Hc), Hds, Hmiss. reflexivity. }
  split; [reflexivity |]. split; [reflexivity |]. split; [reflexivity |].
  split; [reflexivity |]. split; [exact Hnone |].
  split.
  - unfold CutsceneStore.nextDialogue. rewrite Hnone. reflexivity.
  - intros i. unfold CutsceneStore.selectDialogueOption. rewrite Hnone.
    reflexivity.
Qed.

Lemma X25_dangling_nextId_leaves_cutscene_stuck_witness :
  let s' := CutsceneStore.nextDialogue playingBroken in
  CutsceneStore.currentDialogueId s' = Some "missing" /\
  CutsceneStore.activeCutsceneId s'
    = CutsceneStore.activeCutsceneId playingBroken /\
  CutsceneStore.isPlaying s' = CutsceneStore.isPlaying playingBroken /\
  CutsceneStore.called s' = CutsceneStore.called playingBroken /\
  CutsceneStore.getCurrentDialogue s' = None /\
  CutsceneStore.nextDialogue s' = s' /\
  forall i, CutsceneStore.selectDialogueOption i s' = CutsceneStore.Returns s'.
Proof.
  exact (X25_dangling_nextId_leaves_cutscene_stuck
           playingBroken "broken" _ _ _ "missing"
           eq_refl eq_refl eq_refl eq_refl eq_refl eq_refl eq_refl).
Defined.

(** X26.  Stopping a timed cutscene does not cancel its timer, and the
    timer stops whatever is playing when it fires: after a timed
    cutscene without dialogues is played and stopped, its timer is still
    pending; if another cutscene is then played, the firing of that
    timer ends the other cutscene and calls the other cutscene's
    callback. *)
Theorem X26_stale_timer_stops_the_next_cutscene s a ca d b cb onComplete :
  CutsceneStore.cutscenes s !! a = Some ca ->
  Cutscene.id ca = a ->
  a <> "" ->
  Cutscene.duration ca = Some d ->
  Qeq_bool d 0 = false ->
  CutsceneStore.hasDialogues ca = false ->
  CutsceneStore.cutscenes s !! b = Some cb ->
  Cutscene.id cb = b ->
  b <> "" ->
  b <> a ->
  let s1 := CutsceneStore.stopCutscene (CutsceneStore.playCutscene a None s) in
  let s2 := CutsceneStore.playCutscene b onComplete s1 in
  let s3 := CutsceneStore.fireTimer (length (CutsceneStore.timers s)) s2 in
  CutsceneStore.isPlaying s1 = false /\
  CutsceneStore.timers s1 = CutsceneStore.timers s ++ [d] /\
  CutsceneStore.isPlaying s2 = true /\
  CutsceneStore.activeCutsceneId s2 = Some b /\
  CutsceneStore.isPlaying s3 = false /\
  CutsceneStore.activeCutsceneId s3 = None /\
  CutsceneStore.called s3
    = CutsceneStore.called s ++ calls (Cutscene.onComplete ca)
      ++ calls (CutsceneStore.orElse onComplete (Cutscene.onComplete cb)).
Proof.
  intros Hca Hida Hnea Hd Hd0 Hnod Hcb Hidb Hneb Hba. cbv zeta.
  destruct (playCutscene_fields a None s ca Hca)
    as (Ha0 & _ & Hcalled0 & Hcs0 & Ht0).
  rewrite Hd, Hd0, Hnod in Ht0. cbn in Ht0.
  pose proof (stopCutscene_cases (CutsceneStore.playCutscene a None s)) as Hstop.
  rewrite Ha0, (truthy_ne _ Hnea) in Hstop. cbv zeta in Hstop.
  destruct Hstop as (_ & Hp1 & _ & Hcs1 & Ht1 & Hcalled1).
  rewrite Hcs0, Hida, lookup_insert_eq, Hcalled0 in Hcalled1.
  cbn [mbind option_bind Cutscene.onComplete Cutscene.withOnComplete
       CutsceneStore.orElse] in Hcalled1.
  set (s1 := CutsceneStore.stopCutscene (CutsceneStore.playCutscene a None s)) in *.
  rewrite Ht0 in Ht1.
  assert (Hcb1 : CutsceneStore.cutscenes s1 !! b = Some cb).
  { rewrite Hcs1, Hcs0, Hida. rewrite lookup_insert_ne by congruence. exact Hcb. }
  destruct (playCutscene_fields b onComplete s1 cb Hcb1)
    as (Ha2 & Hp2 & Hcalled2 & Hcs2 & Ht2).
  set (s2 := CutsceneStore.playCutscene b onComplete s1) in *.
  split; [exact Hp1 |]. split; [exact Ht1 |]. split; [exact Hp2 |].
  split; [exact Ha2 |].
  assert (Htimer : CutsceneStore.timers s2 !! length (CutsceneStore.timers s)
                   = Some d).
  { rewrite Ht2, Ht1, <- app_assoc.
    rewrite lookup_app_r by lia. rewrite Nat.sub_diag. reflexivity. }
  unfold CutsceneStore.fireTimer. rewrite Htimer.
  match goal with
  | |- context [CutsceneStore.stopCutscene ?x] =>
      pose proof (stopCutscene_cases x) as Hfire
  end.
  cbn [CutsceneStore.activeCutsceneId CutsceneStore.called
       CutsceneStore.cutscenes CutsceneStore.timers] in Hfire.
  rewrite Ha2, (truthy_ne _ Hneb) in Hfire. cbv zeta in Hfire.
  destruct Hfire as (Ha3 & Hp3 & _ & _ & _ & Hcalled3).
  rewrite Ha2.
  split; [exact Hp3 |]. split; [exact Ha3 |].
  rewrite Hcalled3.
  rewrite Hcalled2, Hcalled1, Hcs2, Hidb, lookup_insert_eq.
  cbn [mbind option_bind Cutscene.onComplete Cutscene.withOnComplete].
  rewrite <- app_assoc. reflexivity.
Qed.

Lemma X26_stale_timer_stops_the_next_cutscene_witness :
  let s1 := CutsceneStore.stopCutscene
              (CutsceneStore.playCutscene "fade" None twoCutscenes) in
  let s2 := CutsceneStore.playCutscene "game_prologue" None s1 in
  let s3 := CutsceneStore.fireTimer (length (CutsceneStore.timers twoCutscenes)) s2 in
  CutsceneStore.isPlaying s1 = false /\
  CutsceneStore.timers s1 = CutsceneStore.timers twoCutscenes ++ [1500] /\
  CutsceneStore.isPlaying s2 = true /\
  CutsceneStore.activeCutsceneId s2 = Some "game_prologue" /\
  CutsceneStore.isPlaying s3 = false /\
  CutsceneStore.activeCutsceneId s3 = None /\
  CutsceneStore.called s3
    = CutsceneStore.called twoCutscenes ++ calls (Cutscene.onComplete fadeToBlack)
      ++ calls (CutsceneStore.orElse None (Cutscene.onComplete gamePrologueCutscene)).
Proof.
  exact (X26_stale_timer_stops_the_next_cutscene
           twoCutscenes "fade" fadeToBlack 1500 "game_prologue"
           gamePrologueCutscene None
           eq_refl eq_refl ltac:(discriminate) eq_refl eq_refl eq_refl
           eq_refl eq_refl ltac:(discriminate) ltac:(discriminate)).
Defined.


(** ** Combat in the scene *)

Lemma defeats_app l1 l2 : defeats (l1 ++ l2) = (defeats l1 + defeats l2)%nat.
Proof. unfold defeats. rewrite List.filter_app, length_app. reflexivity. Qed.

Lemma enemyAttacks_app l1 l2 :
  enemyAttacks (l1 ++ l2) = (enemyAttacks l1 + enemyAttacks l2)%nat.
Proof. unfold enemyAttacks. rewrite List.filter_app, length_app. reflexivity. Qed.

Section SceneCombat.
Variable sqrt : Q -> Q.

(** The enemy's half of [checkCombat]: it logs no defeat; it logs an
    enemy attack, landed or dodged, exactly when the enemy is in range
    and the shared cooldown has run out, and then restarts the
    cooldown. *)
Lemma checkCombat_cases enemy playerPosition now sc :
  let r := Scene3D.checkCombat sqrt enemy playerPosition now sc in
  Scene3D.enemies (snd r) = Scene3D.enemies sc /\
  (is_Some (Scene3D.character sc) -> is_Some (Scene3D.character (snd r))) /\
  ((Scene3D.lastCombatTime (snd r) = Scene3D.lastCombatTime sc /\
    enemyAttacks (Scene3D.combatLog (snd r))
      = enemyAttacks (Scene3D.combatLog sc)) \/
   (Scene3D.lastCombatTime sc + Scene3D.combatCooldown < now /\
    Scene3D.lastCombatTime (snd r) = now /\
    enemyAttacks (Scene3D.combatLog (snd r))
      = S (enemyAttacks (Scene3D.combatLog sc)))) /\
  (Enemy.isDead (EnemyAI.self enemy) = false ->
   defeats (Scene3D.combatLog (snd r))
     = (defeats (Scene3D.combatLog sc)
        + (if Enemy.isDead (EnemyAI.self (fst r)) then 1 else 0))%nat).
Proof.
  cbv zeta. unfold Scene3D.checkCombat. cbv zeta.
  set (dist := EnemyAI.distanceTo sqrt (EnemyAI.position enemy) playerPosition).
  set (who := Enemy.name (Enemy.type (EnemyAI.self enemy))).
  match goal with
  | |- context [match Scene3D.character ?x with _ => _ end] => set (sc1 := x)
  end.
  assert (H1 : Scene3D.enemies sc1 = Scene3D.enemies sc /\
               (is_Some (Scene3D.character sc) -> is_Some (Scene3D.character sc1)) /\
               defeats (Scene3D.combatLog sc1) = defeats (Scene3D.combatLog sc) /\
               ((Scene3D.lastCombatTime sc1 = Scene3D.lastCombatTime sc /\
                 enemyAttacks (Scene3D.combatLog sc1)
                   = enemyAttacks (Scene3D.combatLog sc)) \/
                (Scene3D.lastCombatTime sc + Scene3D.combatCooldown < now /\
                 Scene3D.lastCombatTime sc1 = now /\
                 enemyAttacks (Scene3D.combatLog sc1)
                   = S (enemyAttacks (Scene3D.combatLog sc))))).
  { unfold sc1.
    destruct (Math.lt dist _); [| tauto].
    destruct (Math.gt _ _) eqn:Hcool; [| tauto].
    apply Math_gt_iff in Hcool.
    destruct (negb _); cbn [Scene3D.enemies Scene3D.character Scene3D.combatLog
                            Scene3D.lastCombatTime Scene3D.addCombatLogMessage
                            Scene3D.withCharacter Scene3D.withLastCombatTime];
      rewrite defeats_app, enemyAttacks_app; cbn;
      (split; [reflexivity |]);
      (split; [try (intros [c ->]; cbn; eauto); tauto |]);
      (split; [lia |]); right; (split; [lra |]); (split; [reflexivity | lia]). }
  clearbody sc1. destruct H1 as (He & Hc & Hd & Ha).
  assert (Hskip : forall e : EnemyAI.t,
            e = enemy ->
            Scene3D.enemies sc1 = Scene3D.enemies sc /\
            (is_Some (Scene3D.character sc) -> is_Some (Scene3D.character sc1)) /\
            ((Scene3D.lastCombatTime sc1 = Scene3D.lastCombatTime sc /\
              enemyAttacks (Scene3D.combatLog sc1)
                = enemyAttacks (Scene3D.combatLog sc)) \/
             (Scene3D.lastCombatTime sc + Scene3D.combatCooldown < now /\
              Scene3D.lastCombatTime sc1 = now /\
              enemyAttacks (Scene3D.combatLog sc1)
                = S (enemyAttacks (Scene3D.combatLog sc)))) /\
            (Enemy.isDead (EnemyAI.self enemy) = false ->
             defeats (Scene3D.combatLog sc1)
               = (defeats (Scene3D.combatLog sc)
                  + (if Enemy.isDead (EnemyAI.self e) then 1 else 0))%nat)).
  { intros e ->. split; [exact He |]. split; [exact Hc |]. split; [exact Ha |].
    intros ->. lia. }
  destruct (Scene3D.character sc1) as [c |] eqn:Hchar;
    [| cbn [fst snd]; rewrite ?Hchar; apply (Hskip enemy); reflexivity].
  destruct (isAttacking c); [| cbn [fst snd]; rewrite ?Hchar; apply (Hskip enemy); reflexivity].
  destruct (Math.lt dist _); [| cbn [fst snd]; rewrite ?Hchar; apply (Hskip enemy); reflexivity].
  unfold Enemy.isAlive. rewrite negb_involutive.
  cbn [EnemyAI.self Scene3D.withSelf].
  destruct (Enemy.isDead (Enemy.takeDamage _ _)) eqn:Hdead;
    cbn [fst snd Scene3D.enemies Scene3D.character Scene3D.combatLog
         Scene3D.lastCombatTime Scene3D.addCombatLogMessage
         Scene3D.withCharacter EnemyAI.self Scene3D.withSelf];
    rewrite ?defeats_app, ?enemyAttacks_app; cbn [defeats enemyAttacks
      List.filter isDefeatLine isEnemyAttackLine length];
    rewrite ?Nat.add_0_r, ?Hchar;
    (split; [exact He |]); (split; [eauto |]);
    (split; [exact Ha |]); intros _; rewrite Hdead; lia.
Qed.

Lemma visit_cases deltaTime playerPosition readings enemy sc :
  let r := Scene3D.visit sqrt deltaTime playerPosition readings enemy sc in
  defeats (Scene3D.combatLog (snd r))
    = (defeats (Scene3D.combatLog sc)
       + (if Enemy.isDead (EnemyAI.self enemy) then 0
          else if Enemy.isDead (EnemyAI.self (fst r)) then 1 else 0))%nat.
Proof.
  cbv zeta. unfold Scene3D.visit, Enemy.isAlive.
  destruct (Enemy.isDead (EnemyAI.self enemy)) eqn:Hdead; cbn [negb fst snd];
    [lia |].
  match goal with
  | |- context [Scene3D.checkCombat sqrt ?e ?p ?n ?s] =>
      destruct (checkCombat_cases e p n s) as (_ & _ & _ & H)
  end.
  cbv zeta in H. apply H.
  destruct (EnemyAI_update_keeps sqrt
              (EnemyAI.mkTick deltaTime playerPosition (fst readings)) enemy)
    as (_ & _ & -> & _).
  exact Hdead.
Qed.

Lemma visitFrom_cases deltaTime playerPosition clock es :
  forall i sc,
    Forall alive es ->
    let r := Scene3D.visitFrom sqrt deltaTime playerPosition clock i es sc in
    (defeats (Scene3D.combatLog (snd r))
       + length (filter (fun e => Enemy.isAlive (EnemyAI.self e) = true) (fst r))
     = defeats (Scene3D.combatLog sc) + length es)%nat.
Proof.
  induction es as [| e rest IH]; intros i sc Halive; cbv zeta.
  - cbn. lia.
  - apply Forall_cons in Halive as [He Hrest].
    specialize (IH (S i) sc Hrest). cbv zeta in IH.
    cbn [Scene3D.visitFrom].
    destruct (Scene3D.visitFrom sqrt deltaTime playerPosition clock (S i) rest sc)
      as [rest' sc1].
    cbn [fst snd] in IH.
    pose proof (visit_cases deltaTime playerPosition (clock i) e sc1) as Hv.
    cbv zeta in Hv.
    destruct (Scene3D.visit sqrt deltaTime playerPosition (clock i) e sc1)
      as [e' sc2].
    cbn [fst snd] in Hv |- *.
    unfold alive, Enemy.isAlive in He. apply negb_true_iff in He.
    rewrite He in Hv. rewrite filter_cons.
    destruct (decide (Enemy.isAlive (EnemyAI.self e') = true)) as [Hal | Hal];
      unfold Enemy.isAlive in Hal.
    + apply negb_true_iff in Hal. rewrite Hal in Hv. cbn [length].
      rewrite Hv, Nat.add_0_r, !Nat.add_succ_r. f_equal. exact IH.
    + apply not_true_is_false, negb_false_iff in Hal. rewrite Hal in Hv.
      cbn [length]. rewrite Hv, <- Nat.add_assoc. cbn [Nat.add].
      rewrite !Nat.add_succ_r. f_equal. exact IH.
Qed.

(** X28.  Every kill is logged once: in a frame that starts with
    living enemies only, the enemy part of [animate] logs one
    "You defeated" line for each enemy it drops from the list, and the
    enemies it keeps are all alive; so the number of enemies plus the
    number of defeats in the log is the same after the frame as
    before. *)
Theorem X28_every_kill_is_logged_once deltaTime clock sc :
  Forall alive (Scene3D.enemies sc) ->
  let sc' := Scene3D.animateEnemies sqrt deltaTime clock sc in
  Forall alive (Scene3D.enemies sc') /\
  (defeats (Scene3D.combatLog sc') + length (Scene3D.enemies sc')
   = defeats (Scene3D.combatLog sc) + length (Scene3D.enemies sc))%nat.
Proof.
  intros Halive. cbv zeta. unfold Scene3D.animateEnemies.
  destruct (Scene3D.character sc) as [c |]; [| split; [exact Halive | reflexivity]].
  pose proof (visitFrom_cases deltaTime (position c) clock (Scene3D.enemies sc)
                0%nat sc Halive) as H.
  cbv zeta in H.
  destruct (Scene3D.visitFrom sqrt deltaTime (position c) clock 0
              (Scene3D.enemies sc) sc) as [es sc1].
  cbn [fst snd] in H. cbn [Scene3D.enemies Scene3D.combatLog Scene3D.withEnemies].
  split; [| exact H].
  apply Forall_forall. intros e He. apply list_elem_of_filter in He as [He _].
  exact He.
Qed.

(** Within one cooldown of the last enemy attack no [checkCombat]
    call resolves another one. *)
Lemma checkCombats_quiet t0 calls :
  forall sc,
    Forall (fun call => snd call <= t0 + Scene3D.combatCooldown) calls ->
    t0 <= Scene3D.lastCombatTime sc ->
    enemyAttacks (Scene3D.combatLog (Scene3D.checkCombats sqrt calls sc))
      = enemyAttacks (Scene3D.combatLog sc).
Proof.
  induction calls as [| [[enemy p] now] calls IH]; intros sc Hwin Hlast.
  - reflexivity.
  - apply Forall_cons in Hwin as [Hnow Hrest]. cbn [snd] in Hnow.
    cbn [Scene3D.checkCombats fold_left fst snd].
    fold (Scene3D.checkCombats sqrt calls
            (snd (Scene3D.checkCombat sqrt enemy p now sc))).
    destruct (checkCombat_cases enemy p now sc) as (_ & _ & Hcase & _).
    cbv zeta in Hcase.
    destruct Hcase as [(Htime & Hlog) | (Hcool & _ & _)].
    + rewrite IH; [exact Hlog | exact Hrest | rewrite Htime; exact Hlast].
    + exfalso. clear - Hnow Hcool Hlast. lra.
Qed.

(** X29.  The avatar faces one enemy attack at a time: however many
    enemies are in range, among the [checkCombat] calls whose clock
    readings lie within one cooldown (half a second) of each other at
    most one resolves an enemy attack, and a dodged attack uses up the
    turn like a landed one. *)
Theorem X29_one_enemy_attack_per_cooldown t0 calls sc :
  Forall (fun call => t0 <= snd call <= t0 + Scene3D.combatCooldown) calls ->
  let sc' := Scene3D.checkCombats sqrt calls sc in
  (enemyAttacks (Scene3D.combatLog sc')
   <= S (enemyAttacks (Scene3D.combatLog sc)))%nat.
Proof.
  revert sc. induction calls as [| [[enemy p] now] calls IH]; intros sc Hwin; cbv zeta.
  - cbn. lia.
  - apply Forall_cons in Hwin as [[Hlo Hhi] Hrest]. cbn [snd] in Hlo, Hhi.
    cbn [Scene3D.checkCombats fold_left fst snd].
    fold (Scene3D.checkCombats sqrt calls
            (snd (Scene3D.checkCombat sqrt enemy p now sc))).
    destruct (checkCombat_cases enemy p now sc) as (_ & _ & Hcase & _).
    cbv zeta in Hcase.
    set (sc1 := snd (Scene3D.checkCombat sqrt enemy p now sc)) in *.
    destruct Hcase as [(Htime & Hlog) | (Hcool & Htime & Hlog)].
    + specialize (IH sc1 Hrest). cbv zeta in IH. rewrite Hlog in IH. exact IH.
    + assert (Hrest' : Forall (fun call => snd call <= t0 + Scene3D.combatCooldown)
                         calls).
      { eapply Forall_impl; [exact Hrest |]. intros call [_ H]. exact H. }
      rewrite (checkCombats_quiet t0 calls sc1 Hrest').
      * rewrite Hlog. lia.
      * rewrite Htime. exact Hlo.
Qed.

End SceneCombat.

Lemma X28_every_kill_is_logged_once_witness :
  let sc' := Scene3D.animateEnemies sqrtOfSquare (1 # 60)
               (fun _ => (1, 1)) skirmish in
  Forall alive (Scene3D.enemies sc') /\
  (defeats (Scene3D.combatLog sc') + length (Scene3D.enemies sc')
   = defeats (Scene3D.combatLog skirmish) + length (Scene3D.enemies skirmish))%nat.
Proof.
  apply (X28_every_kill_is_logged_once sqrtOfSquare).
  repeat constructor.
Defined.

Lemma X29_one_enemy_attack_per_cooldown_witness :
  let sc' := Scene3D.checkCombats sqrtOfSquare
               [(trollNearby, mkVector3 0 0 0, 1);
                (woundedGoblin, mkVector3 0 0 0, 1);
                (trollNearby, mkVector3 0 0 0, 3 # 2)] skirmish in
  (enemyAttacks (Scene3D.combatLog sc')
   <= S (enemyAttacks (Scene3D.combatLog skirmish)))%nat.
Proof.
  apply (X29_one_enemy_attack_per_cooldown sqrtOfSquare 1).
  repeat constructor; cbn; unfold Scene3D.combatCooldown; lra.
Defined.
Lemma takeDamage_isAttacking amount c :
  isAttacking (Character3D.takeDamage amount c) = isAttacking c.
Proof. unfold Character3D.takeDamage. cbv zeta. break_ifs; reflexivity. Qed.

Section SceneHits.
Variable sqrt : Q -> Q.

(** X30.  The combat log shows the avatar's attack power, not the
    damage done: when the avatar is attacking and a living enemy is
    within its range, [checkCombat] logs "You hit ... for" the full
    attack power, after at most one line of the enemy's own attack,
    while the enemy's health drops by [max 1 (attackPower - defense)];
    the only line that can follow is the one of the enemy's defeat. *)
Theorem X30_log_shows_power_not_damage enemy playerPosition now sc c :
  Scene3D.character sc = Some c ->
  isAttacking c = true ->
  Math.lt (EnemyAI.distanceTo sqrt (EnemyAI.position enemy) playerPosition)
          (Scene3D.getAttackRange c) = true ->
  Enemy.isDead (EnemyAI.self enemy) = false ->
  let r := Scene3D.checkCombat sqrt enemy playerPosition now sc in
  let who := Enemy.name (Enemy.type (EnemyAI.self enemy)) in
  Enemy.currentHealth (EnemyAI.self (fst r))
    = Enemy.currentHealth (EnemyAI.self enemy)
      - Math.max 1 (attackPower (stats c) - Enemy.defense (EnemyAI.self enemy)) /\
  exists pre post,
    Scene3D.combatLog (snd r)
      = Scene3D.combatLog sc
        ++ pre ++ Scene3D.YouHit who (attackPower (stats c)) :: post /\
    (length pre <= 1)%nat /\
    Forall (fun m => isEnemyAttackLine m = true) pre /\
    post = (if Enemy.isDead (EnemyAI.self (fst r))
            then [Scene3D.YouDefeated who
                    (Enemy.experienceValue (EnemyAI.self enemy))]
            else []).
Proof.
  intros Hc Hatt Hrange Halive. cbv zeta. unfold Scene3D.checkCombat. cbv zeta.
  set (dist := EnemyAI.distanceTo sqrt (EnemyAI.position enemy) playerPosition) in *.
  set (who := Enemy.name (Enemy.type (EnemyAI.self enemy))).
  match goal with
  | |- context [match Scene3D.character ?x with _ => _ end] => set (sc1 := x)
  end.
  assert (H1 : exists c1 pre,
            Scene3D.character sc1 = Some c1 /\
            isAttacking c1 = true /\
            attackPower (stats c1) = attackPower (stats c) /\
            Scene3D.combatLog sc1 = Scene3D.combatLog sc ++ pre /\
            (length pre <= 1)%nat /\
            Forall (fun m => isEnemyAttackLine m = true) pre).
  { unfold sc1.
    destruct (Math.lt dist (Enemy.attackRange _));
      [| exists c, []; rewrite app_nil_r; auto 10].
    destruct (Math.gt _ _); [| exists c, []; rewrite app_nil_r; auto 10].
    cbn [Scene3D.character Scene3D.withLastCombatTime]. rewrite Hc.
    destruct (negb (isDodging c)).
    - exists (Character3D.takeDamage (Enemy.attackPower (EnemyAI.self enemy)) c),
             [Scene3D.EnemyHitsYou who (Enemy.attackPower (EnemyAI.self enemy))].
      cbn. rewrite takeDamage_isAttacking.
      destruct (takeDamage_other_stats
                  (Enemy.attackPower (EnemyAI.self enemy)) c)
        as (_ & _ & _ & _ & _ & _ & _ & _ & Hpower & _).
      cbv zeta in Hpower. repeat split; auto.
    - exists c, [Scene3D.YouDodged who]. cbn. repeat split; auto. }
  clearbody sc1. destruct H1 as (c1 & pre & Hc1 & Hatt1 & Hpower & Hlog & Hlen & Hpre).
  rewrite Hc1, Hatt1.
  change (Scene3D.getAttackRange c1) with (Scene3D.getAttackRange c).
  rewrite Hrange. rewrite Hpower.
  unfold Enemy.isAlive. rewrite negb_involutive.
  cbn [EnemyAI.self Scene3D.withSelf].
  destruct (Enemy_takeDamage_alive (attackPower (stats c)) (EnemyAI.self enemy)
              Halive) as (Hhealth & _ & _).
  assert (Hexp : Enemy.experienceValue
                   (Enemy.takeDamage (attackPower (stats c)) (EnemyAI.self enemy))
                 = Enemy.experienceValue (EnemyAI.self enemy)).
  { unfold Enemy.takeDamage. rewrite Halive. cbv zeta.
    unfold Enemy.die. cbn. break_ifs; reflexivity. }
  destruct (Enemy.isDead (Enemy.takeDamage _ _)) eqn:Hdead;
    cbn [fst snd Scene3D.combatLog Scene3D.addCombatLogMessage
         Scene3D.withCharacter EnemyAI.self Scene3D.withSelf];
    rewrite ?Hdead; (split; [exact Hhealth |]); exists pre; eexists;
    (split; [| split; [exact Hlen | split; [exact Hpre | reflexivity]]]);
    rewrite Hlog, ?Hexp, <- ?app_assoc; cbn; rewrite ?app_nil_r; reflexivity.
Qed.

End SceneHits.

Lemma X30_log_shows_power_not_damage_witness :
  let r := Scene3D.checkCombat sqrtOfSquare trollNearby (mkVector3 0 0 0) 1
             skirmish in
  Enemy.currentHealth (EnemyAI.self (fst r))
    = 80 - Math.max 1 (10 - 5) /\
  exists pre post,
    Scene3D.combatLog (snd r)
      = Scene3D.combatLog skirmish
        ++ pre ++ Scene3D.YouHit "Troll" 10 :: post /\
    (length pre <= 1)%nat /\
    Forall (fun m => isEnemyAttackLine m = true) pre /\
    post = (if Enemy.isDead (EnemyAI.self (fst r))
            then [Scene3D.YouDefeated "Troll" 50]
            else []).
Proof.
  exact (X30_log_shows_power_not_damage sqrtOfSquare trollNearby
           (mkVector3 0 0 0) 1 skirmish swinging
           eq_refl eq_refl eq_refl eq_refl).
Defined.
